(** * Course development flow: outline parsing, lesson-plan loop and exports

  A shallow embedding of [src/design/streamlit_course.py].  Python strings
  are sequences of Unicode code points; what lies outside the script
  (the two search APIs, the chat-completion endpoint, the selection
  widget, the PDF layout library) is the fields of a [World] record, so
  that every function of the script is a total, executable function of
  its inputs and of the world's answers. *)

From Stdlib Require Import List NArith ZArith Bool Lia String Ascii Permutation.
From Stdlib Require Import SpecFloat.
From Stdlib Require Decimal.
Import ListNotations.

Local Open Scope N_scope.
Local Open Scope list_scope.
Set Warnings "-register-all".

(* ------------------------------------------------------------------ *)
(** ** Python strings *)

Module PyStr.

(** A character is a code point, a [str] the list of its characters. *)
Abbreviation char := N (only parsing).
Abbreviation str := (list N) (only parsing).

Definition NL : char := 10.

(** A literal, written as a Rocq string of ASCII characters. *)
Definition lit (s : String.string) : str :=
  List.map N_of_ascii (list_ascii_of_string s).

Fixpoint str_eqb (a b : str) : bool :=
  match a, b with
  | [], [] => true
  | x :: a', y :: b' => (x =? y) && str_eqb a' b'
  | _, _ => false
  end.

(** [bool(s)] for a string: the empty string is falsy. *)
Definition truthy (s : str) : bool :=
  match s with [] => false | _ :: _ => true end.

(** [str.isspace] on one character (the interpreter's whitespace
    table). *)
Definition isspace (c : char) : bool :=
  ((9 <=? c) && (c <=? 13)) || ((28 <=? c) && (c <=? 32))
  || (c =? 0x85) || (c =? 0xA0) || (c =? 0x1680)
  || ((0x2000 <=? c) && (c <=? 0x200A))
  || (c =? 0x2028) || (c =? 0x2029) || (c =? 0x202F)
  || (c =? 0x205F) || (c =? 0x3000).

(** First code point of every block of ten decimal digits (category Nd,
    Unicode 14.0 as shipped with CPython 3.11); the mathematical digits
    1D7CE..1D7FF are five consecutive blocks. *)
Definition decimal_blocks : list N :=
  [ 0x30; 0x660; 0x6F0; 0x7C0; 0x966; 0x9E6; 0xA66; 0xAE6; 0xB66; 0xBE6;
    0xC66; 0xCE6; 0xD66; 0xDE6; 0xE50; 0xED0; 0xF20; 0x1040; 0x1090;
    0x17E0; 0x1810; 0x1946; 0x19D0; 0x1A80; 0x1A90; 0x1B50; 0x1BB0;
    0x1C40; 0x1C50; 0xA620; 0xA8D0; 0xA900; 0xA9D0; 0xA9F0; 0xAA50;
    0xABF0; 0xFF10; 0x104A0; 0x10D30; 0x11066; 0x110F0; 0x11136;
    0x111D0; 0x112F0; 0x11450; 0x114D0; 0x11650; 0x116C0; 0x11730;
    0x118E0; 0x11950; 0x11C50; 0x11D50; 0x11DA0; 0x16A60; 0x16AC0;
    0x16B50; 0x1D7CE; 0x1D7D8; 0x1D7E2; 0x1D7EC; 0x1D7F6; 0x1E140;
    0x1E2F0; 0x1E950; 0x1FBF0 ].

(** The class [\d] of the [re] module on a [str] pattern. *)
Definition isdecimal (c : char) : bool :=
  existsb (fun b => (b <=? c) && (c <? b + 10)) decimal_blocks.

(** [s.lstrip()], [s.rstrip()], [s.strip()]. *)
Fixpoint lstrip (s : str) : str :=
  match s with
  | [] => []
  | c :: r => if isspace c then lstrip r else s
  end.

Definition rstrip (s : str) : str := rev (lstrip (rev s)).

Definition strip (s : str) : str := rstrip (lstrip s).

(** [s.split(sep)] for a separator of one character: never the empty
    list, [''.split(sep) == ['']]. *)
Fixpoint split (sep : char) (s : str) : list str :=
  match s with
  | [] => [[]]
  | c :: r =>
      if c =? sep then [] :: split sep r
      else match split sep r with
           | piece :: more => (c :: piece) :: more
           | [] => [[c]]
           end
  end.

(** [sep.join(parts)]. *)
Fixpoint join (sep : str) (parts : list str) : str :=
  match parts with
  | [] => []
  | p :: more =>
      match more with
      | [] => p
      | _ :: _ => p ++ sep ++ join sep more
      end
  end.

(** [s.startswith(p)]. *)
Fixpoint startswith (p s : str) : bool :=
  match p, s with
  | [], _ => true
  | x :: p', y :: s' => (x =? y) && startswith p' s'
  | _ :: _, [] => false
  end.

(** [s.encode("utf-8")]: the bytes of every character, one to four of
    them; a surrogate cannot be encoded ([None] stands for
    [UnicodeEncodeError]). *)
Definition utf8_char (c : char) : option (list N) :=
  if c <? 0x80 then Some [c]
  else if c <? 0x800 then Some [0xC0 + c / 64; 0x80 + c mod 64]
  else if (0xD800 <=? c) && (c <=? 0xDFFF) then None
  else if c <? 0x10000 then
    Some [0xE0 + c / 4096; 0x80 + (c / 64) mod 64; 0x80 + c mod 64]
  else
    Some [0xF0 + c / 262144; 0x80 + (c / 4096) mod 64;
          0x80 + (c / 64) mod 64; 0x80 + c mod 64].

Fixpoint encode_utf8 (s : str) : option (list N) :=
  match s with
  | [] => Some []
  | c :: r =>
      match utf8_char c, encode_utf8 r with
      | Some b, Some more => Some (b ++ more)
      | _, _ => None
      end
  end.

(** Decimal rendering of a natural number, as [str(n)] or an f-string
    field prints it. *)
Fixpoint uint_codes (d : Decimal.uint) : str :=
  match d with
  | Decimal.Nil => []
  | Decimal.D0 d => 48 :: uint_codes d
  | Decimal.D1 d => 49 :: uint_codes d
  | Decimal.D2 d => 50 :: uint_codes d
  | Decimal.D3 d => 51 :: uint_codes d
  | Decimal.D4 d => 52 :: uint_codes d
  | Decimal.D5 d => 53 :: uint_codes d
  | Decimal.D6 d => 54 :: uint_codes d
  | Decimal.D7 d => 55 :: uint_codes d
  | Decimal.D8 d => 56 :: uint_codes d
  | Decimal.D9 d => 57 :: uint_codes d
  end.

Definition str_of_nat (n : nat) : str := uint_codes (Nat.to_uint n).

End PyStr.
Import PyStr.

(* ------------------------------------------------------------------ *)
(** ** Python floats *)

Module PyFloat.
Local Open Scope Z_scope.

(** A [float] is an IEEE 754 binary64 number: 53 bits of mantissa,
    infinities at exponent 1024. *)
Definition prec : Z := 53.
Definition emax : Z := 1024.

(** [float] of a decimal literal: the float nearest to [d * 10^e], ties
    to even, with the sign [neg]. *)
Definition float_of_decimal (neg : bool) (d e : Z) : spec_float :=
  match d with
  | Zpos _ =>
      match e with
      | Zneg k =>
          let '(q, e', l) := SFdiv_core_binary prec emax d 0 (Z.pow_pos 10 k) 0 in
          binary_round_aux prec emax neg q e' l
      | _ => binary_normalize prec emax (cond_Zopp neg (d * 10 ^ e)) 0 neg
      end
  | _ => S754_zero neg
  end.

(** [num / den] divided by [10^p], as a fraction. *)
Definition scaled (num den p : Z) : Z * Z :=
  match p with
  | Zneg k => (num * Z.pow_pos 10 k, den)
  | Z0 => (num, den)
  | Zpos k => (num, den * Z.pow_pos 10 k)
  end.

(** The first [j] from [j] on with [num / den < 10^j]. *)
Fixpoint decimal_point (fuel : nat) (num den j : Z) : Z :=
  match fuel with
  | O => j
  | S f =>
      let (a, b) := scaled num den j in
      if a <? b then j else decimal_point f num den (j + 1)
  end.

Definition reads_back (m : positive) (e c p : Z) : bool :=
  match float_of_decimal false c p with
  | S754_finite false m' e' => (Pos.eqb m m' && (e =? e'))%bool
  | _ => false
  end.

(** The shortest decimal [c * 10^p] that reads back as [m * 2^e], tried
    with [k], [k + 1], ... digits, [n] being the position of the decimal
    point of [num / den = m * 2^e]; of two such decimals of one length
    the nearer one, and the even one when they are as near. *)
Fixpoint shortest (fuel : nat) (k : Z) (m : positive) (e num den n : Z) : Z * Z :=
  match fuel with
  | O => (0, 0)
  | S f =>
      let p := n - k in
      let (a, b) := scaled num den p in
      let lo := a / b in
      let hi := lo + 1 in
      let ok_lo := ((0 <? lo) && reads_back m e lo p)%bool in
      let ok_hi := reads_back m e hi p in
      let nearer_hi :=
        match 2 * (a mod b) ?= b with
        | Lt => false
        | Eq => Z.odd lo
        | Gt => true
        end in
      if (ok_lo && ok_hi)%bool then (if nearer_hi then hi else lo, p)
      else if ok_lo then (lo, p)
      else if ok_hi then (hi, p)
      else shortest f (k + 1) m e num den n
  end.

Definition digits_of (c : Z) : str :=
  match c with
  | Zpos q => uint_codes (Pos.to_uint q)
  | _ => [48%N]
  end.

Fixpoint drop_zeros (s : str) : str :=
  match s with
  | c :: r => if (c =? 48)%N then drop_zeros r else s
  | [] => []
  end.

(** The text of the positive float [m * 2^e], as [repr] prints it: the
    shortest digits that read back as the float, in positional notation
    when the decimal point falls within the digits or at most four
    places before or sixteen after their start, with an exponent of at
    least two digits otherwise. *)
Definition repr_finite (m : positive) (e : Z) : str :=
  let (num, den) :=
    match e with
    | Zneg k => (Zpos m, Z.pow_pos 2 k)
    | _ => (Zpos m * 2 ^ e, 1)
    end in
  let l := Zdigits2 (Zpos m) + e in
  let n := decimal_point 8 num den ((l - 1) * 30103 / 100000 - 1) in
  let (c, p) := shortest 17 1 m e num den n in
  let ds := rev (drop_zeros (rev (digits_of c))) in
  let decpt := Z.of_nat (List.length (digits_of c)) + p in
  if ((-4 <? decpt) && (decpt <=? 16))%bool then
    if decpt <=? 0 then
      lit "0." ++ repeat 48%N (Z.to_nat (- decpt)) ++ ds
    else if Z.of_nat (List.length ds) <=? decpt then
      ds ++ repeat 48%N (Z.to_nat (decpt - Z.of_nat (List.length ds))) ++ lit ".0"
    else firstn (Z.to_nat decpt) ds ++ [46%N] ++ skipn (Z.to_nat decpt) ds
  else
    let ex := decpt - 1 in
    firstn 1 ds
    ++ match skipn 1 ds with
       | [] => []
       | more => 46%N :: more
       end
    ++ [101%N] ++ (if ex <? 0 then [45%N] else [43%N])
    ++ (if Z.abs ex <? 10 then [48%N] else []) ++ digits_of (Z.abs ex).

(** [repr(f)]. *)
Definition repr (f : spec_float) : str :=
  match f with
  | S754_zero s => (if s then [45%N] else []) ++ lit "0.0"
  | S754_infinity s => (if s then [45%N] else []) ++ lit "inf"
  | S754_nan => lit "nan"
  | S754_finite s m e =>
      (if s then [45%N] else [])
      ++ match binary_normalize prec emax (Zpos m) e false with
         | S754_finite _ m' e' => repr_finite m' e'
         | S754_infinity _ => lit "inf"
         | _ => lit "0.0"
         end
  end.

End PyFloat.

(* ------------------------------------------------------------------ *)
(** ** The outline parser (first lines of [generate_lesson_plans]) *)

Module Outline.

(** After the first digit of [^\d+\.]: more digits, then the period.
    The period is tried at every position, as the backtracking matcher
    would. *)
Fixpoint digits_then_dot (s : str) : bool :=
  match s with
  | [] => false
  | c :: r => (c =? 46) || (isdecimal c && digits_then_dot r)
  end.

(** [bool(re.match(r"^\d+\.", line))]. *)
Definition numbered (line : str) : bool :=
  match line with
  | [] => false
  | c :: r => isdecimal c && digits_then_dot r
  end.

(** [[line.strip() for line in outline.split("\n") if line.strip()]] *)
Definition outline_lines (outline : str) : list str :=
  map strip (filter (fun line => truthy (strip line)) (split NL outline)).

(** The module list of [generate_lesson_plans]. *)
Definition parse_outline (outline : str) : list str :=
  let lines := outline_lines outline in
  let modules := filter numbered lines in
  match modules with
  | [] => lines
  | _ :: _ => modules
  end.

(** *** The contract in the words of the specification *)

(** Split on newlines, trim each line, keep the non-empty ones. *)
Definition trimmed_nonempty_lines (raw : str) : list str :=
  filter truthy (map strip (split NL raw)).

(** One or more leading digits followed by a period. *)
Definition leading_digits_period (line : str) : Prop :=
  exists ds rest,
    ds <> [] /\ Forall (fun c => isdecimal c = true) ds /\
    line = ds ++ 46 :: rest.

(** Keep the matching lines; when none matches, every line. *)
Definition contract_modules (raw : str) : list str :=
  let ls := trimmed_nonempty_lines raw in
  if existsb numbered ls then filter numbered ls else ls.

(** Order-preserving subsequence. *)
Inductive Subseq {A : Type} : list A -> list A -> Prop :=
| Subseq_nil : Subseq [] []
| Subseq_skip : forall x l1 l2, Subseq l1 l2 -> Subseq l1 (x :: l2)
| Subseq_keep : forall x l1 l2, Subseq l1 l2 -> Subseq (x :: l1) (x :: l2).

End Outline.

(* ------------------------------------------------------------------ *)
(** ** Python values and insertion-ordered dictionaries *)

Module PyVal.

(** A [dict] with string keys: the items in insertion order, every key
    once. *)
Definition dict (V : Type) := list (str * V).

(** [d[k] = v]: a key already present keeps its position and takes the
    new value, a new key goes to the end. *)
Fixpoint dict_set {V : Type} (k : str) (v : V) (d : dict V) : dict V :=
  match d with
  | [] => [(k, v)]
  | (k', v') :: r =>
      if str_eqb k' k then (k', v) :: r else (k', v') :: dict_set k v r
  end.

Fixpoint dict_get {V : Type} (k : str) (d : dict V) : option V :=
  match d with
  | [] => None
  | (k', v') :: r => if str_eqb k' k then Some v' else dict_get k r
  end.

Definition keys {V : Type} (d : dict V) : list str := map fst d.

(** The values [json.loads] builds and [json.dumps] prints.  An [int]
    is one that the interpreter converts from and to text, of at most
    4300 decimal digits; a [float] is a binary64 number. *)
Inductive pyval : Type :=
| PNone
| PBool (b : bool)
| PInt (z : Z)
| PFloat (f : spec_float)
| PStr (s : str)
| PList (items : list pyval)
| PDict (members : list (str * pyval)).

End PyVal.
Import PyVal.

(* ------------------------------------------------------------------ *)
(** ** The [json] module: [dumps(obj, indent=2)] and [loads] *)

Module Json.

(** *** Encoder ([ensure_ascii] is on by default) *)

Definition hex_digit (n : N) : char :=
  if n <? 10 then 48 + n else 87 + n.

(** [\uXXXX] for [c < 0x10000]. *)
Definition u_escape (c : N) : str :=
  [ 92; 117;
    hex_digit (N.land (N.shiftr c 12) 15);
    hex_digit (N.land (N.shiftr c 8) 15);
    hex_digit (N.land (N.shiftr c 4) 15);
    hex_digit (N.land c 15) ].

Definition escape_char (c : char) : str :=
  if c =? 34 then [92; 34]
  else if c =? 92 then [92; 92]
  else if c =? 10 then [92; 110]
  else if c =? 13 then [92; 114]
  else if c =? 9 then [92; 116]
  else if c =? 12 then [92; 102]
  else if c =? 8 then [92; 98]
  else if (32 <=? c) && (c <=? 126) then [c]
  else if c <? 0x10000 then u_escape c
  else
    let v := c - 0x10000 in
    u_escape (N.lor 0xD800 (N.land (N.shiftr v 10) 0x3FF))
    ++ u_escape (N.lor 0xDC00 (N.land v 0x3FF)).

Definition escape (s : str) : str := flat_map escape_char s.

(** [encode_basestring_ascii]. *)
Definition encode_str (s : str) : str := 34 :: escape s ++ [34].

Definition newline_indent (level : nat) : str :=
  NL :: repeat 32 (2 * level).

Definition str_of_Z (z : Z) : str :=
  match z with
  | Z0 => [48]
  | Zpos p => uint_codes (Pos.to_uint p)
  | Zneg p => 45 :: uint_codes (Pos.to_uint p)
  end.

(** The text of a float: [repr], and the three names of the values that
    are no numbers. *)
Definition floatstr (f : spec_float) : str :=
  match f with
  | S754_nan => lit "NaN"
  | S754_infinity false => lit "Infinity"
  | S754_infinity true => lit "-Infinity"
  | _ => PyFloat.repr f
  end.

(** The encoder at nesting depth [level], with [indent=2]: items are
    separated by a comma and a new indented line, keys from values by
    a colon and a space. *)
Fixpoint dumps_at (level : nat) (v : pyval) : str :=
  match v with
  | PNone => lit "null"
  | PBool true => lit "true"
  | PBool false => lit "false"
  | PInt z => str_of_Z z
  | PFloat f => floatstr f
  | PStr s => encode_str s
  | PList [] => lit "[]"
  | PList items =>
      91 :: newline_indent (S level)
      ++ join (44 :: newline_indent (S level))
              (map (dumps_at (S level)) items)
      ++ newline_indent level ++ [93]
  | PDict [] => lit "{}"
  | PDict members =>
      123 :: newline_indent (S level)
      ++ join (44 :: newline_indent (S level))
              (map (fun kv => encode_str (fst kv) ++ [58; 32]
                              ++ dumps_at (S level) (snd kv)) members)
      ++ newline_indent level ++ [125]
  end.

(** [json.dumps(v, indent=2)]. *)
Definition dumps (v : pyval) : str := dumps_at 0 v.

(** *** Decoder *)

Definition is_json_ws (c : char) : bool :=
  (c =? 32) || (c =? 9) || (c =? 10) || (c =? 13).

Fixpoint skip_ws (s : str) : str :=
  match s with
  | [] => []
  | c :: r => if is_json_ws c then skip_ws r else s
  end.

Definition hexval (c : char) : option N :=
  if (48 <=? c) && (c <=? 57) then Some (c - 48)
  else if (97 <=? c) && (c <=? 102) then Some (c - 87)
  else if (65 <=? c) && (c <=? 70) then Some (c - 55)
  else None.

(** The four hexadecimal digits of a [\uXXXX] escape and what follows
    them. *)
Definition decode_uXXXX (s : str) : option (N * str) :=
  match s with
  | a :: b :: c :: d :: rest =>
      match hexval a, hexval b, hexval c, hexval d with
      | Some x, Some y, Some z, Some w =>
          Some (N.lor (N.shiftl (N.lor (N.shiftl (N.lor (N.shiftl x 4) y) 4) z) 4) w,
                rest)
      | _, _, _, _ => None
      end
  | _ => None
  end.

(** The character of a one-letter escape. *)
Definition backslash (c : char) : option char :=
  if c =? 34 then Some 34
  else if c =? 92 then Some 92
  else if c =? 47 then Some 47
  else if c =? 98 then Some 8
  else if c =? 102 then Some 12
  else if c =? 110 then Some 10
  else if c =? 114 then Some 13
  else if c =? 116 then Some 9
  else None.

Definition is_high_surrogate (u : N) : bool := (0xD800 <=? u) && (u <=? 0xDBFF).
Definition is_low_surrogate (u : N) : bool := (0xDC00 <=? u) && (u <=? 0xDFFF).

Definition join_surrogates (hi lo : N) : N :=
  0x10000 + N.lor (N.shiftl (hi - 0xD800) 10) (lo - 0xDC00).

(** [scanstring] in strict mode, from just after the opening quote:
    the decoded string and the text after the closing quote.  [fuel]
    bounds the number of characters and escapes read. *)
Fixpoint scanstring (fuel : nat) (s : str) : option (str * str) :=
  match fuel with
  | O => None
  | S f =>
      match s with
      | [] => None
      | c :: r =>
          if c =? 34 then Some ([], r)
          else if c =? 92 then
            match r with
            | [] => None
            | e :: r1 =>
                if e =? 117 then
                  match decode_uXXXX r1 with
                  | None => None
                  | Some (uni, r2) =>
                      let plain :=
                        match scanstring f r2 with
                        | Some (t, rest) => Some (uni :: t, rest)
                        | None => None
                        end in
                      if is_high_surrogate uni && startswith [92; 117] r2 then
                        match decode_uXXXX (skipn 2 r2) with
                        | None => None
                        | Some (uni2, r3) =>
                            if is_low_surrogate uni2 then
                              match scanstring f r3 with
                              | Some (t, rest) =>
                                  Some (join_surrogates uni uni2 :: t, rest)
                              | None => None
                              end
                            else plain
                        end
                      else plain
                  end
                else
                  match backslash e with
                  | None => None
                  | Some ch =>
                      match scanstring f r1 with
                      | Some (t, rest) => Some (ch :: t, rest)
                      | None => None
                      end
                  end
            end
          else if c <? 32 then None
          else
            match scanstring f r with
            | Some (t, rest) => Some (c :: t, rest)
            | None => None
            end
      end
  end.

Definition is_digit (c : char) : bool := (48 <=? c) && (c <=? 57).

Fixpoint span_digits (s : str) : str * str :=
  match s with
  | [] => ([], [])
  | c :: r =>
      if is_digit c then let (ds, rest) := span_digits r in (c :: ds, rest)
      else ([], s)
  end.

Definition Z_of_digits (ds : str) : Z :=
  fold_left (fun acc c => (10 * acc + Z.of_N (c - 48))%Z) ds 0%Z.

(** The number at the head of [s]: an optional minus sign, then a zero
    or a nonzero digit and more digits, then optionally a period with
    one or more digits, then optionally an exponent.  Without fraction
    and exponent it is an [int], which the interpreter refuses to
    convert when it has more than 4300 digits ([None]); otherwise it is
    the [float] of the literal. *)
Definition match_number (s : str) : option (pyval * str) :=
  let (neg, s1) := match s with
                   | 45 :: r => (true, r)
                   | _ => (false, s)
                   end in
  match s1 with
  | [] => None
  | c :: r =>
      if is_digit c then
        let (ints, s2) :=
          if c =? 48 then ([c], r)
          else let (ds, rest) := span_digits r in (c :: ds, rest) in
        let (frac, s3) :=
          match s2 with
          | 46 :: r2 =>
              match span_digits r2 with
              | ([], _) => (None, s2)
              | (ds, rest) => (Some ds, rest)
              end
          | _ => (None, s2)
          end in
        let (exp, s4) :=
          match s3 with
          | e :: r3 =>
              if (e =? 101) || (e =? 69) then
                let (minus, r4) :=
                  match r3 with
                  | x :: r' => if x =? 43 then (false, r')
                               else if x =? 45 then (true, r')
                               else (false, r3)
                  | [] => (false, r3)
                  end in
                match span_digits r4 with
                | ([], _) => (None, s3)
                | (ds, rest) =>
                    (Some (if minus then - Z_of_digits ds else Z_of_digits ds)%Z,
                     rest)
                end
              else (None, s3)
          | [] => (None, s3)
          end in
        match frac, exp with
        | None, None =>
            if 4300 <? N.of_nat (List.length ints) then None
            else Some (PInt (if neg then - Z_of_digits ints
                             else Z_of_digits ints)%Z, s4)
        | _, _ =>
            let digits := match frac with Some ds => ds | None => [] end in
            let e10 := match exp with Some z => z | None => 0%Z end in
            Some (PFloat (PyFloat.float_of_decimal neg
                            (Z_of_digits (ints ++ digits))
                            (e10 - Z.of_nat (List.length digits))%Z),
                  s4)
        end
      else None
  end.

(** A fixed word at the head of [s]. *)
Definition keyword (w : String.string) (v : pyval) (s : str) : option (pyval * str) :=
  if startswith (lit w) s then Some (v, skipn (List.length (lit w)) s) else None.

(** [scan_once], the members of an object after its brace and the
    elements of an array after its bracket.  [fuel] bounds the nesting
    and the number of members and elements read. *)
Fixpoint scan_once (fuel : nat) (s : str) : option (pyval * str) :=
  match fuel with
  | O => None
  | S f =>
      match s with
      | [] => None
      | c :: r =>
          if c =? 34 then
            match scanstring (List.length s) r with
            | Some (t, rest) => Some (PStr t, rest)
            | None => None
            end
          else if c =? 123 then
            match skip_ws r with
            | c1 :: r1 => if c1 =? 125 then Some (PDict [], r1)
                          else parse_members f [] (c1 :: r1)
            | [] => None
            end
          else if c =? 91 then
            match skip_ws r with
            | c1 :: r1 => if c1 =? 93 then Some (PList [], r1)
                          else parse_elements f [] (c1 :: r1)
            | [] => None
            end
          else if startswith (lit "null") s then keyword "null" PNone s
          else if startswith (lit "true") s then keyword "true" (PBool true) s
          else if startswith (lit "false") s then keyword "false" (PBool false) s
          else if startswith (lit "NaN") s then keyword "NaN" (PFloat S754_nan) s
          else if startswith (lit "Infinity") s
               then keyword "Infinity" (PFloat (S754_infinity false)) s
          else if startswith (lit "-Infinity") s
               then keyword "-Infinity" (PFloat (S754_infinity true)) s
          else match_number s
      end
  end

with parse_members (fuel : nat) (acc : dict pyval) (s : str)
     : option (pyval * str) :=
  match fuel with
  | O => None
  | S f =>
      match s with
      | q :: r =>
          if q =? 34 then
            match scanstring (List.length s) r with
            | None => None
            | Some (key, r1) =>
                match skip_ws r1 with
                | colon :: r2 =>
                    if colon =? 58 then
                      match scan_once f (skip_ws r2) with
                      | None => None
                      | Some (v, r3) =>
                          let acc' := dict_set key v acc in
                          match skip_ws r3 with
                          | c3 :: r4 =>
                              if c3 =? 125 then Some (PDict acc', r4)
                              else if c3 =? 44 then parse_members f acc' (skip_ws r4)
                              else None
                          | [] => None
                          end
                      end
                    else None
                | [] => None
                end
            end
          else None
      | [] => None
      end
  end

with parse_elements (fuel : nat) (acc : list pyval) (s : str)
     : option (pyval * str) :=
  match fuel with
  | O => None
  | S f =>
      match scan_once f s with
      | None => None
      | Some (v, r) =>
          let acc' := acc ++ [v] in
          match skip_ws r with
          | c :: r1 =>
              if c =? 93 then Some (PList acc', r1)
              else if c =? 44 then parse_elements f acc' (skip_ws r1)
              else None
          | [] => None
          end
      end
  end.

(** [json.loads(s)]: [None] when it raises ([JSONDecodeError], or the
    [ValueError] of an [int] with too many digits). *)
Definition loads (s : str) : option pyval :=
  if startswith [0xFEFF] s then None
  else
    match scan_once (S (List.length s)) (skip_ws s) with
    | Some (v, rest) =>
        match skip_ws rest with
        | [] => Some v
        | _ :: _ => None
        end
    | None => None
    end.

End Json.

(* ------------------------------------------------------------------ *)
(** ** The export renderers ([generate_pdf_content] and the end of [main]) *)

Module Exports.

(** [enumerate(l, start)]. *)
Fixpoint enumerate {A : Type} (start : nat) (l : list A) : list (nat * A) :=
  match l with
  | [] => []
  | x :: r => (start, x) :: enumerate (S start) r
  end.

(** [s.replace(a, b)] for single characters. *)
Definition replace (a b : char) (s : str) : str :=
  map (fun c => if c =? a then b else c) s.

(** The [course_data] dictionary. *)
Definition course_data (subject_input : str) (lesson_plans : dict str) : pyval :=
  PDict
    [ (lit "subject", PStr subject_input);
      (lit "modules",
       PList (map (fun mp => PDict [ (lit "title", PStr (fst mp));
                                     (lit "lesson_plan", PStr (snd mp)) ])
                  lesson_plans)) ].

Definition json_export (subject_input : str) (lesson_plans : dict str) : str :=
  Json.dumps (course_data subject_input lesson_plans).

(** The heading line the Markdown loop writes for the item at index [i]. *)
Definition md_heading (i : nat) (module : str) : str :=
  lit "## Module " ++ str_of_nat (i + 1) ++ lit ": " ++ module.

(** [markdown_content], built by appending one block per item. *)
Definition markdown_export (subject_input : str) (lesson_plans : dict str) : str :=
  fold_left
    (fun markdown_content imp =>
       markdown_content
       ++ md_heading (fst imp) (fst (snd imp)) ++ [NL; NL]
       ++ snd (snd imp) ++ [NL; NL])
    (enumerate 0 lesson_plans)
    (lit "# " ++ subject_input ++ lit " Course Curriculum" ++ [NL; NL]).

(** The calls [generate_pdf_content] makes on the page-layout object
    before it asks for the bytes of the document. *)
Inductive pdf_op : Type :=
| AddPage
| SetFont (bold : bool) (size : nat)
| Cell (height : nat) (txt : str) (centered : bool)
| MultiCell (height : nat) (txt : str)
| Ln (height : nat).

Definition pdf_calls (subject : str) (lesson_plans : dict str)
  : list pdf_op :=
  [ AddPage; SetFont true 16;
    Cell 10 (subject ++ lit " Course Curriculum") true;
    Ln 10; SetFont false 12 ]
  ++ flat_map
       (fun imp =>
          [ SetFont true 14;
            Cell 10 (lit "Module " ++ str_of_nat (fst imp) ++ lit ": "
                     ++ fst (snd imp)) false;
            SetFont false 12;
            MultiCell 10 (snd (snd imp));
            Ln 5 ])
       (enumerate 1 lesson_plans).

Definition file_name (subject_input : str) (suffix : String.string) : str :=
  replace 32 95 subject_input ++ lit suffix.

End Exports.

(* ------------------------------------------------------------------ *)
(** ** The flow and [main] *)

Module Flow.

(** A raised exception (an instance of [Exception]). *)
Inductive exn : Type :=
| External (msg : str)        (* raised by a library or by the network *)
| HTTPError (status : N)
| KeyError (key : str)
| TypeError
| AttributeError
| UnicodeEncodeError.

Inductive outcome (A : Type) : Type :=
| Raised (e : exn)
| Returned (a : A).
Arguments Raised {A} e.
Arguments Returned {A} a.

Inductive endpoint : Type := NewsApi | SemanticScholar.

(** What [requests.get] returned: the status code and what
    [response.json()] gives. *)
Record response : Type := {
  status_code : N;
  json_body : outcome pyval
}.

(** What [pdf.output(dest="S")] returns: the document as a string, or,
    with a layout library that returns it so, as bytes. *)
Inductive pdf_document : Type :=
| PdfStr (s : str)
| PdfBytes (b : list N).

(** Everything outside the script.  [completion n prompt] is the text at
    [choices[0].message.content] of the [n]-th chat completion of the run
    (counted from 0), or what the call or the access raised;
    [multiselect options] is the value of the selection widget created
    with the options and the default [options]; [pdf_output calls] is what
    [pdf.output(dest="S")] gives after the layout calls [calls]: the
    document, or the exception the layout library raised on the way (it
    raises on text it cannot encode). *)
Record World : Type := {
  requests_get : endpoint -> str -> outcome response;
  completion : nat -> str -> outcome str;
  multiselect : list str -> list str;
  pdf_output : list Exports.pdf_op -> outcome pdf_document
}.

Inductive payload : Type :=
| Text (s : str)
| Bytes (b : list N).

(** What a run shows and does, in order. *)
Inductive event : Type :=
| StTitle (s : str)
| StStatus (label : str)
| StatusUpdate (label : str) (complete : bool)
| StSuccess (msg : str)
| StError (prefix : str) (e : exn)
| StExpander (label : str)
| StWrite (s : str)
| StWriteItem (i : nat) (item : pyval)
| StSubheader (s : str)
| StMarkdown (s : str)
| StProgress (num den : nat)
| StText (s : str)
| StDownload (label : str) (data : payload) (file_name mime : str)
| HttpGet (to : endpoint) (subject : str)
| LlmCall (n : nat) (prompt : str).

Record state : Type := {
  log : list event;
  llm_calls : nat
}.

Definition initial : state := {| log := []; llm_calls := 0 |}.

(** Computations that read the world's answers, append to the log and
    may raise. *)
Definition M (A : Type) : Type := state -> state * outcome A.

Definition ret {A : Type} (a : A) : M A := fun s => (s, Returned a).

Definition raise {A : Type} (e : exn) : M A := fun s => (s, Raised e).

Definition bind {A B : Type} (m : M A) (k : A -> M B) : M B :=
  fun s =>
    match m s with
    | (s', Returned a) => k a s'
    | (s', Raised e) => (s', Raised e)
    end.

(** [try: m  except Exception as e: handler(e)]. *)
Definition try_except {A : Type} (m : M A) (handler : exn -> M A) : M A :=
  fun s =>
    match m s with
    | (s', Returned a) => (s', Returned a)
    | (s', Raised e) => handler e s'
    end.

Definition emit (e : event) : M unit :=
  fun s => ({| log := log s ++ [e]; llm_calls := llm_calls s |}, Returned tt).

Definition lift {A : Type} (o : outcome A) : M A := fun s => (s, o).

Declare Scope flow_scope.
Delimit Scope flow_scope with flow.
Notation "x <- m ;; k" := (bind m (fun x => k))
  (at level 61, m at next level, right associativity) : flow_scope.
Notation "m ;; k" := (bind m (fun _ => k))
  (at level 61, right associativity) : flow_scope.
Local Open Scope flow_scope.

(** [requests.get(url, params=...)] for the given subject. *)
Definition http_get (w : World) (to : endpoint) (subject : str) : M response :=
  emit (HttpGet to subject) ;; lift (requests_get w to subject).

(** One chat completion: [completion(...)["choices"][0]["message"]["content"]]. *)
Definition llm (w : World) (prompt : str) : M str :=
  fun s =>
    let n := llm_calls s in
    ({| log := log s ++ [LlmCall n prompt]; llm_calls := S n |},
     completion w n prompt).

(** [response.raise_for_status()]. *)
Definition raise_for_status (r : response) : M unit :=
  if (400 <=? status_code r) && (status_code r <? 600)
  then raise (HTTPError (status_code r))
  else ret tt.

(** [data.get(key, [])]: only a dictionary has the method. *)
Definition py_get_or_empty (data : pyval) (key : str) : outcome pyval :=
  match data with
  | PDict members =>
      match dict_get key members with
      | Some v => Returned v
      | None => Returned (PList [])
      end
  | _ => Raised AttributeError
  end.

(** The items a [for] loop over [v] visits. *)
Definition py_iter (v : pyval) : outcome (list pyval) :=
  match v with
  | PList items => Returned items
  | PDict members => Returned (map (fun kv => PStr (fst kv)) members)
  | PStr s => Returned (map (fun c => PStr [c]) s)
  | _ => Raised TypeError
  end.

(** [item[key]] for a string key. *)
Definition py_getitem (item : pyval) (key : str) : outcome pyval :=
  match item with
  | PDict members =>
      match dict_get key members with
      | Some v => Returned v
      | None => Raised (KeyError key)
      end
  | _ => Raised TypeError
  end.

(** [[item[key] for item in items]]: stops at the first failure. *)
Fixpoint titles_of (key : str) (items : list pyval) : outcome (list pyval) :=
  match items with
  | [] => Returned []
  | item :: more =>
      match py_getitem item key with
      | Raised e => Raised e
      | Returned t =>
          match titles_of key more with
          | Raised e => Raised e
          | Returned ts => Returned (t :: ts)
          end
      end
  end.

(** [[item["title"] for item in data.get(key, [])]]. *)
Definition extract_titles (data : pyval) (key : str) : outcome (list pyval) :=
  match py_get_or_empty data key with
  | Raised e => Raised e
  | Returned v =>
      match py_iter v with
      | Raised e => Raised e
      | Returned items => titles_of (lit "title") items
      end
  end.

Definition get_subject (subject_input : str) : M str := ret subject_input.

(** The [try] block of [fetch_semantic_scholar_data]. *)
Definition scholar_request (w : World) (subject : str) : M (list pyval) :=
  resp <- http_get w SemanticScholar subject ;;
  raise_for_status resp ;;
  data <- lift (json_body resp) ;;
  papers <- lift (extract_titles data (lit "data")) ;;
  emit (StSuccess (lit "Semantic Scholar data fetched successfully")) ;;
  ret papers.

Definition fetch_semantic_scholar_data (w : World) (subject : str)
  : M (list pyval) :=
  try_except
    (scholar_request w subject)
    (fun e =>
       emit (StError (lit "Error fetching Semantic Scholar data: ") e) ;;
       ret []).

(** The [try] block of [fetch_external_data]. *)
Definition news_request (w : World) (subject : str) : M (list pyval) :=
  resp <- http_get w NewsApi subject ;;
  news_data <- lift (json_body resp) ;;
  titles <- lift (extract_titles news_data (lit "articles")) ;;
  emit (StatusUpdate (lit "News data fetched successfully") true) ;;
  emit (StSuccess (lit "News data fetched successfully")) ;;
  ret titles.

Definition fetch_external_data (w : World) (subject : str)
  : M (list pyval * list pyval) :=
  emit (StStatus (lit "Fetching news data...")) ;;
  news_articles <-
    try_except
      (news_request w subject)
      (fun e =>
         emit (StError (lit "Error fetching news data: ") e) ;;
         ret []) ;;
  emit (StatusUpdate (lit "Fetching Semantic Scholar data...") false) ;;
  scholar_papers <- fetch_semantic_scholar_data w subject ;;
  ret (news_articles, scholar_papers).

(** [', '.join(items)]: every item must be a string. *)
Fixpoint py_strings (items : list pyval) : outcome (list str) :=
  match items with
  | [] => Returned []
  | PStr s :: more =>
      match py_strings more with
      | Raised e => Raised e
      | Returned ss => Returned (s :: ss)
      end
  | _ :: _ => Raised TypeError
  end.

Definition py_join (sep : str) (items : list pyval) : outcome str :=
  match py_strings items with
  | Raised e => Raised e
  | Returned ss => Returned (join sep ss)
  end.

(** The numbered list shown in an expander. *)
Fixpoint write_items (numbered_items : list (nat * pyval)) : M unit :=
  match numbered_items with
  | [] => ret tt
  | (i, item) :: more => emit (StWriteItem i item) ;; write_items more
  end.

Definition show_titles (label : str) (titles : list pyval) : M unit :=
  match titles with
  | [] => ret tt
  | _ :: _ =>
      emit (StExpander label) ;; write_items (Exports.enumerate 1 titles)
  end.

Definition combine_external_context (external_data : list pyval * list pyval)
  : M str :=
  let (news_articles, scholar_papers) := external_data in
  show_titles (lit "News Headlines") news_articles ;;
  show_titles (lit "Research Papers") scholar_papers ;;
  news <- lift (py_join (lit ", ") news_articles) ;;
  papers <- lift (py_join (lit ", ") scholar_papers) ;;
  ret (lit "News Headlines: " ++ news ++ lit ". "
       ++ lit "Research Papers: " ++ papers ++ lit ".").

Definition outline_prompt (external_context subject_input : str)
           (module_count : nat) : str :=
  lit "Using the following context from recent news and scholar papers trends:"
  ++ [NL] ++ external_context ++ [NL; NL]
  ++ lit "Generate a comprehensive course outline on the subject '"
  ++ subject_input ++ lit "' with " ++ str_of_nat module_count
  ++ lit " modules. "
  ++ lit "Each module should have a title and a brief description, formatted as a numbered list (e.g., '1. Module Title: Description').".

Definition generate_course_outline (w : World) (subject_input : str)
           (module_count : nat) (external_context : str) : M str :=
  emit (StStatus (lit "Generating course outline...")) ;;
  content <- llm w (outline_prompt external_context subject_input module_count) ;;
  let outline := strip content in
  emit (StatusUpdate (lit "Course outline generated") true) ;;
  ret outline.

Definition lesson_prompt (module : str) : str :=
  lit "Based on the course module: '" ++ module
  ++ lit "', generate a detailed lesson plan. "
  ++ lit "Include key topics, activities, and suggested resources.".

(** The body of the [for] loop of [generate_lesson_plans], over
    [enumerate(selected_modules)], threading [lesson_plans]. *)
Fixpoint lesson_loop (w : World) (total : nat) (todo : list (nat * str))
         (lesson_plans : dict str) : M (dict str) :=
  match todo with
  | [] => ret lesson_plans
  | (i, module) :: more =>
      emit (StText (lit "Generating lesson plan for module "
                    ++ str_of_nat (i + 1) ++ [47] ++ str_of_nat total)) ;;
      content <- llm w (lesson_prompt module) ;;
      let lesson_plan := strip content in
      let lesson_plans := dict_set module lesson_plan lesson_plans in
      emit (StProgress (i + 1) total) ;;
      lesson_loop w total more lesson_plans
  end.

Definition generate_lesson_plans (w : World) (outline : str) : M (dict str) :=
  emit (StSubheader (lit "Course Outline")) ;;
  emit (StMarkdown outline) ;;
  let modules := Outline.parse_outline outline in
  let selected_modules := multiselect w modules in
  emit (StProgress 0 1) ;;
  lesson_plans <-
    lesson_loop w (List.length selected_modules)
                (Exports.enumerate 0 selected_modules) [] ;;
  emit (StText (lit "All lesson plans generated!")) ;;
  ret lesson_plans.

(** The listeners that follow [fetch_external_data], in order. *)
Definition after_fetch (w : World) (subject_input : str) (module_count : nat)
           (external_data : list pyval * list pyval) : M (dict str) :=
  external_context <- combine_external_context external_data ;;
  outline <- generate_course_outline w subject_input module_count external_context ;;
  generate_lesson_plans w outline.

(** [flow.kickoff()]: the start method, then each listener on the value
    of the method it listens to; the value of the last one is returned. *)
Definition kickoff (w : World) (subject_input : str) (module_count : nat)
  : M (dict str) :=
  subject <- get_subject subject_input ;;
  external_data <- fetch_external_data w subject ;;
  after_fetch w subject_input module_count external_data.

(** [output.encode("utf-8")]: only a string has the method. *)
Definition py_encode (output : pdf_document) : outcome (list N) :=
  match output with
  | PdfStr s =>
      match encode_utf8 s with
      | Some b => Returned b
      | None => Raised UnicodeEncodeError
      end
  | PdfBytes _ => Raised AttributeError
  end.

(** [generate_pdf_content]: the layout calls, then
    [pdf.output(dest="S").encode("utf-8")]. *)
Definition generate_pdf_content (w : World) (subject : str)
           (lesson_plans : dict str) : outcome (list N) :=
  match pdf_output w (Exports.pdf_calls subject lesson_plans) with
  | Raised e => Raised e
  | Returned output => py_encode output
  end.

Fixpoint show_plans (numbered_plans : list (nat * (str * str))) : M unit :=
  match numbered_plans with
  | [] => ret tt
  | (i, (module, plan)) :: more =>
      emit (StExpander (lit "Module " ++ str_of_nat (i + 1) ++ lit ": " ++ module)) ;;
      emit (StMarkdown plan) ;;
      show_plans more
  end.

(** [main], for the values the form returned. *)
Definition main (w : World) (subject_input : str) (module_count : nat)
           (submit_button : bool) : M unit :=
  emit (StTitle (lit "AI Course Development Platform")) ;;
  emit (StWrite (lit "Enter a subject to generate a complete course curriculum with lesson plans")) ;;
  if submit_button then
    emit (StSubheader (lit "Course Development Process")) ;;
    lesson_plans <- kickoff w subject_input module_count ;;
    emit (StSubheader (lit "Detailed Lesson Plans")) ;;
    show_plans (Exports.enumerate 0 lesson_plans) ;;
    emit (StSubheader (lit "Export Course Materials")) ;;
    emit (StDownload (lit "Download JSON")
                     (Text (Exports.json_export subject_input lesson_plans))
                     (Exports.file_name subject_input "_course.json")
                     (lit "application/json")) ;;
    emit (StDownload (lit "Download Markdown")
                     (Text (Exports.markdown_export subject_input lesson_plans))
                     (Exports.file_name subject_input "_course.md")
                     (lit "text/markdown")) ;;
    pdf_bytes <- lift (generate_pdf_content w subject_input lesson_plans) ;;
    emit (StDownload (lit "Download PDF")
                     (Bytes pdf_bytes)
                     (Exports.file_name subject_input "_course.pdf")
                     (lit "application/pdf"))
  else ret tt.

Definition is_download (e : event) : bool :=
  match e with StDownload _ _ _ _ => true | _ => false end.

(** The exports a run offered. *)
Definition exports (s : state) : list event := filter is_download (log s).

(** The prompts sent to the chat-completion endpoint, in order. *)
Fixpoint prompts_of (events : list event) : list str :=
  match events with
  | [] => []
  | LlmCall _ prompt :: more => prompt :: prompts_of more
  | _ :: more => prompts_of more
  end.

(** The context blob for two empty title lists. *)
Definition empty_context : str := lit "News Headlines: . Research Papers: .".

End Flow.

(* ------------------------------------------------------------------ *)
(** ** Vocabulary of the properties *)

(** *** Trimmed strings *)

Module StrSpec.
Import PyStr.

(** A string that does not begin with whitespace. *)
Definition clean_head (s : str) : Prop :=
  match s with
  | [] => True
  | c :: _ => isspace c = false
  end.

End StrSpec.
Import StrSpec.

(** *** Lines of an outline *)

Module OutlineSpec.

(** Every line the parser sees is non-empty, trimmed and free of
    newlines. *)
Record tidy (line : str) : Prop := {
  tidy_nonempty : truthy line = true;
  tidy_trimmed : strip line = line;
  tidy_single : ~ In NL line
}.

(** Code points of the scenario of the specification. *)
Definition prose_outline : str :=
  lit "Just prose." ++ [NL] ++ lit "No numbers here.".

End OutlineSpec.
Import OutlineSpec.

(** *** Runs of the flow *)

Module FlowSpec.
Import Flow Outline.
Local Open Scope flow_scope.
Local Open Scope nat_scope.

(** The state after showing an error. *)
Definition with_error (s : state) (prefix : String.string) (e : exn) : state :=
  {| log := log s ++ [StError (lit prefix) e]; llm_calls := llm_calls s |}.

(** A world in which both search requests fail. *)
Definition offline : World :=
  {| requests_get := fun _ _ => Raised (External (lit "connection refused"));
     completion := fun _ _ => Raised (External (lit "unreachable"));
     multiselect := fun options => options;
     pdf_output := fun _ => Returned (PdfStr (lit "%PDF-1.3")) |}.

(** A world whose every chat completion raises. *)
Definition llm_down : World :=
  {| requests_get := fun _ _ => Raised (External (lit "connection refused"));
     completion := fun _ _ => Raised (External (lit "quota exceeded"));
     multiselect := fun options => options;
     pdf_output := fun _ => Returned (PdfStr (lit "%PDF-1.3")) |}.

(** A world that answers every completion with the number of the call,
    selects the options as they are offered and whose searches fail. *)
Definition numbering : World :=
  {| requests_get := fun _ _ => Raised (External (lit "connection refused"));
     completion := fun n _ => Returned (str_of_nat n);
     multiselect := fun options => options;
     pdf_output := fun _ => Returned (PdfStr (lit "%PDF-1.3")) |}.

Definition two_modules : str := lit "1. Basics" ++ [NL] ++ lit "2. Advanced".

Definition twice_the_same : str := lit "1. Basics" ++ [NL] ++ lit "1. Basics".

(** What is shown on the page is neither a completion nor an export. *)
Definition shown (e : event) : Prop :=
  is_download e = false /\ forall n prompt, e <> LlmCall n prompt.

Section Run.
Variable w : World.

(** Every chat completion made so far returned. *)
Definition calls_returned (events : list event) : Prop :=
  forall n prompt, In (LlmCall n prompt) events ->
                   exists content, completion w n prompt = Returned content.

(** While the run goes on: all completions returned, nothing exported. *)
Definition going (s : state) : Prop :=
  calls_returned (log s) /\ exports s = [].

(** When the run stops on [e]: nothing was exported, and a completion
    that raised raised [e]. *)
Definition stopped (s : state) (e : exn) : Prop :=
  exports s = []
  /\ forall n prompt e', In (LlmCall n prompt) (log s) ->
                         completion w n prompt = Raised e' -> e' = e.

(** A computation that keeps the run going however it ends. *)
Definition quiet {A : Type} (m : M A) : Prop :=
  forall s, going s -> going (fst (m s)).

(** A computation that keeps the run going when it returns and leaves it
    stopped when it raises. *)
Definition careful {A : Type} (m : M A) : Prop :=
  forall s, going s ->
            match m s with
            | (s', Returned _) => going s'
            | (s', Raised e) => stopped s' e
            end.

End Run.

Definition str_eq_dec : forall a b : str, {a = b} + {a <> b} :=
  list_eq_dec N.eq_dec.

Definition mem (x : str) (l : list str) : bool :=
  existsb (fun y => str_eqb y x) l.

(** The elements of [l] not yet in [seen], each at its first occurrence. *)
Fixpoint fresh (seen l : list str) : list str :=
  match l with
  | [] => []
  | x :: r => if mem x seen then fresh seen r else x :: fresh (x :: seen) r
  end.


(** What the loop computes when the [n]-th completion of the run is the
    first one it makes: its value without the log. *)
Fixpoint plans_from (w : World) (n : nat) (selected : list str)
         (plans : dict str) : outcome (dict str) :=
  match selected with
  | [] => Returned plans
  | module :: more =>
      match completion w n (lesson_prompt module) with
      | Raised e => Raised e
      | Returned content =>
          plans_from w (S n) more (dict_set module (strip content) plans)
      end
  end.

(** One turn of the loop. *)
Definition after_call (total : nat) (s : state) (i : nat) (module : str) : state :=
  {| log := (log s ++ [StText (lit "Generating lesson plan for module "
                               ++ str_of_nat (i + 1) ++ [47%N] ++ str_of_nat total)])
            ++ [LlmCall (llm_calls s) (lesson_prompt module)];
     llm_calls := S (llm_calls s) |}.

End FlowSpec.
Import FlowSpec.

(** *** Shape of the Markdown export *)

Module MarkdownSpec.
Import Exports.

(** The lines of a text that begin with two hashes and a space. *)
Definition heading_lines (text : str) : list str :=
  filter (startswith (lit "## ")) (split NL text).

(** The first line of the export. *)
Definition md_title (subject_input : str) : str :=
  lit "# " ++ subject_input ++ lit " Course Curriculum".

(** What the loop appends for one item. *)
Definition md_block (imp : nat * (str * str)) : str :=
  md_heading (fst imp) (fst (snd imp)) ++ [NL; NL] ++ snd (snd imp) ++ [NL; NL].

(** An entry whose title is one line and whose plan has no line that
    begins like a second-level heading. *)
Definition plain_entry (mp : str * str) : Prop :=
  ~ In NL (fst mp)
  /\ Forall (fun line => startswith (lit "## ") line = false) (split NL (snd mp)).

Definition no_newline (s : str) : bool := forallb (fun c => negb (c =? NL)) s.

(** The heading of an entry followed by the lines of its plan that look
    like headings. *)
Definition block_headings (imp : nat * (str * str)) : list str :=
  md_heading (fst imp) (fst (snd imp)) :: heading_lines (snd (snd imp)).

(** A plan written with a heading of its own. *)
Definition plan_with_heading : dict str :=
  [ (lit "1. Basics", lit "## Key topics" ++ [NL] ++ lit "Vectors") ].

Definition plain_plans : dict str :=
  [ (lit "1. Basics", lit "Vectors and matrices");
    (lit "2. Advanced", lit "# Notes" ++ [NL] ++ lit "Kernels") ].

End MarkdownSpec.
Import MarkdownSpec.

(** *** Shape of the JSON export *)

Module JsonSpec.
Import Json Exports.

(** Code points of Python strings in which no high surrogate is
    immediately followed by a low surrogate. *)
Fixpoint pair_free (s : str) : bool :=
  match s with
  | [] => true
  | c :: r =>
      (c <? 0x110000)
      && negb (is_high_surrogate c
               && match r with
                  | d :: _ => is_low_surrogate d
                  | [] => false
                  end)
      && pair_free r
  end.

(** A Python string: every code point is below 0x110000. *)
Definition code_points (s : str) : Prop := Forall (fun c => c < 0x110000) s.

(** A string as it is read back from its escaped form: a high surrogate
    immediately followed by a low surrogate comes back, together with
    it, as the one code point the two encode; everything else comes back
    as it is. *)
Fixpoint rejoin (s : str) : str :=
  match s with
  | [] => []
  | c :: r =>
      match r with
      | d :: r' =>
          if is_high_surrogate c && is_low_surrogate d
          then join_surrogates c d :: rejoin r'
          else c :: rejoin r
      | [] => [c]
      end
  end.

Definition rejoined (mp : str * str) : str * str :=
  (rejoin (fst mp), rejoin (snd mp)).

Definition entry_of_code_points (mp : str * str) : Prop :=
  code_points (fst mp) /\ code_points (snd mp).

(** The two halves of the escape of a code point beyond the basic
    plane. *)
Definition high_half (c : N) : N :=
  N.lor 0xD800 (N.land (N.shiftr (c - 0x10000) 10) 0x3FF).

Definition low_half (c : N) : N :=
  N.lor 0xDC00 (N.land (c - 0x10000) 0x3FF).

(** The four ways the encoder writes a character. *)
Inductive escape_kind (c : char) : str -> Prop :=
| EPlain : c <> 34 -> c <> 92 -> 32 <= c -> c <= 126 -> escape_kind c [c]
| EShort : forall e, e <> 117 -> backslash e = Some c -> escape_kind c [92; e]
| EBmp : c < 0x10000 -> escape_kind c (u_escape c)
| EPair : 0x10000 <= c -> c < 0x110000 ->
          escape_kind c (u_escape (high_half c) ++ u_escape (low_half c)).

(** What follows an escape does not start with the escape of a low
    surrogate. *)
Definition no_low_next (r : str) : Prop :=
  startswith [92; 117] r = false
  \/ exists uni2 r3,
      decode_uXXXX (skipn 2 r) = Some (uni2, r3) /\ is_low_surrogate uni2 = false.

(** One entry of the [modules] list, as a value and as text followed by
    [rest]. *)
Definition item_value (mp : str * str) : pyval :=
  PDict [ (lit "title", PStr (fst mp)); (lit "lesson_plan", PStr (snd mp)) ].

Definition item_text (mp : str * str) (rest : str) : str :=
  123 :: newline_indent 3
  ++ 34 :: escape (lit "title") ++ 34 :: 58 :: 32
  :: 34 :: escape (fst mp) ++ 34 :: 44 :: newline_indent 3
  ++ 34 :: escape (lit "lesson_plan") ++ 34 :: 58 :: 32
  :: 34 :: escape (snd mp) ++ 34 :: newline_indent 2 ++ 125 :: rest.

Definition entry_safe (mp : str * str) : Prop :=
  pair_free (fst mp) = true /\ pair_free (snd mp) = true.

(** The entries of the list as text, up to the closing bracket. *)
Fixpoint items_text (items : list (str * str)) (rest : str) : str :=
  match items with
  | [] => rest
  | mp :: more =>
      match more with
      | [] => item_text mp (newline_indent 1 ++ 93 :: rest)
      | _ :: _ => item_text mp (44 :: newline_indent 2 ++ items_text more rest)
      end
  end.

(** The [modules] list as text followed by [rest]. *)
Definition array_text (plans : dict str) (rest : str) : str :=
  match plans with
  | [] => 91 :: 93 :: rest
  | _ :: _ => 91 :: newline_indent 2 ++ items_text plans rest
  end.

(** The whole export. *)
Definition doc_text (subject : str) (plans : dict str) : str :=
  123 :: newline_indent 1
  ++ 34 :: escape (lit "subject") ++ 34 :: 58 :: 32
  :: 34 :: escape subject ++ 34 :: 44 :: newline_indent 1
  ++ 34 :: escape (lit "modules") ++ 34 :: 58 :: 32
  :: array_text plans (newline_indent 0 ++ [125]).

(** A high surrogate followed by a low one, as one plan text. *)
Definition split_pair_plans : dict str := [ (lit "Intro", [0xD800; 0xDC00]) ].

Definition sample_plans : dict str :=
  [ (lit "1. Basics", lit "Read chapter 1" ++ [NL; 34; 0x1F600; 34]);
    (lit "2. Advanced", [0xE9; 0xD800; 0x7F; 92; 0xDC00; 0xD800]) ].

(** A subject with a high surrogate followed by a low one. *)
Definition split_pair_subject : str := [0x41; 0xD83D; 0xDE00].

(** The modules recovered from a parsed export: title and plan text of
    each entry of its [modules] list. *)
Definition recovered_entries (v : pyval) : option (list (option str * option str)) :=
  match v with
  | PDict members =>
      match dict_get (lit "modules") members with
      | Some (PList items) =>
          Some (map (fun item =>
                       match item with
                       | PDict fields =>
                           (match dict_get (lit "title") fields with
                            | Some (PStr t) => Some t
                            | _ => None
                            end,
                            match dict_get (lit "lesson_plan") fields with
                            | Some (PStr p) => Some p
                            | _ => None
                            end)
                       | _ => (None, None)
                       end) items)
      | _ => None
      end
  | _ => None
  end.

(** The entries read back from the text of an export. *)
Definition parsed_entries (text : str) : option (list (option str * option str)) :=
  match loads text with
  | Some v => recovered_entries v
  | None => None
  end.

(** The titles and plan texts of a mapping, in its iteration order. *)
Definition entries_of (plans : dict str) : list (option str * option str) :=
  map (fun mp => (Some (fst mp), Some (snd mp))) plans.

End JsonSpec.
Import JsonSpec.

(** *** Further vocabulary: requests, downloads, layouts *)

Module CoverageSpec.
Import Flow Outline Exports Json.
Local Open Scope flow_scope.

(** A text made of whitespace only. *)
Definition blank (s : str) : Prop := Forall (fun c => isspace c = true) s.

(** A JSON object whose ["title"] is [title]. *)
Definition has_title (item title : pyval) : Prop :=
  exists fields,
    item = PDict fields /\ dict_get (lit "title") fields = Some title.

(** The requests a run sent out: HTTP requests and chat completions. *)
Definition is_request (e : event) : bool :=
  match e with
  | HttpGet _ _ => true
  | LlmCall _ _ => true
  | _ => false
  end.

Definition requests_of (events : list event) : list event :=
  filter is_request events.

(** What [combine_external_context] shows for one list of titles. *)
Definition expander_events (label : str) (titles : list pyval) : list event :=
  match titles with
  | [] => []
  | _ :: _ =>
      StExpander label
      :: map (fun ix => StWriteItem (fst ix) (snd ix)) (enumerate 1 titles)
  end.

(** The context blob of two lists of strings. *)
Definition context_of (news papers : list str) : str :=
  lit "News Headlines: " ++ join (lit ", ") news ++ lit ". "
  ++ lit "Research Papers: " ++ join (lit ", ") papers ++ lit ".".

(** The state of [main] when a submitted form reaches [kickoff]. *)
Definition submitted (s : state) : state :=
  {| log := ((log s ++ [StTitle (lit "AI Course Development Platform")])
             ++ [StWrite (lit "Enter a subject to generate a complete course curriculum with lesson plans")])
            ++ [StSubheader (lit "Course Development Process")];
     llm_calls := llm_calls s |}.

(** The two downloads [main] offers first for a mapping, and the one
    it offers for the bytes of the PDF document. *)
Definition text_downloads (subject_input : str) (lesson_plans : dict str)
  : list event :=
  [ StDownload (lit "Download JSON")
               (Text (json_export subject_input lesson_plans))
               (file_name subject_input "_course.json")
               (lit "application/json");
    StDownload (lit "Download Markdown")
               (Text (markdown_export subject_input lesson_plans))
               (file_name subject_input "_course.md")
               (lit "text/markdown") ].

Definition pdf_download (subject_input : str) (pdf_bytes : list N) : event :=
  StDownload (lit "Download PDF")
             (Bytes pdf_bytes)
             (file_name subject_input "_course.pdf")
             (lit "application/pdf").

(** A newline or a printable ASCII character. *)
Definition ascii_char (c : N) : bool :=
  (c =? 10) || ((32 <=? c) && (c <=? 126)).

(** The number of [add_page] calls of a layout. *)
Fixpoint add_page_calls (ops : list pdf_op) : nat :=
  match ops with
  | [] => 0
  | AddPage :: more => S (add_page_calls more)
  | _ :: more => add_page_calls more
  end.

(** The values given to the progress bar, as numerator and denominator. *)
Fixpoint progress_of (events : list event) : list (nat * nat) :=
  match events with
  | [] => []
  | StProgress num den :: more => (num, den) :: progress_of more
  | _ :: more => progress_of more
  end.

(** A response with the given status and JSON body. *)
Definition json_response (status : N) (body : pyval) : outcome response :=
  Returned {| status_code := status; json_body := Returned body |}.

(** A world whose news search answers 401 with an error object and whose
    paper search answers 429. *)
Definition unauthorized : World :=
  {| requests_get := fun to _ =>
       match to with
       | NewsApi =>
           json_response 401 (PDict [ (lit "status", PStr (lit "error"));
                                      (lit "code", PStr (lit "apiKeyInvalid")) ])
       | SemanticScholar =>
           json_response 429 (PDict [ (lit "message", PStr (lit "Too Many Requests")) ])
       end;
     completion := fun n _ => Returned (str_of_nat n);
     multiselect := fun options => options;
     pdf_output := fun _ => Returned (PdfStr (lit "%PDF-1.3")) |}.

(** A world whose news search returns one article with a null title and
    one with a title, and whose paper search returns two papers, the
    second without a title. *)
Definition patchy : World :=
  {| requests_get := fun to _ =>
       match to with
       | NewsApi =>
           json_response 200
             (PDict [ (lit "articles",
                       PList [ PDict [ (lit "title", PNone) ];
                               PDict [ (lit "title", PStr (lit "Chips")) ] ]) ])
       | SemanticScholar =>
           json_response 200
             (PDict [ (lit "data",
                       PList [ PDict [ (lit "title", PStr (lit "Attention")) ];
                               PDict [ (lit "year", PInt 2017) ] ]) ])
       end;
     completion := fun n _ => Returned (str_of_nat n);
     multiselect := fun options => options;
     pdf_output := fun _ => Returned (PdfStr (lit "%PDF-1.3")) |}.

(** A world whose news search answers with a bare list of titles. *)
Definition listing : World :=
  {| requests_get := fun to _ =>
       match to with
       | NewsApi => json_response 200 (PList [ PStr (lit "Chips") ])
       | SemanticScholar => json_response 200 (PDict [ (lit "data", PList []) ])
       end;
     completion := fun n _ => Returned (str_of_nat n);
     multiselect := fun options => options;
     pdf_output := fun _ => Returned (PdfStr (lit "%PDF-1.3")) |}.

(** A world whose searches return one title each and whose completions
    return a two-module outline, then a plan per call. *)
Definition cooperative : World :=
  {| requests_get := fun to _ =>
       match to with
       | NewsApi =>
           json_response 200
             (PDict [ (lit "articles",
                       PList [ PDict [ (lit "title", PStr (lit "Chips")) ] ]) ])
       | SemanticScholar =>
           json_response 200
             (PDict [ (lit "data",
                       PList [ PDict [ (lit "title", PStr (lit "Attention")) ] ]) ])
       end;
     completion := fun n _ =>
       match n with
       | O => Returned (lit " 1. Basics" ++ [NL] ++ lit "2. Advanced ")
       | S _ => Returned (lit "Plan " ++ str_of_nat n)
       end;
     multiselect := fun options => options;
     pdf_output := fun _ => Returned (PdfStr (lit "%PDF-1.3")) |}.

(** The completions of the lesson-plan loop when the first of them is
    the [n]-th of the run. *)
Fixpoint lesson_calls (n : nat) (selected : list str) : list event :=
  match selected with
  | [] => []
  | module :: more => LlmCall n (lesson_prompt module) :: lesson_calls (S n) more
  end.

(** What the loop logs when every completion returns: [total] modules in
    all, [n] completions and [i] modules done so far. *)
Fixpoint loop_events (total n i : nat) (selected : list str) : list event :=
  match selected with
  | [] => []
  | module :: more =>
      StText (lit "Generating lesson plan for module "
              ++ str_of_nat (i + 1) ++ [47] ++ str_of_nat total)
      :: LlmCall n (lesson_prompt module)
      :: StProgress (i + 1) total
      :: loop_events total (S n) (S i) more
  end.

(** A title that is not a string. *)
Definition not_a_string (item : pyval) : Prop := forall t, item <> PStr t.

End CoverageSpec.
Import CoverageSpec.

(* ================================================================== *)
(** * Properties *)

(** ** Strings *)

Module StrFacts.

Lemma str_eqb_eq (a b : str) : str_eqb a b = true <-> a = b.
Proof.
  revert b; induction a as [|x a IH]; intros [|y b]; simpl;
    try (split; [discriminate | discriminate]); try tauto.
  rewrite andb_true_iff, N.eqb_eq, IH.
  split; [intros [-> ->]; reflexivity | intros [= -> ->]; auto].
Qed.

Lemma str_eqb_refl (a : str) : str_eqb a a = true.
Proof. apply str_eqb_eq; reflexivity. Qed.

Lemma str_eqb_neq (a b : str) : str_eqb a b = false <-> a <> b.
Proof.
  rewrite <- str_eqb_eq. destruct (str_eqb a b); split; congruence.
Qed.

Lemma lstrip_clean (s : str) : clean_head (lstrip s).
Proof.
  induction s as [|c s IH]; simpl; [exact I|].
  destruct (isspace c) eqn:E; [exact IH | exact E].
Qed.

Lemma lstrip_fixed (s : str) : clean_head s -> lstrip s = s.
Proof. destruct s as [|c s]; simpl; [reflexivity | intros ->; reflexivity]. Qed.

(** [lstrip] removes a prefix made of whitespace. *)
Lemma lstrip_prefix (s : str) :
  exists ws, s = ws ++ lstrip s /\ Forall (fun c => isspace c = true) ws.
Proof.
  induction s as [|c s (ws & Hs & Hws)]; simpl.
  - exists []; auto.
  - destruct (isspace c) eqn:E.
    + exists (c :: ws); split; [simpl; congruence | constructor; assumption].
    + exists []; auto.
Qed.

Lemma rstrip_suffix (s : str) :
  exists ws, s = rstrip s ++ ws /\ Forall (fun c => isspace c = true) ws.
Proof.
  unfold rstrip. destruct (lstrip_prefix (rev s)) as (ws & Hs & Hws).
  exists (rev ws). split.
  - rewrite <- rev_app_distr, <- Hs, rev_involutive; reflexivity.
  - apply Forall_rev; assumption.
Qed.

Lemma rstrip_clean_rev (s : str) : clean_head (rev (rstrip s)).
Proof. unfold rstrip. rewrite rev_involutive. apply lstrip_clean. Qed.

Lemma rstrip_keeps_head (s : str) : clean_head s -> clean_head (rstrip s).
Proof.
  intros Hs. destruct (rstrip_suffix s) as (ws & E & _).
  destruct (rstrip s) as [|c t]; [exact I|].
  rewrite E in Hs. exact Hs.
Qed.

Lemma strip_clean (s : str) :
  clean_head (strip s) /\ clean_head (rev (strip s)).
Proof.
  unfold strip; split.
  - apply rstrip_keeps_head, lstrip_clean.
  - apply rstrip_clean_rev.
Qed.

Lemma strip_fixed (s : str) :
  clean_head s -> clean_head (rev s) -> strip s = s.
Proof.
  intros H1 H2. unfold strip, rstrip.
  rewrite (lstrip_fixed s H1), (lstrip_fixed (rev s) H2).
  apply rev_involutive.
Qed.

Lemma strip_idempotent (s : str) : strip (strip s) = strip s.
Proof. destruct (strip_clean s); apply strip_fixed; assumption. Qed.

(** [strip] only removes characters. *)
Lemma strip_infix (s : str) : exists pre post, s = pre ++ strip s ++ post.
Proof.
  destruct (lstrip_prefix s) as (pre & E1 & _).
  destruct (rstrip_suffix (lstrip s)) as (post & E2 & _).
  exists pre, post. unfold strip. rewrite <- E2. exact E1.
Qed.

(** [strip] removes whitespace, and only whitespace, from both ends, up
    to the first and the last character that are not whitespace. *)
Lemma strip_spec (s : str) :
  exists pre post,
    s = pre ++ strip s ++ post
    /\ Forall (fun c => isspace c = true) pre
    /\ Forall (fun c => isspace c = true) post
    /\ clean_head (strip s) /\ clean_head (rev (strip s)).
Proof.
  destruct (lstrip_prefix s) as (pre & E1 & H1).
  destruct (rstrip_suffix (lstrip s)) as (post & E2 & H2).
  exists pre, post. unfold strip at 1. rewrite <- E2.
  repeat split; try assumption; apply strip_clean.
Qed.

Lemma In_strip (c : char) (s : str) : In c (strip s) -> In c s.
Proof.
  destruct (strip_infix s) as (pre & post & E). intros H.
  rewrite E. apply in_or_app; right; apply in_or_app; left; exact H.
Qed.

Lemma split_not_nil (sep : char) (s : str) : split sep s <> [].
Proof.
  induction s as [|c s IH]; simpl; [discriminate|].
  destruct (c =? sep); [discriminate|].
  destruct (split sep s); [contradiction | discriminate].
Qed.

(** No piece of a split contains the separator. *)
Lemma split_pieces (sep : char) (s : str) :
  Forall (fun piece => ~ In sep piece) (split sep s).
Proof.
  induction s as [|c s IH]; simpl.
  - constructor; [intros [] | constructor].
  - destruct (N.eqb_spec c sep) as [->|Hc].
    + constructor; [intros [] | exact IH].
    + destruct (split sep s) as [|piece more].
      * constructor; [|constructor]. intros [E|[]]; congruence.
      * inversion IH; subst. constructor; [|assumption].
        intros [E|Hin]; [congruence | contradiction].
Qed.

(** A string without the separator is its own only piece. *)
Lemma split_whole (sep : char) (s : str) : ~ In sep s -> split sep s = [s].
Proof.
  induction s as [|c s IH]; simpl; intros H; [reflexivity|].
  destruct (N.eqb_spec c sep) as [->|Hc]; [exfalso; apply H; left; reflexivity|].
  rewrite IH; [reflexivity | intros Hin; apply H; right; exact Hin].
Qed.

(** Splitting a text cut at a separator splits both sides. *)
Lemma split_app (sep : char) (a b : str) :
  split sep (a ++ sep :: b) = split sep a ++ split sep b.
Proof.
  induction a as [|c a IH]; simpl.
  - rewrite N.eqb_refl; reflexivity.
  - destruct (c =? sep); [rewrite IH; reflexivity|].
    rewrite IH. destruct (split sep a) as [|piece more] eqn:E;
      [contradiction (split_not_nil sep a E) | reflexivity].
Qed.

(** Joining the pieces of a split gives the text back. *)
Lemma join_split (sep : char) (s : str) : join [sep] (split sep s) = s.
Proof.
  induction s as [|c s IH]; [reflexivity|]. cbn [split].
  pose proof (split_not_nil sep s) as Hne.
  destruct (N.eqb_spec c sep) as [->|Hc];
    destruct (split sep s) as [|piece more]; try contradiction.
  - cbn [join app] in *. rewrite IH. reflexivity.
  - cbn [join] in *. destruct more; cbn [app]; rewrite <- IH; reflexivity.
Qed.

(** Splitting undoes joining on pieces that are free of the separator. *)
Lemma split_join (sep : char) (parts : list str) :
  parts <> [] ->
  Forall (fun piece => ~ In sep piece) parts ->
  split sep (join [sep] parts) = parts.
Proof.
  induction parts as [|p more IH]; intros Hne Hall; [contradiction|].
  inversion Hall as [|? ? Hp Hmore]; subst.
  destruct more as [|q more'].
  - simpl. apply split_whole; assumption.
  - change (join [sep] (p :: q :: more')) with (p ++ sep :: join [sep] (q :: more')).
    rewrite split_app, split_whole by assumption.
    rewrite IH; [reflexivity | discriminate | assumption].
Qed.

End StrFacts.

(** ** The outline parser *)

Module OutlineFacts.
Import StrFacts Outline.

Lemma filter_after_map {A B : Type} (f : A -> B) (p : B -> bool) (l : list A) :
  map f (filter (fun x => p (f x)) l) = filter p (map f l).
Proof.
  induction l as [|x l IH]; simpl; [reflexivity|].
  destruct (p (f x)); simpl; rewrite IH; reflexivity.
Qed.

(** The comprehension of the source computes the trimmed non-empty lines. *)
Lemma outline_lines_trimmed (raw : str) :
  outline_lines raw = trimmed_nonempty_lines raw.
Proof. apply filter_after_map. Qed.

Lemma digits_then_dot_iff (s : str) :
  digits_then_dot s = true <->
  exists ds rest, Forall (fun c => isdecimal c = true) ds /\ s = ds ++ 46 :: rest.
Proof.
  induction s as [|c s IH]; simpl.
  - split; [discriminate|]. intros (ds & rest & _ & E).
    destruct ds; discriminate.
  - rewrite orb_true_iff, andb_true_iff, N.eqb_eq, IH. split.
    + intros [->|(Hc & ds & rest & Hds & ->)].
      * exists [], s; auto.
      * exists (c :: ds), rest; auto.
    + intros (ds & rest & Hds & E). destruct ds as [|d ds]; simpl in E.
      * left; congruence.
      * injection E as -> ->. inversion Hds; subst.
        right; split; [assumption|]. exists ds, rest; auto.
Qed.

(** The matcher accepts exactly the lines that begin with one or more
    digits followed by a period. *)
Lemma numbered_iff (line : str) :
  numbered line = true <-> leading_digits_period line.
Proof.
  unfold leading_digits_period. destruct line as [|c s]; simpl.
  - split; [discriminate|]. intros (ds & rest & _ & _ & E).
    destruct ds; discriminate.
  - rewrite andb_true_iff, digits_then_dot_iff. split.
    + intros (Hc & ds & rest & Hds & ->).
      exists (c :: ds), rest. repeat split; [discriminate | constructor; assumption].
    + intros (ds & rest & Hne & Hds & E). destruct ds as [|d ds]; [contradiction|].
      simpl in E; injection E as -> ->. inversion Hds; subst.
      split; [assumption|]. exists ds, rest; auto.
Qed.

Lemma existsb_filter {A : Type} (p : A -> bool) (l : list A) :
  existsb p l = match filter p l with [] => false | _ :: _ => true end.
Proof.
  induction l as [|x l IH]; simpl; [reflexivity|].
  destruct (p x); simpl; [reflexivity | exact IH].
Qed.

Lemma parse_outline_refines (raw : str) :
  parse_outline raw = contract_modules raw.
Proof.
  unfold parse_outline, contract_modules.
  rewrite outline_lines_trimmed, existsb_filter.
  destruct (filter numbered (trimmed_nonempty_lines raw)); reflexivity.
Qed.

Lemma Subseq_refl {A : Type} (l : list A) : Subseq l l.
Proof. induction l; constructor; assumption. Qed.

Lemma Subseq_filter {A : Type} (p : A -> bool) (l : list A) :
  Subseq (filter p l) l.
Proof.
  induction l as [|x l IH]; simpl; [constructor|].
  destruct (p x); constructor; exact IH.
Qed.

Lemma Subseq_In {A : Type} (l1 l2 : list A) :
  Subseq l1 l2 -> forall x, In x l1 -> In x l2.
Proof.
  induction 1 as [|y l1 l2 _ IH|y l1 l2 _ IH]; intros x Hx; simpl in *; auto.
  destruct Hx; auto.
Qed.

Lemma trimmed_lines_tidy (raw : str) : Forall tidy (trimmed_nonempty_lines raw).
Proof.
  unfold trimmed_nonempty_lines. apply Forall_forall. intros line Hin.
  apply filter_In in Hin. destruct Hin as [Hin Hne].
  apply in_map_iff in Hin. destruct Hin as (piece & <- & Hpiece).
  split; [assumption | apply strip_idempotent |].
  intros Hnl. apply In_strip in Hnl.
  pose proof (split_pieces NL raw) as Hall.
  rewrite Forall_forall in Hall. exact (Hall piece Hpiece Hnl).
Qed.

Lemma parse_outline_tidy (raw : str) : Forall tidy (parse_outline raw).
Proof.
  pose proof (trimmed_lines_tidy raw) as Hall. rewrite Forall_forall in Hall.
  apply Forall_forall. intros line Hin. apply Hall.
  rewrite parse_outline_refines in Hin. unfold contract_modules in Hin.
  destruct (existsb numbered (trimmed_nonempty_lines raw));
    [apply filter_In in Hin; tauto | assumption].
Qed.

(** Tidy lines come back unchanged from joining, splitting and trimming. *)
Lemma lines_of_joined (ls : list str) :
  Forall tidy ls -> trimmed_nonempty_lines (join [NL] ls) = ls.
Proof.
  intros Hall. destruct ls as [|l ls']; [reflexivity|].
  unfold trimmed_nonempty_lines.
  rewrite split_join;
    [| discriminate
     | eapply Forall_impl; [|exact Hall]; intros a Ha; apply (tidy_single a Ha)].
  induction Hall as [|a ls Ha _ IH]; [reflexivity|].
  simpl. rewrite (tidy_trimmed a Ha), (tidy_nonempty a Ha), IH. reflexivity.
Qed.

Lemma filter_all {A : Type} (p : A -> bool) (l : list A) :
  Forall (fun x => p x = true) l -> filter p l = l.
Proof.
  induction 1 as [|x l Hx _ IH]; simpl; [reflexivity|].
  rewrite Hx, IH; reflexivity.
Qed.

Lemma filter_filter_same {A : Type} (p : A -> bool) (l : list A) :
  filter p (filter p l) = filter p l.
Proof.
  apply filter_all, Forall_forall. intros x Hx.
  apply filter_In in Hx; tauto.
Qed.

End OutlineFacts.

Section OutlineClaims.
Import StrFacts Outline OutlineFacts.

(** C1.  For every raw outline, the parser returns what the contract
    describes: the raw text is split on newlines, each line trimmed, empty
    lines dropped, and the lines that begin with digits and a period are
    kept, unless there is none, in which case all the trimmed non-empty
    lines are returned.  The matcher accepts exactly the lines made of one
    or more digits, a period and anything after it.  On the two lines of
    prose of the scenario the result is these two lines. *)
Theorem parse_outline_contract :
  (forall raw : str, parse_outline raw = contract_modules raw)
  /\ (forall line : str, numbered line = true <-> leading_digits_period line)
  /\ parse_outline prose_outline = [lit "Just prose."; lit "No numbers here."].
Proof.
  split; [exact parse_outline_refines|].
  split; [exact numbered_iff|].
  vm_compute. reflexivity.
Qed.

(** C5.  The parser is idempotent: joining its output with newlines and
    parsing the result again gives the same list of modules. *)
Theorem parse_outline_idempotent (raw : str) :
  parse_outline (join [NL] (parse_outline raw)) = parse_outline raw.
Proof.
  pose proof (parse_outline_tidy raw) as Htidy.
  rewrite (parse_outline_refines (join _ _)). unfold contract_modules.
  rewrite (lines_of_joined _ Htidy).
  rewrite parse_outline_refines in *. unfold contract_modules in *.
  rewrite !existsb_filter.
  destruct (filter numbered (trimmed_nonempty_lines raw)) as [|m ms] eqn:E.
  - rewrite E. reflexivity.
  - rewrite <- E, filter_filter_same, E. reflexivity.
Qed.

(** C10.  The module list is an order-preserving subsequence of the
    trimmed non-empty lines of the raw text, in the numbered branch and
    in the fallback branch alike: every module is one of these lines, in
    the same relative order, none repeated or made up. *)
Theorem parse_outline_subsequence (raw : str) :
  Subseq (parse_outline raw) (trimmed_nonempty_lines raw)
  /\ (forall m, In m (parse_outline raw) -> In m (trimmed_nonempty_lines raw))
  /\ (parse_outline raw = filter numbered (trimmed_nonempty_lines raw)
      \/ parse_outline raw = trimmed_nonempty_lines raw).
Proof.
  assert (H : Subseq (parse_outline raw) (trimmed_nonempty_lines raw)).
  { rewrite parse_outline_refines. unfold contract_modules.
    destruct (existsb _ _); [apply Subseq_filter | apply Subseq_refl]. }
  split; [exact H|]. split; [exact (Subseq_In _ _ H)|].
  rewrite parse_outline_refines. unfold contract_modules.
  destruct (existsb _ _); auto.
Qed.

End OutlineClaims.

(** ** The enrichment stage *)

Module FetchFacts.
Import Flow.
Local Open Scope flow_scope.

Ltac run :=
  unfold fetch_external_data, fetch_semantic_scholar_data, news_request,
    scholar_request, combine_external_context, http_get, raise_for_status,
    show_titles, get_subject, bind, try_except, emit, lift, ret, raise in *;
  simpl in *.

(** The paper fetcher has exactly two ways to end, both returning. *)
Lemma scholar_caught (w : World) (subject : str) (s : state) :
  match scholar_request w subject s with
  | (s', Returned papers) =>
      fetch_semantic_scholar_data w subject s = (s', Returned papers)
  | (s', Raised e) =>
      fetch_semantic_scholar_data w subject s
      = (with_error s' "Error fetching Semantic Scholar data: " e, Returned [])
  end.
Proof.
  unfold fetch_semantic_scholar_data, try_except.
  destruct (scholar_request w subject s) as [s' [e|papers]]; reflexivity.
Qed.

(** Whether a request raises does not depend on what was shown before. *)
Lemma news_request_outcome (w : World) (subject : str) (s1 s2 : state) :
  snd (news_request w subject s1) = snd (news_request w subject s2).
Proof.
  run. destruct (requests_get w NewsApi subject) as [e|resp]; [reflexivity|].
  destruct (json_body resp) as [e|data]; [reflexivity|].
  destruct (extract_titles data _); reflexivity.
Qed.

Lemma scholar_request_outcome (w : World) (subject : str) (s1 s2 : state) :
  snd (scholar_request w subject s1) = snd (scholar_request w subject s2).
Proof.
  run. destruct (requests_get w SemanticScholar subject) as [e|resp]; [reflexivity|].
  destruct ((400 <=? status_code resp) && (status_code resp <? 600)); [reflexivity|].
  simpl. destruct (json_body resp) as [e|data]; [reflexivity|].
  destruct (extract_titles data _); reflexivity.
Qed.

Lemma bind_returned {A B : Type} (m : M A) (k : A -> M B) (s s' : state) (a : A) :
  m s = (s', Returned a) -> bind m k s = k a s'.
Proof. unfold bind; intros ->; reflexivity. Qed.

Lemma bind_emit {B : Type} (e : event) (k : unit -> M B) (s : state) :
  bind (emit e) k s = k tt {| log := log s ++ [e]; llm_calls := llm_calls s |}.
Proof. reflexivity. Qed.

Lemma bind_raised {A B : Type} (m : M A) (k : A -> M B) (s s' : state) (e : exn) :
  m s = (s', Raised e) -> bind m k s = (s', Raised e).
Proof. unfold bind; intros ->; reflexivity. Qed.

(** A [try] whose handler returns the empty list always returns, and
    returns the empty list when its body would raise. *)
Lemma guarded_request_returns
      (request : M (list pyval)) (prefix : str) (s : state) :
  (forall s1 s2, snd (request s1) = snd (request s2)) ->
  exists s' titles,
    try_except request (fun e => emit (StError prefix e) ;; ret []) s
    = (s', Returned titles)
    /\ (forall s1 s2 e, request s1 = (s2, Raised e) -> titles = []).
Proof.
  intros Hsame. unfold try_except.
  pose proof (Hsame s) as Hs.
  destruct (request s) as [s1 [e|titles]]; simpl in Hs.
  - eexists _, []. split; [reflexivity | auto].
  - exists s1, titles. split; [reflexivity|].
    intros t1 t2 e H. specialize (Hs t1). rewrite H in Hs. discriminate.
Qed.

(** The enrichment stage always returns; a request that raised
    contributes the empty list. *)
Lemma fetch_external_data_returns (w : World) (subject : str) (s : state) :
  exists s' news papers,
    fetch_external_data w subject s = (s', Returned (news, papers))
    /\ (forall s1 s2 e, news_request w subject s1 = (s2, Raised e) -> news = [])
    /\ (forall s1 s2 e, scholar_request w subject s1 = (s2, Raised e) -> papers = []).
Proof.
  unfold fetch_external_data, fetch_semantic_scholar_data.
  rewrite (bind_returned _ _ s _ tt eq_refl).
  match goal with |- context [bind (try_except _ ?h) _ ?st] =>
    destruct (guarded_request_returns (news_request w subject)
                (lit "Error fetching news data: ") st
                (news_request_outcome w subject)) as (s1 & news & Hn & Hnews)
  end.
  rewrite (bind_returned _ _ _ _ _ Hn).
  rewrite (bind_returned _ _ s1 _ tt eq_refl).
  match goal with |- context [bind (try_except _ ?h) _ ?st] =>
    destruct (guarded_request_returns (scholar_request w subject)
                (lit "Error fetching Semantic Scholar data: ") st
                (scholar_request_outcome w subject)) as (s2 & papers & Hp & Hpapers)
  end.
  rewrite (bind_returned _ _ _ _ _ Hp).
  exists s2, news, papers. split; [reflexivity | split; assumption].
Qed.

Lemma requests_of_app (a b : list event) :
  requests_of (a ++ b) = requests_of a ++ requests_of b.
Proof. apply filter_app. Qed.

Lemma combine_empty (s : state) :
  combine_external_context ([], []) s = (s, Returned empty_context).
Proof. reflexivity. Qed.

End FetchFacts.

Section EnrichmentClaims.
Import Flow FetchFacts.
Local Open Scope flow_scope.

(** C6.  For every subject, when the enrichment stage ends with an empty
    news list and an empty paper list, the context-assembly step returns
    (it does not raise), shows nothing, and its value is the two clauses
    with empty joins: "News Headlines: . Research Papers: .". *)
Theorem empty_lists_render (w : World) (subject : str) (s s' : state) :
  fetch_external_data w subject s = (s', Returned ([], [])) ->
  (external_data <- fetch_external_data w subject ;;
   combine_external_context external_data) s
  = (s', Returned empty_context)
  /\ combine_external_context ([], []) s' = (s', Returned empty_context).
Proof.
  intros H. split; [|apply combine_empty].
  unfold bind. rewrite H. apply combine_empty.
Qed.

Lemma empty_lists_render_witness :
  exists s',
    fetch_external_data offline (lit "Machine Learning") initial
    = (s', Returned ([], []))
    /\ (external_data <- fetch_external_data offline (lit "Machine Learning") ;;
        combine_external_context external_data) initial
       = (s', Returned (lit "News Headlines: . Research Papers: .")).
Proof.
  eexists. split; [reflexivity|].
  apply (empty_lists_render offline (lit "Machine Learning") initial).
  reflexivity.
Defined.

(** C7.  For every subject: a paper request that raises makes its
    fetcher show the error and return the empty list; the enrichment
    stage as a whole always returns its pair of lists, with the empty list
    in place of the titles of any request that raised; and the flow goes
    on with the context-assembly stage on that pair. *)
Theorem enrichment_failure_is_contained
        (w : World) (subject : str) (module_count : nat) (s : state) :
  (forall s1 s2 e,
      scholar_request w subject s1 = (s2, Raised e) ->
      fetch_semantic_scholar_data w subject s1
      = (with_error s2 "Error fetching Semantic Scholar data: " e, Returned []))
  /\ exists s' news papers,
      fetch_external_data w subject s = (s', Returned (news, papers))
      /\ (forall s1 s2 e, news_request w subject s1 = (s2, Raised e) -> news = [])
      /\ (forall s1 s2 e, scholar_request w subject s1 = (s2, Raised e) -> papers = [])
      /\ kickoff w subject module_count s
         = after_fetch w subject module_count (news, papers) s'.
Proof.
  split.
  - intros s1 s2 e H. pose proof (scholar_caught w subject s1) as Hc.
    rewrite H in Hc. exact Hc.
  - destruct (fetch_external_data_returns w subject s)
      as (s' & news & papers & Hf & Hn & Hp).
    exists s', news, papers. repeat split; try assumption.
    unfold kickoff, get_subject, bind, ret. rewrite Hf. reflexivity.
Qed.

Lemma enrichment_failure_is_contained_witness :
  exists s',
    fetch_external_data offline (lit "Machine Learning") initial
    = (s', Returned ([], []))
    /\ kickoff offline (lit "Machine Learning") 3 initial
       = after_fetch offline (lit "Machine Learning") 3 ([], []) s'.
Proof.
  destruct (proj2 (enrichment_failure_is_contained
                     offline (lit "Machine Learning") 3 initial))
    as (s' & news & papers & Hf & Hn & Hp & Hk).
  rewrite (Hn initial _ _ eq_refl) in Hf, Hk.
  rewrite (Hp initial _ _ eq_refl) in Hf, Hk.
  exists s'. split; assumption.
Defined.

End EnrichmentClaims.

(** ** Failures of the chat-completion calls *)

Module LlmFacts.
Import Flow FetchFacts.
Local Open Scope flow_scope.

Section Invariant.
Variable w : World.

Lemma going_stopped (s : state) (e : exn) : going w s -> stopped w s e.
Proof.
  intros [Hc Hx]. split; [exact Hx|].
  intros n prompt e' Hin Hr. destruct (Hc n prompt Hin) as [c Hc']. congruence.
Qed.

Lemma quiet_careful {A : Type} (m : M A) : quiet w m -> careful w m.
Proof.
  intros Hq s Hs. specialize (Hq s Hs).
  destruct (m s) as [s' [e|a]]; simpl in Hq; [apply going_stopped|]; assumption.
Qed.

Lemma quiet_ret {A : Type} (a : A) : quiet w (ret a).
Proof. intros s Hs; exact Hs. Qed.

Lemma quiet_lift {A : Type} (o : outcome A) : quiet w (lift o).
Proof. intros s Hs; exact Hs. Qed.

Lemma quiet_raise {A : Type} (e : exn) : quiet w (@raise A e).
Proof. intros s Hs; exact Hs. Qed.

Lemma going_shown (s : state) (e : event) :
  shown e -> going w s ->
  going w {| log := log s ++ [e]; llm_calls := llm_calls s |}.
Proof.
  intros [Hd Hl] [Hc Hx]. split.
  - intros n prompt Hin. simpl in Hin. apply in_app_or in Hin.
    destruct Hin as [Hin|[E|[]]]; [eauto | contradiction (Hl n prompt E)].
  - unfold exports in *; simpl. rewrite filter_app, Hx; simpl. rewrite Hd.
    reflexivity.
Qed.

Lemma quiet_emit (e : event) : shown e -> quiet w (emit e).
Proof. intros He s Hs. apply going_shown; assumption. Qed.

Lemma quiet_bind {A B : Type} (m : M A) (k : A -> M B) :
  quiet w m -> (forall a, quiet w (k a)) -> quiet w (bind m k).
Proof.
  intros Hm Hk s Hs. unfold bind. specialize (Hm s Hs).
  destruct (m s) as [s' [e|a]]; simpl in *; [assumption | apply Hk; assumption].
Qed.

Lemma quiet_try {A : Type} (m : M A) (h : exn -> M A) :
  quiet w m -> (forall e, quiet w (h e)) -> quiet w (try_except m h).
Proof.
  intros Hm Hh s Hs. unfold try_except. specialize (Hm s Hs).
  destruct (m s) as [s' [e|a]]; simpl in *; [apply Hh; assumption | assumption].
Qed.

Lemma careful_bind {A B : Type} (m : M A) (k : A -> M B) :
  careful w m -> (forall a, careful w (k a)) -> careful w (bind m k).
Proof.
  intros Hm Hk s Hs. unfold bind. specialize (Hm s Hs).
  destruct (m s) as [s' [e|a]]; [assumption | apply Hk; assumption].
Qed.

(** The completion call itself: it returns, or it is the call that
    stops the run. *)
Lemma careful_llm (prompt : str) : careful w (llm w prompt).
Proof.
  intros s [Hc Hx]. unfold llm.
  assert (Hx' : exports {| log := log s ++ [LlmCall (llm_calls s) prompt];
                           llm_calls := S (llm_calls s) |} = []).
  { unfold exports in *; simpl. rewrite filter_app, Hx; reflexivity. }
  destruct (completion w (llm_calls s) prompt) as [e|c] eqn:E.
  - split; [exact Hx'|]. intros n p e' Hin Hr. simpl in Hin.
    apply in_app_or in Hin. destruct Hin as [Hin|[Heq|[]]].
    + destruct (Hc n p Hin) as [c Hc']. congruence.
    + injection Heq as <- <-. congruence.
  - split; [|exact Hx']. intros n p Hin. simpl in Hin.
    apply in_app_or in Hin. destruct Hin as [Hin|[Heq|[]]]; [eauto|].
    injection Heq as <- <-. eauto.
Qed.

End Invariant.

Ltac shown_event := split; [reflexivity | intros ? ?; discriminate].

Ltac quiet_steps :=
  repeat first
    [ apply quiet_bind; [|intros ?]
    | apply quiet_try; [|intros ?]
    | apply quiet_emit; shown_event
    | apply quiet_ret | apply quiet_lift | apply quiet_raise ].

Lemma quiet_fetch_external_data (w : World) (subject : str) :
  quiet w (fetch_external_data w subject).
Proof.
  unfold fetch_external_data, fetch_semantic_scholar_data, news_request,
    scholar_request, http_get, raise_for_status.
  quiet_steps.
  destruct (_ && _); quiet_steps.
Qed.

Lemma quiet_write_items (w : World) (items : list (nat * pyval)) :
  quiet w (write_items items).
Proof.
  induction items as [|[i item] more IH]; simpl; quiet_steps. exact IH.
Qed.

Lemma quiet_combine (w : World) (external_data : list pyval * list pyval) :
  quiet w (combine_external_context external_data).
Proof.
  destruct external_data as [news papers].
  unfold combine_external_context, show_titles.
  quiet_steps.
  - destruct news; quiet_steps. apply quiet_write_items.
  - destruct papers; quiet_steps. apply quiet_write_items.
Qed.

Ltac careful_steps :=
  repeat first
    [ apply careful_bind; [|intros ?]
    | apply careful_llm
    | apply quiet_careful; apply quiet_emit; shown_event
    | apply quiet_careful; apply quiet_ret ].

Lemma careful_outline (w : World) (subject : str) (count : nat) (context : str) :
  careful w (generate_course_outline w subject count context).
Proof. unfold generate_course_outline. careful_steps. Qed.

Lemma careful_lesson_loop (w : World) (total : nat) (todo : list (nat * str)) :
  forall plans, careful w (lesson_loop w total todo plans).
Proof.
  induction todo as [|[i module] more IH]; intros plans; simpl; careful_steps.
  apply IH.
Qed.

Lemma careful_lesson_plans (w : World) (outline : str) :
  careful w (generate_lesson_plans w outline).
Proof.
  unfold generate_lesson_plans. careful_steps. apply careful_lesson_loop.
Qed.

Lemma careful_kickoff (w : World) (subject : str) (count : nat) :
  careful w (kickoff w subject count).
Proof.
  unfold kickoff, after_fetch, get_subject.
  apply careful_bind; [apply quiet_careful, quiet_ret | intros subj].
  apply careful_bind; [apply quiet_careful, quiet_fetch_external_data | intros data].
  apply careful_bind; [apply quiet_careful, quiet_combine | intros context].
  apply careful_bind; [apply careful_outline | intros outline].
  apply careful_lesson_plans.
Qed.

Lemma quiet_show_plans (w : World) (items : list (nat * (str * str))) :
  quiet w (show_plans items).
Proof.
  induction items as [|[i [module plan]] more IH]; simpl; quiet_steps. exact IH.
Qed.

Lemma going_initial (w : World) : going w initial.
Proof. split; [intros n p []|reflexivity]. Qed.

Lemma show_plans_returns (items : list (nat * (str * str))) (s : state) :
  snd (show_plans items s) = Returned tt.
Proof.
  revert s. induction items as [|[i [module plan]] more IH]; intros s;
    [reflexivity|].
  simpl. unfold bind, emit. apply IH.
Qed.

End LlmFacts.

Section LlmClaims.
Import Flow FetchFacts LlmFacts.
Local Open Scope flow_scope.

(** C8.  In a run of [main] on a submitted form, if a chat completion
    that was made raised (the outline call or any call of the lesson-plan
    loop), then [main] ends with that very exception, nothing having
    caught it, and the run offered no download at all: no JSON, no
    Markdown, no PDF, not even of the plans generated before the
    failure. *)
Theorem llm_failure_aborts
        (w : World) (subject : str) (count : nat) (s' : state) (r : outcome unit)
        (n : nat) (prompt : str) (e : exn) :
  main w subject count true initial = (s', r) ->
  In (LlmCall n prompt) (log s') ->
  completion w n prompt = Raised e ->
  r = Raised e /\ exports s' = [].
Proof.
  intros Hmain Hin Hraise. unfold main in Hmain.
  repeat (rewrite bind_emit in Hmain; cbv beta iota in Hmain).
  match type of Hmain with bind _ _ ?st = _ =>
    assert (Hgo : going w st)
      by (do 3 (apply going_shown; [shown_event|]); apply going_initial);
    pose proof (careful_kickoff w subject count st Hgo) as Hk;
    destruct (kickoff w subject count st) as [s3 [e0|plans]] eqn:Ek
  end.
  - rewrite (bind_raised _ _ _ _ _ Ek) in Hmain. injection Hmain as <- <-.
    destruct Hk as [Hx Hsame]. split; [|exact Hx].
    f_equal. symmetry. exact (Hsame n prompt e Hin Hraise).
  - exfalso.
    rewrite (bind_returned _ _ _ _ _ Ek) in Hmain.
    rewrite bind_emit in Hmain.
    match type of Hmain with bind (show_plans ?items) _ ?st = _ =>
      assert (Hgo4 : going w st) by (apply going_shown; [shown_event|exact Hk]);
      pose proof (quiet_show_plans w items st Hgo4) as Hq;
      pose proof (show_plans_returns items st) as Hr;
      destruct (show_plans items st) as [s5 [e1|[]]] eqn:Es; simpl in Hq, Hr;
        [discriminate|]
    end.
    rewrite (bind_returned _ _ _ _ _ Es) in Hmain.
    repeat (rewrite bind_emit in Hmain; cbv beta in Hmain).
    unfold bind, lift, emit in Hmain.
    destruct (generate_pdf_content w subject plans) as [e1|pdf_bytes];
      cbn [log llm_calls] in Hmain; injection Hmain as <- <-;
      cbn [log] in Hin; rewrite <- !app_assoc in Hin; apply in_app_or in Hin;
      (destruct Hin as [Hin|Hin];
       [ destruct Hq as [Hc _]; destruct (Hc n prompt Hin) as [c Hc']; congruence
       | cbn [app] in Hin;
         repeat (destruct Hin as [Hin|Hin]; [discriminate|]); exact Hin ]).
Qed.

Lemma llm_failure_aborts_witness :
  snd (main llm_down (lit "Machine Learning") 3 true initial)
  = Raised (External (lit "quota exceeded"))
  /\ exports (fst (main llm_down (lit "Machine Learning") 3 true initial)) = [].
Proof.
  apply (llm_failure_aborts llm_down (lit "Machine Learning") 3 _ _ 0%nat
           (outline_prompt empty_context (lit "Machine Learning") 3)).
  - apply surjective_pairing.
  - vm_compute. repeat (first [left; reflexivity | right]).
  - reflexivity.
Defined.

End LlmClaims.

(** ** The lesson-plan loop *)

Module LoopFacts.
Import Flow StrFacts FetchFacts.
Local Open Scope flow_scope.
Local Open Scope nat_scope.

Lemma mem_iff (x : str) (l : list str) : mem x l = true <-> In x l.
Proof.
  unfold mem. rewrite existsb_exists. split.
  - intros (y & Hy & E). apply str_eqb_eq in E. congruence.
  - intros H. exists x. split; [assumption | apply str_eqb_refl].
Qed.

Lemma mem_false (x : str) (l : list str) : mem x l = false <-> ~ In x l.
Proof. rewrite <- mem_iff. destruct (mem x l); split; congruence. Qed.

Lemma fresh_ext (seen1 seen2 l : list str) :
  (forall x, In x seen1 <-> In x seen2) -> fresh seen1 l = fresh seen2 l.
Proof.
  revert seen1 seen2. induction l as [|x r IH]; intros s1 s2 H; simpl;
    [reflexivity|].
  assert (E : mem x s1 = mem x s2).
  { destruct (mem x s1) eqn:E1; symmetry.
    - apply mem_iff, H, mem_iff, E1.
    - apply mem_false. intros Hin. apply mem_false in E1. apply E1, H, Hin. }
  rewrite E. destruct (mem x s2); [apply IH, H|].
  f_equal. apply IH. intros y. simpl. rewrite H. tauto.
Qed.

Lemma In_fresh (seen l : list str) (t : str) :
  In t (fresh seen l) <-> In t l /\ ~ In t seen.
Proof.
  revert seen. induction l as [|x r IH]; intros seen; simpl; [tauto|].
  destruct (mem x seen) eqn:E.
  - rewrite IH. apply mem_iff in E. split; [tauto|].
    intros [[->|H] Hn]; [contradiction | tauto].
  - apply mem_false in E. simpl. rewrite IH. simpl. split.
    + intros [->|(H1 & H2)]; [tauto|]. split; [tauto|]. intros H; apply H2; auto.
    + intros [[->|H] Hn]; [auto|].
      destruct (str_eq_dec x t) as [->|Hne]; [auto|].
      right. split; [assumption|]. intros [E'|E']; [congruence | contradiction].
Qed.

Lemma NoDup_fresh (seen l : list str) : NoDup (fresh seen l).
Proof.
  revert seen. induction l as [|x r IH]; intros seen; simpl; [constructor|].
  destruct (mem x seen); [apply IH|].
  constructor; [|apply IH]. rewrite In_fresh. simpl. tauto.
Qed.

Lemma keys_dict_set {V : Type} (k : str) (v : V) (d : dict V) :
  keys (dict_set k v d) = if mem k (keys d) then keys d else keys d ++ [k].
Proof.
  induction d as [|[k' v'] r IH]; simpl; [reflexivity|].
  destruct (str_eqb k' k) eqn:E; simpl; [reflexivity|].
  unfold keys in *. rewrite IH. fold (mem k (map fst r)).
  destruct (mem k (map fst r)); reflexivity.
Qed.

Lemma dict_get_set_same {V : Type} (k : str) (v : V) (d : dict V) :
  dict_get k (dict_set k v d) = Some v.
Proof.
  induction d as [|[k' v'] r IH]; simpl.
  - rewrite str_eqb_refl; reflexivity.
  - destruct (str_eqb k' k) eqn:E; simpl; rewrite E; [reflexivity | exact IH].
Qed.

Lemma dict_get_set_other {V : Type} (k t : str) (v : V) (d : dict V) :
  k <> t -> dict_get t (dict_set k v d) = dict_get t d.
Proof.
  intros Hne. induction d as [|[k' v'] r IH]; simpl.
  - apply str_eqb_neq in Hne. rewrite Hne; reflexivity.
  - destruct (str_eqb k' k) eqn:E; simpl.
    + apply str_eqb_eq in E; subst k'.
      apply str_eqb_neq in Hne. rewrite Hne; reflexivity.
    + destruct (str_eqb k' t); [reflexivity | exact IH].
Qed.

Section Loop.
Variable w : World.

Lemma loop_step (total i : nat) (module : str) (more : list (nat * str))
      (plans : dict str) (s : state) :
  lesson_loop w total ((i, module) :: more) plans s
  = match completion w (llm_calls s) (lesson_prompt module) with
    | Raised e => (after_call total s i module, Raised e)
    | Returned content =>
        lesson_loop w total more (dict_set module (strip content) plans)
          {| log := log (after_call total s i module) ++ [StProgress (i + 1) total];
             llm_calls := S (llm_calls s) |}
    end.
Proof.
  simpl. rewrite bind_emit. unfold bind at 1. unfold llm. simpl.
  destruct (completion w (llm_calls s) (lesson_prompt module)); reflexivity.
Qed.

(** The loop returns what [plans_from] computes. *)
Lemma loop_value (total : nat) (selected : list str) :
  forall i plans s,
    snd (lesson_loop w total (Exports.enumerate i selected) plans s)
    = plans_from w (llm_calls s) selected plans.
Proof.
  induction selected as [|module more IH]; intros i plans s; [reflexivity|].
  cbn [Exports.enumerate plans_from]. rewrite loop_step.
  destruct (completion w (llm_calls s) (lesson_prompt module)) as [e|c];
    [reflexivity|].
  rewrite IH. reflexivity.
Qed.

Lemma prompts_of_app (a b : list event) :
  prompts_of (a ++ b) = prompts_of a ++ prompts_of b.
Proof.
  induction a as [|e a IH]; simpl; [reflexivity|].
  destruct e; simpl; rewrite ?IH; reflexivity.
Qed.


Lemma keys_plans_from (selected : list str) :
  forall n plans plans',
    plans_from w n selected plans = Returned plans' ->
    keys plans' = keys plans ++ fresh (keys plans) selected.
Proof.
  induction selected as [|x r IH]; intros n plans plans' H; simpl in *.
  - injection H as <-. rewrite app_nil_r; reflexivity.
  - destruct (completion w n (lesson_prompt x)) as [e|c]; [discriminate|].
    rewrite (IH _ _ _ H), keys_dict_set.
    destruct (mem x (keys plans)) eqn:E; [reflexivity|].
    rewrite <- app_assoc. simpl. do 2 f_equal.
    apply fresh_ext. intros y. rewrite in_app_iff. simpl. tauto.
Qed.

Lemma plans_from_untouched (selected : list str) (t : str) :
  ~ In t selected ->
  forall n plans plans',
    plans_from w n selected plans = Returned plans' ->
    dict_get t plans' = dict_get t plans.
Proof.
  induction selected as [|x r IH]; intros Hnot n plans plans' H; simpl in *.
  - injection H as <-; reflexivity.
  - destruct (completion w n (lesson_prompt x)) as [e|c]; [discriminate|].
    rewrite (IH (fun Hin => Hnot (or_intror Hin)) _ _ _ H).
    apply dict_get_set_other. intros ->. apply Hnot; left; reflexivity.
Qed.

(** The entry of a title holds the plan generated at its last
    occurrence. *)
Lemma plans_from_last (selected : list str) :
  forall n plans plans' i t,
    plans_from w n selected plans = Returned plans' ->
    nth_error selected i = Some t ->
    (forall j, i < j -> nth_error selected j <> Some t) ->
    exists content,
      completion w (n + i) (lesson_prompt t) = Returned content
      /\ dict_get t plans' = Some (strip content).
Proof.
  induction selected as [|x r IH]; intros n plans plans' i t H Hi Hlast.
  - destruct i; discriminate.
  - simpl in H.
    destruct (completion w n (lesson_prompt x)) as [e|c] eqn:Ec; [discriminate|].
    destruct i as [|i]; simpl in Hi.
    + injection Hi as ->. exists c. rewrite Nat.add_0_r. split; [exact Ec|].
      rewrite (plans_from_untouched r t) with (n := S n)
                                              (plans := dict_set t (strip c) plans);
        [apply dict_get_set_same | | exact H].
      intros Hin. apply In_nth_error in Hin. destruct Hin as [j Hj].
      apply (Hlast (S j)); [lia | exact Hj].
    + destruct (IH (S n) _ plans' i t H Hi) as (content & Hc & Hg).
      * intros j Hj. apply (Hlast (S j)). lia.
      * exists content. split; [|exact Hg].
        replace (n + S i) with (S n + i) by lia. exact Hc.
Qed.

End Loop.

(** The value and the log of [generate_lesson_plans] in terms of the
    loop. *)
Lemma generate_lesson_plans_unfold (w : World) (outline : str) (s : state) :
  let selected := multiselect w (Outline.parse_outline outline) in
  let s0 := {| log := ((log s ++ [StSubheader (lit "Course Outline")])
                       ++ [StMarkdown outline]) ++ [StProgress 0 1];
               llm_calls := llm_calls s |} in
  let run := lesson_loop w (List.length selected)
                         (Exports.enumerate 0 selected) [] s0 in
  generate_lesson_plans w outline s
  = match snd run with
    | Returned plans =>
        ({| log := log (fst run) ++ [StText (lit "All lesson plans generated!")];
            llm_calls := llm_calls (fst run) |}, Returned plans)
    | Raised e => (fst run, Raised e)
    end.
Proof.
  cbv zeta. unfold generate_lesson_plans.
  rewrite !bind_emit. unfold bind at 1. cbn [log llm_calls].
  match goal with |- context [lesson_loop ?a ?b ?c ?d ?e] =>
    destruct (lesson_loop a b c d e) as [s1 [e1|plans]] end;
    reflexivity.
Qed.

End LoopFacts.

Section LoopClaims.
Import Flow StrFacts Outline OutlineFacts FetchFacts LoopFacts.
Local Open Scope nat_scope.



(** C9.  When the loop of [generate_lesson_plans] returns, the mapping
    has one entry per distinct selected title: its keys are free of
    repetitions, they are exactly the selected titles, their number is
    the number of distinct selected titles, and the entry of a title
    holds the (trimmed) text of the completion made at the last
    occurrence of that title in the selection.  Nothing is raised for a
    title selected twice. *)
Theorem duplicate_titles_overwrite
        (w : World) (outline : str) (s s' : state) (plans : dict str) :
  generate_lesson_plans w outline s = (s', Returned plans) ->
  NoDup (keys plans)
  /\ (forall t, In t (keys plans) <-> In t (multiselect w (parse_outline outline)))
  /\ List.length plans
     = List.length (nodup str_eq_dec (multiselect w (parse_outline outline)))
  /\ forall i t,
      nth_error (multiselect w (parse_outline outline)) i = Some t ->
      (forall j, i < j ->
                 nth_error (multiselect w (parse_outline outline)) j <> Some t) ->
      exists content,
        completion w (llm_calls s + i) (lesson_prompt t) = Returned content
        /\ dict_get t plans = Some (strip content).
Proof.
  intros Hrun.
  pose proof (generate_lesson_plans_unfold w outline s) as Hg. cbv zeta in Hg.
  set (selected := multiselect w (parse_outline outline)) in *.
  match type of Hg with context [lesson_loop w ?t ?todo ?p ?st] =>
    pose proof (loop_value w t selected 0 p st) as Hv;
    destruct (lesson_loop w t todo p st) as [s1 [e|plans1]]
  end; simpl in Hg, Hv; rewrite Hg in Hrun; [discriminate|].
  injection Hrun as _ <-. symmetry in Hv.
  pose proof (keys_plans_from w selected _ _ _ Hv) as Hkeys. simpl in Hkeys.
  assert (Hnd : NoDup (keys plans1)) by (rewrite Hkeys; apply NoDup_fresh).
  assert (Hin : forall t, In t (keys plans1) <-> In t selected).
  { intros t. rewrite Hkeys, In_fresh. simpl. tauto. }
  split; [exact Hnd|]. split; [exact Hin|]. split.
  - transitivity (List.length (keys plans1)); [symmetry; apply length_map|].
    apply Permutation_length, NoDup_Permutation;
      [exact Hnd | apply NoDup_nodup|].
    intros t. rewrite Hin, nodup_In. tauto.
  - intros i t Hi Hlast. exact (plans_from_last w selected _ _ _ i t Hv Hi Hlast).
Qed.

Lemma duplicate_titles_overwrite_witness :
  multiselect numbering (parse_outline twice_the_same)
  = [lit "1. Basics"; lit "1. Basics"]
  /\ snd (generate_lesson_plans numbering twice_the_same initial)
     = Returned [(lit "1. Basics", lit "1")]
  /\ List.length
       (nodup str_eq_dec (multiselect numbering (parse_outline twice_the_same)))
     = 1.
Proof.
  split; [reflexivity|]. split; [reflexivity|].
  destruct (duplicate_titles_overwrite numbering twice_the_same initial
              (fst (generate_lesson_plans numbering twice_the_same initial))
              [(lit "1. Basics", lit "1")] eq_refl)
    as (_ & _ & Hlen & _).
  symmetry. exact Hlen.
Defined.

End LoopClaims.

(** ** The Markdown export *)

Module MarkdownFacts.
Import StrFacts Exports.

Lemma no_newline_spec (s : str) : no_newline s = true -> ~ In NL s.
Proof.
  unfold no_newline. rewrite forallb_forall. intros H Hin.
  specialize (H NL Hin). rewrite N.eqb_refl in H. discriminate.
Qed.

Lemma uint_codes_no_newline (d : Decimal.uint) : ~ In NL (uint_codes d).
Proof.
  induction d; simpl; intros H;
    try (destruct H as [H|H]; [discriminate | contradiction]).
  exact H.
Qed.

Lemma not_in_app {A : Type} (x : A) (a b : list A) :
  ~ In x a -> ~ In x b -> ~ In x (a ++ b).
Proof. intros Ha Hb H. apply in_app_or in H. tauto. Qed.

Lemma md_heading_one_line (i : nat) (module : str) :
  ~ In NL module -> ~ In NL (md_heading i module).
Proof.
  intros H. unfold md_heading.
  repeat apply not_in_app; try assumption;
    try (apply no_newline_spec; reflexivity).
  apply uint_codes_no_newline.
Qed.

Lemma md_heading_starts (i : nat) (module : str) :
  startswith (lit "## ") (md_heading i module) = true.
Proof. reflexivity. Qed.

Lemma md_title_one_line (subject : str) :
  ~ In NL subject -> ~ In NL (md_title subject).
Proof.
  intros H. unfold md_title.
  repeat apply not_in_app; try assumption; apply no_newline_spec; reflexivity.
Qed.

Lemma fold_blocks (items : list (nat * (str * str))) :
  forall acc : str,
    fold_left
      (fun markdown_content imp =>
         markdown_content
         ++ md_heading (fst imp) (fst (snd imp)) ++ [NL; NL]
         ++ snd (snd imp) ++ [NL; NL])
      items acc
    = acc ++ List.concat (map md_block items).
Proof.
  induction items as [|imp items IH]; intros acc;
    cbn [fold_left map List.concat].
  - rewrite app_nil_r; reflexivity.
  - rewrite IH. unfold md_block at 2. rewrite <- !app_assoc. reflexivity.
Qed.

(** The export is the title line, a blank line, and the blocks in the
    order of the mapping. *)
Lemma markdown_export_blocks (subject : str) (plans : dict str) :
  markdown_export subject plans
  = md_title subject ++ [NL; NL] ++ List.concat (map md_block (enumerate 0 plans)).
Proof.
  unfold markdown_export, md_title. rewrite fold_blocks.
  rewrite <- !app_assoc. reflexivity.
Qed.

Lemma heading_lines_app (a b : str) :
  heading_lines (a ++ NL :: b) = heading_lines a ++ heading_lines b.
Proof. unfold heading_lines. rewrite split_app, filter_app. reflexivity. Qed.

Lemma heading_lines_one (a : str) :
  ~ In NL a ->
  heading_lines a = if startswith (lit "## ") a then [a] else [].
Proof.
  intros H. unfold heading_lines. rewrite (split_whole NL a H). reflexivity.
Qed.

Lemma heading_lines_plain (a : str) :
  Forall (fun line => startswith (lit "## ") line = false) (split NL a) ->
  heading_lines a = [].
Proof.
  unfold heading_lines. induction 1 as [|x l Hx _ IH]; cbn [filter];
    [reflexivity|].
  rewrite Hx. exact IH.
Qed.

Lemma heading_lines_blocks (items : list (nat * (str * str))) :
  Forall (fun imp => ~ In NL (fst (snd imp))) items ->
  heading_lines (List.concat (map md_block items))
  = List.concat (map block_headings items).
Proof.
  induction 1 as [|[i [module plan]] items Ht _ IH]; [reflexivity|].
  cbn [map List.concat]. unfold md_block at 1, block_headings at 1.
  cbn [fst snd] in *.
  rewrite <- !app_assoc. cbn [app].
  rewrite heading_lines_app.
  rewrite (heading_lines_one _ (md_heading_one_line i module Ht)),
    md_heading_starts.
  change (NL :: plan ++ NL :: NL :: List.concat (map md_block items))
    with ([] ++ NL :: plan ++ NL :: NL :: List.concat (map md_block items)).
  rewrite heading_lines_app, heading_lines_app.
  change (NL :: List.concat (map md_block items))
    with ([] ++ NL :: List.concat (map md_block items)).
  rewrite heading_lines_app, IH.
  reflexivity.
Qed.

Lemma heading_lines_none (a : str) :
  heading_lines a = []
  <-> Forall (fun line => startswith (lit "## ") line = false) (split NL a).
Proof.
  split; [|apply heading_lines_plain].
  unfold heading_lines. induction (split NL a) as [|x l IH]; cbn [filter];
    intros H; [constructor|].
  destruct (startswith (lit "## ") x) eqn:E; [discriminate|].
  constructor; [exact E | apply IH, H].
Qed.

(** The headings are alone exactly when no plan brings a line of its
    own. *)
Lemma block_headings_count (items : list (nat * (str * str))) :
  (List.length items <= List.length (List.concat (map block_headings items)))%nat
  /\ (List.length (List.concat (map block_headings items)) = List.length items
      <-> Forall (fun imp => heading_lines (snd (snd imp)) = []) items).
Proof.
  induction items as [|imp items [IHle IHiff]];
    [split; [apply le_n | split; [constructor | reflexivity]]|].
  cbn [map List.concat]. unfold block_headings at 1 3.
  cbn [app List.length]. rewrite !length_app. split; [lia|]. split.
  - intros H.
    assert (H0 : List.length (heading_lines (snd (snd imp))) = 0%nat) by lia.
    constructor; [apply length_zero_iff_nil, H0|]. apply IHiff. lia.
  - intros H. inversion H as [|? ? H0 Hrest]; subst.
    rewrite H0. cbn [List.length]. f_equal. apply IHiff, Hrest.
Qed.

Lemma block_headings_plain (items : list (nat * (str * str))) :
  Forall (fun imp => heading_lines (snd (snd imp)) = []) items ->
  List.concat (map block_headings items)
  = map (fun imp => md_heading (fst imp) (fst (snd imp))) items.
Proof.
  induction 1 as [|imp items H0 _ IH]; [reflexivity|].
  cbn [map List.concat]. unfold block_headings at 1. rewrite H0, IH.
  reflexivity.
Qed.

Lemma Forall_enumerate {A : Type} (P : A -> Prop) (l : list A) :
  Forall P l -> forall i, Forall (fun ix => P (snd ix)) (enumerate i l).
Proof.
  induction 1 as [|x l Hx _ IH]; intros i; simpl; constructor; auto.
Qed.

Lemma Forall_of_enumerate {A : Type} (P : A -> Prop) (l : list A) :
  forall i, Forall (fun ix => P (snd ix)) (enumerate i l) -> Forall P l.
Proof.
  induction l as [|x l IH]; intros i H; [constructor|].
  inversion H; subst. constructor; [assumption | eapply IH; eassumption].
Qed.

Lemma length_enumerate {A : Type} (l : list A) :
  forall i, List.length (enumerate i l) = List.length l.
Proof. induction l as [|x l IH]; intros i; simpl; [|rewrite IH]; reflexivity. Qed.

End MarkdownFacts.

Section MarkdownClaims.
Import StrFacts Exports MarkdownFacts.

(** C3, as written, fails: a plan that has a second-level heading of its
    own adds a line that begins with two hashes and a space, so that the
    export of one module counts two such lines. *)
Lemma markdown_heading_count_counterexample :
  ~ (forall (subject : str) (plans : dict str),
        List.length (heading_lines (markdown_export subject plans))
        = List.length plans).
Proof.
  intros H. specialize (H (lit "ML") plan_with_heading).
  vm_compute in H. discriminate.
Qed.

(** C3, amended.  For every subject and every mapping, the export is
    the title line followed by one block per entry of the mapping, in the
    mapping's iteration order, each block being the heading
    [## Module i: title], a blank line, the plan text and a blank line.
    When the subject and the titles are single lines, the lines of the
    export that begin with two hashes and a space are, entry by entry in
    that order, the heading of the entry followed by the lines of its
    plan text that begin so.  Hence the export has exactly one such line
    per entry if and only if no line of a plan text begins with two
    hashes and a space, and these lines are then the headings, in the
    mapping's iteration order. *)
Theorem markdown_headings (subject : str) (plans : dict str) :
  markdown_export subject plans
  = md_title subject ++ [NL; NL] ++ List.concat (map md_block (enumerate 0 plans))
  /\ (~ In NL subject ->
      Forall (fun mp => ~ In NL (fst mp)) plans ->
      heading_lines (markdown_export subject plans)
      = List.concat (map block_headings (enumerate 0 plans))
      /\ (List.length (heading_lines (markdown_export subject plans))
          = List.length plans
          <-> Forall (fun mp => heading_lines (snd mp) = []) plans)
      /\ (Forall plain_entry plans ->
          heading_lines (markdown_export subject plans)
          = map (fun imp => md_heading (fst imp) (fst (snd imp)))
                (enumerate 0 plans))).
Proof.
  split; [apply markdown_export_blocks|].
  intros Hs Ht.
  assert (E : heading_lines (markdown_export subject plans)
              = List.concat (map block_headings (enumerate 0 plans))).
  { rewrite markdown_export_blocks. cbn [app].
    rewrite heading_lines_app.
    rewrite (heading_lines_one _ (md_title_one_line subject Hs)).
    change (startswith (lit "## ") (md_title subject)) with false.
    change (NL :: List.concat (map md_block (enumerate 0 plans)))
      with ([] ++ NL :: List.concat (map md_block (enumerate 0 plans))).
    rewrite heading_lines_app.
    rewrite heading_lines_blocks
      by (apply (Forall_enumerate (fun mp => ~ In NL (fst mp))); exact Ht).
    reflexivity. }
  split; [exact E|]. split.
  - rewrite E.
    destruct (block_headings_count (enumerate 0 plans)) as [_ Hiff].
    rewrite length_enumerate in Hiff. rewrite Hiff. split.
    + apply (Forall_of_enumerate (fun mp => heading_lines (snd mp) = [])).
    + intros H. apply (Forall_enumerate (fun mp => heading_lines (snd mp) = [])), H.
  - intros Hp. rewrite E. apply block_headings_plain.
    apply (Forall_enumerate (fun mp => heading_lines (snd mp) = [])).
    eapply Forall_impl; [|exact Hp].
    intros mp [_ Hlines]. apply heading_lines_none, Hlines.
Qed.

Lemma markdown_headings_witness :
  heading_lines (markdown_export (lit "ML") plain_plans)
  = [lit "## Module 1: 1. Basics"; lit "## Module 2: 2. Advanced"]
  /\ heading_lines (markdown_export (lit "ML") plan_with_heading)
     = [lit "## Module 1: 1. Basics"; lit "## Key topics"].
Proof.
  split.
  - refine (proj2 (proj2 (proj2 (markdown_headings (lit "ML") plain_plans) _ _)) _).
    + apply no_newline_spec. reflexivity.
    + repeat constructor; apply no_newline_spec; reflexivity.
    + repeat constructor; simpl; intuition discriminate.
  - refine (proj1 (proj2 (markdown_headings (lit "ML") plan_with_heading) _ _)).
    + apply no_newline_spec. reflexivity.
    + repeat constructor; apply no_newline_spec; reflexivity.
Defined.

End MarkdownClaims.

(** ** The JSON export *)

Module JsonFacts.
Import StrFacts Json Exports.

Lemma lor_disjoint (x y k : N) :
  y < 2 ^ k -> N.lor (x * 2 ^ k) y = x * 2 ^ k + y.
Proof.
  intros H.
  assert (E : N.land (x * 2 ^ k) y = 0).
  { apply N.bits_inj_0. intros n. rewrite N.land_spec.
    destruct (N.ltb_spec n k) as [Hn|Hn].
    - rewrite N.mul_pow2_bits_low by assumption. reflexivity.
    - destruct (N.eq_dec y 0) as [->|Hy]; [rewrite N.bits_0; apply andb_false_r|].
      rewrite (N.bits_above_log2 y n); [apply andb_false_r|].
      apply N.lt_le_trans with k; [|assumption].
      apply N.log2_lt_pow2; lia. }
  rewrite (N.add_nocarry_lxor _ _ E). symmetry. apply N.lxor_lor, E.
Qed.

Lemma land_15 (x : N) : N.land x 15 = x mod 16.
Proof. change 15 with (N.ones 4). apply N.land_ones. Qed.

Lemma land_1023 (x : N) : N.land x 0x3FF = x mod 1024.
Proof. change 0x3FF with (N.ones 10). apply N.land_ones. Qed.

Lemma hexval_hex_digit (d : N) : d < 16 -> hexval (hex_digit d) = Some d.
Proof.
  intros H. unfold hex_digit, hexval.
  destruct (N.ltb_spec d 10) as [Hd|Hd].
  - replace ((48 <=? 48 + d) && (48 + d <=? 57)) with true
      by (symmetry; apply andb_true_iff; split; apply N.leb_le; lia).
    f_equal; lia.
  - replace ((48 <=? 87 + d) && (87 + d <=? 57)) with false
      by (symmetry; apply andb_false_iff; right; apply N.leb_gt; lia).
    replace ((97 <=? 87 + d) && (87 + d <=? 102)) with true
      by (symmetry; apply andb_true_iff; split; apply N.leb_le; lia).
    f_equal; lia.
Qed.

(** The four digits of an escape decode to the code point they were
    written for. *)
Lemma decode_u_escape (u : N) (rest : str) :
  u < 0x10000 -> decode_uXXXX (skipn 2 (u_escape u) ++ rest) = Some (u, rest).
Proof.
  intros Hu. unfold u_escape. cbn [skipn app]. unfold decode_uXXXX.
  rewrite !land_15, !N.shiftr_div_pow2.
  change (2 ^ 12) with 4096. change (2 ^ 8) with 256. change (2 ^ 4) with 16.
  rewrite !hexval_hex_digit by (apply N.mod_lt; discriminate).
  rewrite !N.shiftl_mul_pow2.
  rewrite !lor_disjoint by (apply N.mod_lt; discriminate).
  do 2 f_equal.
  assert (E1 : u / 256 = u / 16 / 16) by (rewrite N.Div0.div_div; reflexivity).
  assert (E2 : u / 4096 = u / 16 / 16 / 16)
    by (rewrite !N.Div0.div_div; reflexivity).
  rewrite E1, E2.
  change (2 ^ 4) with 16.
  pose proof (N.div_mod u 16 ltac:(discriminate)) as D1.
  pose proof (N.mod_lt u 16 ltac:(discriminate)) as M1.
  pose proof (N.div_mod (u / 16) 16 ltac:(discriminate)) as D2.
  pose proof (N.mod_lt (u / 16) 16 ltac:(discriminate)) as M2.
  pose proof (N.div_mod (u / 16 / 16) 16 ltac:(discriminate)) as D3.
  pose proof (N.mod_lt (u / 16 / 16) 16 ltac:(discriminate)) as M3.
  pose proof (N.div_mod (u / 16 / 16 / 16) 16 ltac:(discriminate)) as D4.
  pose proof (N.mod_lt (u / 16 / 16 / 16) 16 ltac:(discriminate)) as M4.
  generalize dependent (u / 16 / 16 / 16 / 16).
  generalize dependent (u / 16 / 16 / 16 mod 16).
  generalize dependent (u / 16 / 16 / 16).
  generalize dependent (u / 16 / 16 mod 16).
  generalize dependent (u / 16 / 16).
  generalize dependent (u / 16 mod 16).
  generalize dependent (u / 16).
  generalize dependent (u mod 16).
  intros. lia.
Qed.

Lemma halves (c : N) :
  0x10000 <= c -> c < 0x110000 ->
  high_half c = 0xD800 + (c - 0x10000) / 1024
  /\ low_half c = 0xDC00 + (c - 0x10000) mod 1024
  /\ (c - 0x10000) / 1024 < 1024.
Proof.
  intros Hlo Hhi. unfold high_half, low_half.
  rewrite !land_1023, N.shiftr_div_pow2. change (2 ^ 10) with 1024.
  assert (Hq : (c - 0x10000) / 1024 < 1024)
    by (apply N.Div0.div_lt_upper_bound; lia).
  rewrite (N.mod_small _ _ Hq).
  change 0xD800 with (54 * 2 ^ 10). change 0xDC00 with (55 * 2 ^ 10).
  rewrite !lor_disjoint; [auto | apply N.mod_lt; discriminate | exact Hq].
Qed.

Lemma halves_join (c : N) :
  0x10000 <= c -> c < 0x110000 ->
  is_high_surrogate (high_half c) = true
  /\ is_low_surrogate (low_half c) = true
  /\ high_half c < 0x10000 /\ low_half c < 0x10000
  /\ join_surrogates (high_half c) (low_half c) = c.
Proof.
  intros Hlo Hhi. destruct (halves c Hlo Hhi) as (Eh & El & Hq).
  pose proof (N.mod_lt (c - 0x10000) 1024 ltac:(discriminate)) as Hm.
  pose proof (N.div_mod (c - 0x10000) 1024 ltac:(discriminate)) as Hd.
  unfold is_high_surrogate, is_low_surrogate, join_surrogates.
  rewrite Eh, El.
  remember ((c - 0x10000) / 1024) as q eqn:Eq.
  remember ((c - 0x10000) mod 1024) as m eqn:Em.
  clear Eq Em Eh El.
  replace (0xD800 + q - 0xD800) with q by lia.
  replace (0xDC00 + m - 0xDC00) with m by lia.
  rewrite N.shiftl_mul_pow2, lor_disjoint by exact Hm.
  change (2 ^ 10) with 1024.
  repeat split; try (apply andb_true_iff; split; apply N.leb_le); lia.
Qed.

Lemma escape_char_kind (c : char) : c < 0x110000 -> escape_kind c (escape_char c).
Proof.
  intros Hc. unfold escape_char.
  destruct (N.eqb_spec c 34) as [->|H34];
    [apply (EShort _ 34); [discriminate | reflexivity]|].
  destruct (N.eqb_spec c 92) as [->|H92];
    [apply (EShort _ 92); [discriminate | reflexivity]|].
  destruct (N.eqb_spec c 10) as [->|H10];
    [apply (EShort _ 110); [discriminate | reflexivity]|].
  destruct (N.eqb_spec c 13) as [->|H13];
    [apply (EShort _ 114); [discriminate | reflexivity]|].
  destruct (N.eqb_spec c 9) as [->|H9];
    [apply (EShort _ 116); [discriminate | reflexivity]|].
  destruct (N.eqb_spec c 12) as [->|H12];
    [apply (EShort _ 102); [discriminate | reflexivity]|].
  destruct (N.eqb_spec c 8) as [->|H8];
    [apply (EShort _ 98); [discriminate | reflexivity]|].
  destruct ((32 <=? c) && (c <=? 126)) eqn:Hp.
  - apply andb_true_iff in Hp. destruct Hp as [Hp Hq].
    apply N.leb_le in Hp, Hq. apply EPlain; assumption.
  - destruct (N.ltb_spec c 0x10000) as [Hb|Hb]; [apply EBmp; exact Hb|].
    apply EPair; assumption.
Qed.

(** A surrogate is written as one escape of four digits. *)
Lemma escape_surrogate (d : char) :
  0xD800 <= d -> d <= 0xDFFF -> escape_char d = u_escape d.
Proof.
  intros Hlo Hhi. unfold escape_char.
  repeat match goal with
         | |- context [d =? ?k] =>
             destruct (N.eqb_spec d k) as [E|_]; [exfalso; lia|]
         end.
  replace ((32 <=? d) && (d <=? 126)) with false
    by (symmetry; apply andb_false_iff; right; apply N.leb_gt; lia).
  replace (d <? 0x10000) with true by (symmetry; apply N.ltb_lt; lia).
  reflexivity.
Qed.

Lemma backslash_low (e c : char) : backslash e = Some c -> c < 0xD800.
Proof.
  unfold backslash.
  repeat match goal with
         | |- context [if ?b then _ else _] => destruct b
         end; intros H; try discriminate; injection H as <-; reflexivity.
Qed.

Lemma scanstring_plain (f : nat) (c : char) (r : str) :
  c <> 34 -> c <> 92 -> 32 <= c ->
  scanstring (S f) (c :: r)
  = match scanstring f r with
    | Some (t, rest) => Some (c :: t, rest)
    | None => None
    end.
Proof.
  intros H34 H92 H32. cbn [scanstring].
  apply N.eqb_neq in H34, H92. rewrite H34, H92.
  replace (c <? 32) with false by (symmetry; apply N.ltb_ge; exact H32).
  reflexivity.
Qed.

Lemma scanstring_short (f : nat) (e c : char) (r : str) :
  e <> 117 -> backslash e = Some c ->
  scanstring (S f) (92 :: e :: r)
  = match scanstring f r with
    | Some (t, rest) => Some (c :: t, rest)
    | None => None
    end.
Proof.
  intros He Hb. cbn [scanstring]. change (92 =? 34) with false.
  change (92 =? 92) with true. cbv iota.
  apply N.eqb_neq in He. rewrite He, Hb. reflexivity.
Qed.

Lemma scanstring_u (f : nat) (u : N) (r : str) :
  u < 0x10000 ->
  (is_high_surrogate u = true -> no_low_next r) ->
  scanstring (S f) (u_escape u ++ r)
  = match scanstring f r with
    | Some (t, rest) => Some (u :: t, rest)
    | None => None
    end.
Proof.
  intros Hu Hnext.
  change (u_escape u ++ r) with (92 :: 117 :: (skipn 2 (u_escape u) ++ r)).
  cbn [scanstring]. change (92 =? 34) with false. change (92 =? 92) with true.
  change (117 =? 117) with true. cbv iota.
  rewrite (decode_u_escape u r Hu). cbv zeta.
  destruct (is_high_surrogate u); [|reflexivity].
  destruct (Hnext eq_refl) as [Hs|(uni2 & r3 & Hd & Hl)].
  - rewrite Hs. reflexivity.
  - destruct (startswith [92; 117] r); [|reflexivity].
    cbn [andb]. rewrite Hd, Hl. reflexivity.
Qed.

(** The escape of a high surrogate followed by the escape of a low
    surrogate is read as one character. *)
Lemma scanstring_joined (f : nat) (hi lo : N) (r : str) :
  is_high_surrogate hi = true -> is_low_surrogate lo = true ->
  scanstring (S f) ((u_escape hi ++ u_escape lo) ++ r)
  = match scanstring f r with
    | Some (t, rest) => Some (join_surrogates hi lo :: t, rest)
    | None => None
    end.
Proof.
  intros Hh Hl.
  assert (Hh16 : hi < 0x10000).
  { unfold is_high_surrogate in Hh. apply andb_true_iff in Hh.
    destruct Hh as [_ Hh]. apply N.leb_le in Hh. lia. }
  assert (Hl16 : lo < 0x10000).
  { unfold is_low_surrogate in Hl. apply andb_true_iff in Hl.
    destruct Hl as [_ Hl]. apply N.leb_le in Hl. lia. }
  change ((u_escape hi ++ u_escape lo) ++ r)
    with (92 :: 117 :: (skipn 2 (u_escape hi)
                        ++ (92 :: 117 :: (skipn 2 (u_escape lo) ++ r)))).
  cbn [scanstring]. change (92 =? 34) with false. change (92 =? 92) with true.
  change (117 =? 117) with true. cbv iota.
  rewrite (decode_u_escape _ _ Hh16). cbv zeta. rewrite Hh.
  cbn [startswith andb]. change (92 =? 92) with true.
  change (117 =? 117) with true. cbn [andb skipn].
  rewrite (decode_u_escape _ _ Hl16), Hl. reflexivity.
Qed.

Lemma scanstring_pair (f : nat) (c : N) (r : str) :
  0x10000 <= c -> c < 0x110000 ->
  scanstring (S f) ((u_escape (high_half c) ++ u_escape (low_half c)) ++ r)
  = match scanstring f r with
    | Some (t, rest) => Some (c :: t, rest)
    | None => None
    end.
Proof.
  intros Hlo Hhi.
  destruct (halves_join c Hlo Hhi) as (Hh & Hl & _ & _ & Hj).
  rewrite (scanstring_joined f _ _ r Hh Hl), Hj. reflexivity.
Qed.

(** After the escape of a high surrogate that no low surrogate follows,
    the text does not go on with the escape of a low surrogate. *)
Lemma no_low_next_escape (s rest : str) :
  code_points s ->
  match s with d :: _ => is_low_surrogate d | [] => false end = false ->
  no_low_next (escape s ++ 34 :: rest).
Proof.
  intros Hs Hd. destruct s as [|d s']; [left; reflexivity|].
  inversion Hs as [|? ? Hv _]; subst.
  unfold escape. cbn [flat_map]. rewrite <- app_assoc.
  destruct (escape_char_kind d Hv) as [H34 H92 H32 H126|e He Hb|Hb|Hlo Hhi].
  - left. cbn [app startswith]. apply not_eq_sym, N.eqb_neq in H92.
    rewrite H92. reflexivity.
  - left. cbn [app startswith]. apply not_eq_sym, N.eqb_neq in He.
    rewrite He. apply andb_false_r.
  - right. exists d, (flat_map escape_char s' ++ 34 :: rest).
    split; [apply (decode_u_escape d _ Hb) | exact Hd].
  - right. destruct (halves_join d Hlo Hhi) as (Hh & _ & Hh16 & _ & _).
    exists (high_half d),
      (u_escape (low_half d) ++ flat_map escape_char s' ++ 34 :: rest).
    split.
    + rewrite <- app_assoc. apply (decode_u_escape _ _ Hh16).
    + unfold is_high_surrogate, is_low_surrogate in *.
      apply andb_true_iff in Hh. destruct Hh as [_ Hh]. apply N.leb_le in Hh.
      apply andb_false_iff. left. apply N.leb_gt. lia.
Qed.

(** *** What comes back from an escaped string *)

Lemma rejoin_keep (c : char) (r : str) :
  is_high_surrogate c
  && match r with d :: _ => is_low_surrogate d | [] => false end = false ->
  rejoin (c :: r) = c :: rejoin r.
Proof.
  destruct r as [|d r']; cbn [rejoin]; [reflexivity|].
  intros ->. reflexivity.
Qed.

Lemma rejoin_not_high (c : char) (r : str) :
  is_high_surrogate c = false -> rejoin (c :: r) = c :: rejoin r.
Proof. intros H. apply rejoin_keep. rewrite H. reflexivity. Qed.

Lemma not_high_below (c : char) : c < 0xD800 -> is_high_surrogate c = false.
Proof.
  intros H. unfold is_high_surrogate. apply andb_false_iff. left.
  apply N.leb_gt. exact H.
Qed.

Lemma not_high_above (c : char) : 0x10000 <= c -> is_high_surrogate c = false.
Proof.
  intros H. unfold is_high_surrogate. apply andb_false_iff. right.
  apply N.leb_gt. lia.
Qed.

(** Decoding what the encoder wrote. *)
Lemma scanstring_escape_upto (n : nat) :
  forall (s : str) (fuel : nat) (rest : str),
    (List.length s <= n)%nat ->
    code_points s ->
    (List.length s < fuel)%nat ->
    scanstring fuel (escape s ++ 34 :: rest) = Some (rejoin s, rest).
Proof.
  induction n as [|n IH]; intros s fuel rest Hn Hs Hf.
  - destruct s; [|cbn [List.length] in Hn; lia].
    destruct fuel as [|f]; [inversion Hf | reflexivity].
  - destruct s as [|c r]; [destruct fuel as [|f]; [inversion Hf | reflexivity]|].
    destruct fuel as [|f]; [inversion Hf|]. cbn [List.length] in Hn, Hf.
    inversion Hs as [|? ? Hv Hr]; subst.
    pose proof (IH r f rest ltac:(lia) Hr ltac:(lia)) as IHr.
    unfold escape in *. cbn [flat_map]. rewrite <- app_assoc.
    destruct (escape_char_kind c Hv) as [H34 H92 H32 H126|e He Hb|Hb|Hlo Hhi].
    + cbn [app]. rewrite scanstring_plain, IHr by assumption.
      rewrite rejoin_not_high by (apply not_high_below; lia). reflexivity.
    + cbn [app]. rewrite (scanstring_short f e c), IHr by assumption.
      rewrite rejoin_not_high
        by (apply not_high_below; exact (backslash_low e c Hb)).
      reflexivity.
    + destruct (is_high_surrogate c
                && match r with d :: _ => is_low_surrogate d | [] => false end)
        eqn:Hpair.
      * apply andb_true_iff in Hpair. destruct Hpair as [Hh Hl].
        destruct r as [|d r']; [discriminate|].
        inversion Hr as [|? ? _ Hr']; subst.
        cbn [rejoin]. rewrite Hh, Hl. cbn [andb flat_map List.length] in *.
        rewrite (escape_surrogate d).
        -- rewrite <- app_assoc, app_assoc.
           rewrite (scanstring_joined f c d _ Hh Hl).
           rewrite (IH r' f rest ltac:(lia) Hr' ltac:(lia)). reflexivity.
        -- unfold is_low_surrogate in Hl. apply andb_true_iff in Hl.
           destruct Hl as [Hl _]. apply N.leb_le in Hl. lia.
        -- unfold is_low_surrogate in Hl. apply andb_true_iff in Hl.
           destruct Hl as [_ Hl]. apply N.leb_le in Hl. exact Hl.
      * rewrite scanstring_u, IHr; [rewrite (rejoin_keep c r Hpair); reflexivity
                                   | exact Hb |].
        intros Hhigh. rewrite Hhigh in Hpair. cbn [andb] in Hpair.
        apply (no_low_next_escape r rest Hr Hpair).
    + rewrite scanstring_pair, IHr by assumption.
      rewrite rejoin_not_high by (apply not_high_above; exact Hlo).
      reflexivity.
Qed.

Lemma scanstring_escape (s : str) (fuel : nat) (rest : str) :
  code_points s ->
  (List.length s < fuel)%nat ->
  scanstring fuel (escape s ++ 34 :: rest) = Some (rejoin s, rest).
Proof. apply (scanstring_escape_upto (List.length s)), le_n. Qed.

(** What comes back is never longer, and is the string itself exactly
    when no high surrogate is followed by a low one. *)
Lemma length_rejoin_upto (n : nat) :
  forall s, (List.length s <= n)%nat ->
            (List.length (rejoin s) <= List.length s)%nat.
Proof.
  induction n as [|n IH]; intros s Hn.
  - destruct s; [apply le_n | cbn [List.length] in Hn; lia].
  - destruct s as [|c [|d r']]; [apply le_n | apply le_n |].
    cbn [List.length] in Hn.
    change (rejoin (c :: d :: r'))
      with (if is_high_surrogate c && is_low_surrogate d
            then join_surrogates c d :: rejoin r'
            else c :: rejoin (d :: r')).
    pose proof (IH r' ltac:(lia)) as H1.
    pose proof (IH (d :: r') ltac:(cbn [List.length]; lia)) as H2.
    destruct (is_high_surrogate c && is_low_surrogate d);
      cbn [List.length] in *; lia.
Qed.

Lemma length_rejoin (s : str) : (List.length (rejoin s) <= List.length s)%nat.
Proof. apply (length_rejoin_upto (List.length s)), le_n. Qed.

Lemma rejoin_fixed (s : str) :
  code_points s -> (rejoin s = s <-> pair_free s = true).
Proof.
  induction s as [|c r IH]; intros Hs; [split; reflexivity|].
  inversion Hs as [|? ? Hv Hr]; subst. specialize (IH Hr).
  cbn [pair_free].
  replace (c <? 0x110000) with true by (symmetry; apply N.ltb_lt; exact Hv).
  cbn [andb].
  destruct (is_high_surrogate c
            && match r with d :: _ => is_low_surrogate d | [] => false end)
    eqn:Hpair; cbn [negb andb].
  - split; [|discriminate]. intros E. exfalso.
    apply andb_true_iff in Hpair. destruct Hpair as [Hh Hl].
    destruct r as [|d r']; [discriminate|].
    cbn [rejoin] in E. rewrite Hh, Hl in E. cbn [andb] in E.
    apply (f_equal (@List.length N)) in E. cbn [List.length] in E.
    pose proof (length_rejoin r'). lia.
  - rewrite (rejoin_keep c r Hpair). rewrite <- IH. split.
    + intros E. injection E as E. exact E.
    + intros ->. reflexivity.
Qed.

Lemma length_escape (s : str) : (List.length s <= List.length (escape s))%nat.
Proof.
  induction s as [|c s IH]; [apply le_n|].
  unfold escape in *. cbn [flat_map List.length]. rewrite length_app.
  assert (1 <= List.length (escape_char c))%nat; [|lia].
  unfold escape_char, u_escape.
  repeat match goal with
         | |- context [if ?b then _ else _] => destruct b
         end; cbn [List.length app]; lia.
Qed.

(** *** Reading the document back *)

Lemma scan_once_string (f : nat) (r : str) :
  scan_once (S f) (34 :: r)
  = match scanstring (List.length (34 :: r)) r with
    | Some (t, rest) => Some (PStr t, rest)
    | None => None
    end.
Proof. reflexivity. Qed.

Lemma scan_once_object (f : nat) (r : str) :
  scan_once (S f) (123 :: r)
  = match skip_ws r with
    | c1 :: r1 => if c1 =? 125 then Some (PDict [], r1)
                  else parse_members f [] (c1 :: r1)
    | [] => None
    end.
Proof. reflexivity. Qed.

Lemma scan_once_array (f : nat) (r : str) :
  scan_once (S f) (91 :: r)
  = match skip_ws r with
    | c1 :: r1 => if c1 =? 93 then Some (PList [], r1)
                  else parse_elements f [] (c1 :: r1)
    | [] => None
    end.
Proof. reflexivity. Qed.

Lemma parse_members_step (f : nat) (acc : dict pyval) (q : char) (r : str) :
  parse_members (S f) acc (q :: r)
  = if q =? 34 then
      match scanstring (List.length (q :: r)) r with
      | None => None
      | Some (key, r1) =>
          match skip_ws r1 with
          | colon :: r2 =>
              if colon =? 58 then
                match scan_once f (skip_ws r2) with
                | None => None
                | Some (v, r3) =>
                    match skip_ws r3 with
                    | c3 :: r4 =>
                        if c3 =? 125 then Some (PDict (dict_set key v acc), r4)
                        else if c3 =? 44
                             then parse_members f (dict_set key v acc) (skip_ws r4)
                             else None
                    | [] => None
                    end
                end
              else None
          | [] => None
          end
      end
    else None.
Proof. reflexivity. Qed.

Lemma parse_elements_step (f : nat) (acc : list pyval) (s : str) :
  parse_elements (S f) acc s
  = match scan_once f s with
    | None => None
    | Some (v, r) =>
        match skip_ws r with
        | c :: r1 =>
            if c =? 93 then Some (PList (acc ++ [v]), r1)
            else if c =? 44 then parse_elements f (acc ++ [v]) (skip_ws r1)
            else None
        | [] => None
        end
    end.
Proof. reflexivity. Qed.

Lemma skip_ws_spaces (n : nat) (c : char) (r : str) :
  is_json_ws c = false -> skip_ws (repeat 32 n ++ c :: r) = c :: r.
Proof.
  intros Hc. induction n as [|n IH]; cbn [repeat app skip_ws].
  - rewrite Hc. reflexivity.
  - change (is_json_ws 32) with true. cbv iota. exact IH.
Qed.

Lemma skip_ws_indent (level : nat) (c : char) (r : str) :
  is_json_ws c = false -> skip_ws (newline_indent level ++ c :: r) = c :: r.
Proof.
  intros Hc. unfold newline_indent. cbn [app skip_ws].
  change (is_json_ws NL) with true. cbv iota. apply skip_ws_spaces, Hc.
Qed.

Lemma skip_ws_stop (c : char) (r : str) :
  is_json_ws c = false -> skip_ws (c :: r) = c :: r.
Proof. intros Hc. cbn [skip_ws]. rewrite Hc. reflexivity. Qed.

(** A string value. *)
Lemma scan_string_value (f : nat) (t rest : str) :
  code_points t ->
  scan_once (S f) (34 :: escape t ++ 34 :: rest) = Some (PStr (rejoin t), rest).
Proof.
  intros Ht. rewrite scan_once_string, scanstring_escape; [reflexivity | exact Ht |].
  cbn [List.length]. rewrite length_app. pose proof (length_escape t). lia.
Qed.

(** A member whose value is a string, and what the decoder does after
    it. *)
Lemma parse_member_string (f : nat) (acc : dict pyval) (key t after : str) :
  code_points key -> code_points t ->
  parse_members (S (S f)) acc
    (34 :: escape key ++ 34 :: 58 :: 32 :: 34 :: escape t ++ 34 :: after)
  = match skip_ws after with
    | c3 :: r4 =>
        if c3 =? 125
        then Some (PDict (dict_set (rejoin key) (PStr (rejoin t)) acc), r4)
        else if c3 =? 44
             then parse_members (S f) (dict_set (rejoin key) (PStr (rejoin t)) acc)
                                (skip_ws r4)
             else None
    | [] => None
    end.
Proof.
  intros Hk Ht. rewrite parse_members_step.
  change (34 =? 34) with true. cbv iota.
  rewrite scanstring_escape;
    [| exact Hk
     | cbn [List.length]; rewrite length_app; pose proof (length_escape key); lia].
  rewrite (skip_ws_stop 58) by reflexivity.
  change (58 =? 58) with true. cbv iota.
  change (skip_ws (32 :: 34 :: escape t ++ 34 :: after))
    with (skip_ws (34 :: escape t ++ 34 :: after)).
  rewrite (skip_ws_stop 34) by reflexivity.
  rewrite (scan_string_value f t after Ht). reflexivity.
Qed.

Lemma code_points_lit (w : String.string) :
  forallb (fun c => c <? 0x110000) (lit w) = true -> code_points (lit w).
Proof.
  intros H. apply Forall_forall. intros c Hc.
  rewrite forallb_forall in H. apply N.ltb_lt, H, Hc.
Qed.

Ltac flatten :=
  repeat first [ rewrite <- app_assoc | progress cbn [app] ].

Lemma dumps_item (mp : str * str) (rest : str) :
  dumps_at 2 (item_value mp) ++ rest = item_text mp rest.
Proof.
  unfold item_value, item_text.
  cbn [dumps_at map join fst snd]. unfold encode_str. flatten. reflexivity.
Qed.

Lemma scan_item (fuel : nat) (mp : str * str) (rest : str) :
  entry_of_code_points mp -> (4 <= fuel)%nat ->
  scan_once fuel (item_text mp rest) = Some (item_value (rejoined mp), rest).
Proof.
  intros [Ht Hp] Hf. destruct fuel as [|[|[|[|f]]]]; try lia.
  unfold item_text. rewrite scan_once_object.
  rewrite skip_ws_indent by reflexivity. change (34 =? 125) with false. cbv iota.
  rewrite parse_member_string
    by (assumption || (apply code_points_lit; reflexivity)).
  rewrite skip_ws_stop by reflexivity.
  change (44 =? 125) with false. change (44 =? 44) with true. cbv iota.
  rewrite skip_ws_indent by reflexivity.
  rewrite parse_member_string
    by (assumption || (apply code_points_lit; reflexivity)).
  rewrite skip_ws_indent by reflexivity.
  change (125 =? 125) with true. cbv iota. reflexivity.
Qed.

Lemma join_items (items : list (str * str)) (rest : str) :
  items <> [] ->
  join (44 :: newline_indent 2) (map (dumps_at 2) (map item_value items))
  ++ newline_indent 1 ++ 93 :: rest
  = items_text items rest.
Proof.
  induction items as [|mp more IH]; intros Hne; [contradiction|].
  destruct more as [|mp' more'].
  - cbn [map join items_text]. apply dumps_item.
  - cbn [map join items_text] in *. rewrite <- app_assoc, dumps_item.
    f_equal. cbn [app]. rewrite <- app_assoc. cbn [app]. f_equal. f_equal.
    apply IH. discriminate.
Qed.

Lemma parse_items (items : list (str * str)) :
  forall (fuel : nat) (acc : list pyval) (rest : str),
    items <> [] -> Forall entry_of_code_points items ->
    (List.length items + 4 <= fuel)%nat ->
    parse_elements fuel acc (items_text items rest)
    = Some (PList (acc ++ map item_value (map rejoined items)), rest).
Proof.
  induction items as [|mp more IH]; intros fuel acc rest Hne Hall Hf;
    [contradiction|].
  inversion Hall as [|? ? Hmp Hmore]; subst.
  destruct fuel as [|f]; [cbn [List.length] in Hf; lia|].
  cbn [List.length] in Hf. rewrite parse_elements_step.
  destruct more as [|mp' more'].
  - cbn [items_text]. rewrite scan_item by (assumption || lia).
    rewrite skip_ws_indent by reflexivity.
    change (93 =? 93) with true. cbv iota. reflexivity.
  - assert (Hhead : exists tail, items_text (mp' :: more') rest = 123 :: tail).
    { cbn [items_text]. destruct more'; unfold item_text; eexists; reflexivity. }
    destruct Hhead as [tail Htail].
    change (items_text (mp :: mp' :: more') rest)
      with (item_text mp (44 :: newline_indent 2 ++ items_text (mp' :: more') rest)).
    rewrite scan_item by (assumption || lia).
    rewrite skip_ws_stop by reflexivity.
    change (44 =? 93) with false. change (44 =? 44) with true. cbv iota.
    rewrite Htail.
    rewrite skip_ws_indent by reflexivity. rewrite <- Htail.
    rewrite IH; [| discriminate | assumption | cbn [List.length] in *; lia].
    cbn [map]. rewrite <- app_assoc. reflexivity.
Qed.

Lemma length_item_text (mp : str * str) (rest : str) :
  (S (List.length rest) <= List.length (item_text mp rest))%nat.
Proof.
  unfold item_text.
  repeat first [ rewrite length_app | progress cbn [List.length] ].
  generalize (List.length (newline_indent 3)) (List.length (newline_indent 2))
    (List.length (escape (lit "title"))) (List.length (escape (lit "lesson_plan")))
    (List.length (escape (fst mp))) (List.length (escape (snd mp)))
    (List.length rest).
  intros. lia.
Qed.

Lemma length_items_text (items : list (str * str)) (rest : str) :
  (List.length items <= List.length (items_text items rest))%nat.
Proof.
  induction items as [|mp more IH]; [apply Nat.le_0_l|].
  destruct more as [|mp' more'].
  - cbn [items_text List.length].
    pose proof (length_item_text mp (newline_indent 1 ++ 93 :: rest)). lia.
  - change (items_text (mp :: mp' :: more') rest)
      with (item_text mp (44 :: newline_indent 2 ++ items_text (mp' :: more') rest)).
    pose proof (length_item_text mp
                  (44 :: newline_indent 2 ++ items_text (mp' :: more') rest)) as H.
    cbn [List.length] in H. rewrite length_app in H.
    change (List.length (mp :: mp' :: more'))
      with (S (List.length (mp' :: more'))).
    generalize dependent (List.length (items_text (mp' :: more') rest)).
    generalize (List.length (mp' :: more')).
    intros. lia.
Qed.

Lemma dumps_members (level : nat) (k1 k2 : str) (v1 v2 : pyval) :
  dumps_at level (PDict [(k1, v1); (k2, v2)])
  = 123 :: newline_indent (S level)
    ++ ((encode_str k1 ++ [58; 32] ++ dumps_at (S level) v1)
        ++ (44 :: newline_indent (S level))
        ++ (encode_str k2 ++ [58; 32] ++ dumps_at (S level) v2))
    ++ newline_indent level ++ [125].
Proof. reflexivity. Qed.

Lemma dumps_list (level : nat) (items : list pyval) :
  items <> [] ->
  dumps_at level (PList items)
  = 91 :: newline_indent (S level)
    ++ join (44 :: newline_indent (S level)) (map (dumps_at (S level)) items)
    ++ newline_indent level ++ [93].
Proof. destruct items; [contradiction | reflexivity]. Qed.

Lemma json_export_text (subject : str) (plans : dict str) :
  json_export subject plans = doc_text subject plans.
Proof.
  unfold json_export, dumps, course_data, doc_text.
  rewrite dumps_members.
  change (dumps_at 1 (PStr subject)) with (encode_str subject).
  change (map (fun mp : list N * list N =>
                 PDict [(lit "title", PStr (fst mp));
                        (lit "lesson_plan", PStr (snd mp))]) plans)
    with (map item_value plans).
  destruct plans as [|mp more].
  - unfold encode_str. flatten. reflexivity.
  - rewrite dumps_list by discriminate. unfold array_text.
    rewrite <- (join_items (mp :: more) (newline_indent 0 ++ [125]))
      by discriminate.
    unfold encode_str. flatten. reflexivity.
Qed.

Lemma scan_array (fuel : nat) (plans : dict str) (rest : str) :
  Forall entry_of_code_points plans ->
  (List.length plans + 5 <= fuel)%nat ->
  scan_once fuel (array_text plans rest)
  = Some (PList (map item_value (map rejoined plans)), rest).
Proof.
  intros Hall Hf. destruct fuel as [|f]; [lia|].
  unfold array_text. destruct plans as [|mp more].
  - reflexivity.
  - rewrite scan_once_array.
    assert (Hhead : exists tail, items_text (mp :: more) rest = 123 :: tail).
    { cbn [items_text]. destruct more; unfold item_text; eexists; reflexivity. }
    destruct Hhead as [tail Htail]. rewrite Htail.
    rewrite skip_ws_indent by reflexivity.
    change (123 =? 93) with false. cbv iota. rewrite <- Htail.
    rewrite parse_items; [reflexivity | discriminate | assumption | lia].
Qed.

Lemma length_doc_text (subject : str) (plans : dict str) :
  (List.length plans + 8 <= List.length (doc_text subject plans))%nat.
Proof.
  unfold doc_text, array_text.
  assert (H : (List.length plans
               <= List.length (items_text plans (newline_indent 0 ++ [125%N])))%nat)
    by apply length_items_text.
  destruct plans as [|mp more];
    repeat first [ rewrite length_app | progress cbn [List.length] ].
  - lia.
  - cbn [List.length] in H.
    generalize dependent
      (List.length (items_text (mp :: more) (newline_indent 0 ++ [125]))).
    generalize (List.length more) (List.length (newline_indent 1))
      (List.length (newline_indent 2))
      (List.length (escape (lit "subject"))) (List.length (escape (lit "modules")))
      (List.length (escape subject)).
    intros. lia.
Qed.

(** Reading the export back gives the exported dictionary, with every
    string as it comes back from its escaped form. *)
Lemma loads_doc_text (subject : str) (plans : dict str) :
  code_points subject ->
  Forall entry_of_code_points plans ->
  loads (doc_text subject plans)
  = Some (course_data (rejoin subject) (map rejoined plans)).
Proof.
  intros Hs Hall. unfold loads.
  pose proof (length_doc_text subject plans) as Hlen.
  remember (List.length (doc_text subject plans)) as fuel eqn:Ef. clear Ef.
  destruct fuel as [|[|f]]; try lia.
  unfold doc_text.
  change (startswith [65279] (123 :: ?x)) with false. cbv iota.
  rewrite skip_ws_stop by reflexivity.
  rewrite scan_once_object, skip_ws_indent by reflexivity.
  change (34 =? 125) with false. cbv iota.
  rewrite parse_member_string
    by (assumption || (apply code_points_lit; reflexivity)).
  rewrite skip_ws_stop by reflexivity.
  change (44 =? 125) with false. change (44 =? 44) with true. cbv iota.
  rewrite skip_ws_indent by reflexivity.
  rewrite parse_members_step. change (34 =? 34) with true. cbv iota.
  rewrite scanstring_escape;
    [| apply code_points_lit; reflexivity
     | cbn [List.length]; rewrite length_app;
       pose proof (length_escape (lit "modules")); lia].
  rewrite (skip_ws_stop 58) by reflexivity.
  change (58 =? 58) with true. cbv iota.
  change (skip_ws (32 :: ?x)) with (skip_ws x).
  assert (Hhead : exists tail,
             array_text plans (newline_indent 0 ++ [125]) = 91 :: tail)
    by (unfold array_text; destruct plans; eexists; reflexivity).
  destruct Hhead as [tail Htail]. rewrite Htail.
  rewrite skip_ws_stop by reflexivity. rewrite <- Htail.
  rewrite scan_array by (assumption || lia).
  rewrite skip_ws_indent by reflexivity.
  change (125 =? 125) with true. cbv iota.
  reflexivity.
Qed.

(** The entries come back as they are exactly when every one of them is
    free of split pairs. *)
Lemma rejoined_fixed (plans : dict str) :
  Forall entry_of_code_points plans ->
  (map rejoined plans = plans <-> Forall entry_safe plans).
Proof.
  induction 1 as [|[t p] plans [Ht Hp] _ IH]; [split; [constructor | reflexivity]|].
  cbn [map fst snd] in *. split.
  - intros E. cbn [map] in E. unfold rejoined at 1 in E. cbn [fst snd] in E.
    injection E as Et Ep E2. constructor; [|apply IH, E2].
    split; cbn [fst snd]; [apply rejoin_fixed, Et | apply rejoin_fixed, Ep];
      assumption.
  - intros H. inversion H as [|? ? [Hst Hsp] Hrest]; subst. cbn [fst snd] in *.
    cbn [map]. unfold rejoined at 1. cbn [fst snd].
    apply (rejoin_fixed t Ht) in Hst. apply (rejoin_fixed p Hp) in Hsp.
    rewrite Hst, Hsp. f_equal. apply IH, Hrest.
Qed.

Lemma entries_of_injective (a b : dict str) :
  entries_of a = entries_of b -> a = b.
Proof.
  unfold entries_of. revert b.
  induction a as [|[t p] a IH]; intros [|[t' p'] b] H; try discriminate;
    [reflexivity|].
  cbn [map fst snd] in H. injection H as -> -> H. f_equal. exact (IH b H).
Qed.

End JsonFacts.

Section JsonClaims.
Import Json Exports JsonFacts.

(** C4, as written, fails: the encoder writes a high surrogate followed
    by a low surrogate as two escapes, and the decoder reads two such
    escapes in a row as one character, so the plan text that comes back
    is one code point long instead of two. *)
Lemma json_roundtrip_counterexample :
  ~ (forall (subject : str) (plans : dict str),
        parsed_entries (json_export subject plans) = Some (entries_of plans)).
Proof.
  intros H. specialize (H (lit "ML") split_pair_plans).
  vm_compute in H. discriminate.
Qed.

(** C4, amended.  For every subject and every mapping of N entries
    (strings being Python strings), parsing the JSON export gives back an
    object with a [modules] list of exactly N objects, one per entry and
    in the mapping's order; the [title] and the [lesson_plan] of an
    object are the title and the plan text of its entry as they come
    back from their escaped form, that is, with every high surrogate
    that is immediately followed by a low surrogate read together with
    it as the one code point the two encode.  So the titles and plan
    texts that come back are those of the mapping if and only if no title
    and no plan text of the mapping has a high surrogate immediately
    followed by a low surrogate; what the subject contains does not
    matter. *)
Theorem json_export_roundtrip (subject : str) (plans : dict str) :
  code_points subject ->
  Forall entry_of_code_points plans ->
  loads (json_export subject plans)
  = Some (course_data (rejoin subject) (map rejoined plans))
  /\ parsed_entries (json_export subject plans)
     = Some (entries_of (map rejoined plans))
  /\ (forall entries,
         parsed_entries (json_export subject plans) = Some entries ->
         List.length entries = List.length plans)
  /\ (parsed_entries (json_export subject plans) = Some (entries_of plans)
      <-> Forall entry_safe plans).
Proof.
  intros Hs Hall.
  assert (L : loads (json_export subject plans)
              = Some (course_data (rejoin subject) (map rejoined plans)))
    by (rewrite json_export_text; apply loads_doc_text; assumption).
  assert (E : parsed_entries (json_export subject plans)
              = Some (entries_of (map rejoined plans))).
  { unfold parsed_entries. rewrite L.
    unfold recovered_entries, course_data, entries_of.
    change (dict_get (lit "modules") _)
      with (Some (PList (map item_value (map rejoined plans)))).
    cbv iota. rewrite map_map. reflexivity. }
  split; [exact L|]. split; [exact E|]. split.
  - intros entries H. rewrite E in H. injection H as <-.
    unfold entries_of. rewrite !length_map. reflexivity.
  - rewrite E, <- (rejoined_fixed plans Hall). split.
    + intros H. injection H as H. apply entries_of_injective, H.
    + intros ->. reflexivity.
Qed.

Lemma json_export_roundtrip_witness :
  parsed_entries (json_export split_pair_subject sample_plans)
  = Some (entries_of sample_plans).
Proof.
  refine (proj2 (proj2 (proj2 (proj2 (json_export_roundtrip
                                        split_pair_subject sample_plans _ _))))
            _).
  - repeat constructor.
  - repeat constructor.
  - repeat constructor.
Defined.

End JsonClaims.

(* ================================================================== *)
(** * Further properties of the code *)

(** ** More on the outline parser *)

Module OutlineMore.
Import StrFacts Outline OutlineFacts.

Lemma lstrip_blank (s : str) : blank s -> lstrip s = [].
Proof.
  induction 1 as [|c s Hc _ IH]; [reflexivity|]. cbn [lstrip]. rewrite Hc. exact IH.
Qed.

Lemma strip_nil_iff (s : str) : strip s = [] <-> blank s.
Proof.
  split.
  - intros E. destruct (strip_spec s) as (pre & post & Es & Hpre & Hpost & _).
    rewrite E in Es. cbn [app] in Es. rewrite Es. apply Forall_app. split; assumption.
  - intros H. unfold strip. rewrite (lstrip_blank s H). reflexivity.
Qed.

Lemma blank_pieces (s : str) :
  Forall blank (split NL s) <-> blank s.
Proof.
  unfold blank. induction s as [|c s IH]; cbn [split].
  - split; intros _; repeat constructor.
  - pose proof (split_not_nil NL s) as Hne.
    destruct (N.eqb_spec c NL) as [->|Hc].
    + split.
      * intros H. inversion H; subst. constructor; [reflexivity | apply IH; assumption].
      * intros H. inversion H; subst. constructor; [constructor | apply IH; assumption].
    + destruct (split NL s) as [|piece more]; [contradiction|]. split.
      * intros H. inversion H as [|? ? Hp Hm]; subst. inversion Hp; subst.
        constructor; [assumption|]. apply IH. constructor; assumption.
      * intros H. inversion H as [|? ? Hc' Hs]; subst. apply IH in Hs.
        inversion Hs; subst. constructor; [constructor; assumption | assumption].
Qed.

Lemma trimmed_lines_nil_iff (raw : str) :
  trimmed_nonempty_lines raw = [] <-> blank raw.
Proof.
  rewrite <- blank_pieces. unfold trimmed_nonempty_lines.
  induction (split NL raw) as [|piece more IH]; cbn [map filter].
  - split; intros _; [constructor | reflexivity].
  - destruct (strip piece) as [|c t] eqn:E; cbn [truthy].
    + rewrite IH. split; intros H.
      * constructor; [apply strip_nil_iff; exact E | exact H].
      * inversion H; assumption.
    + split; [discriminate|]. intros H. inversion H as [|? ? Hp _]; subst.
      apply strip_nil_iff in Hp. congruence.
Qed.

End OutlineMore.

Section OutlineCoverage.
Import StrFacts Outline OutlineFacts OutlineMore.

(** X1.  Every module the parser returns is a non-empty string without
    leading or trailing whitespace and without a newline. *)
Theorem modules_are_clean_titles (raw : str) :
  Forall (fun m => m <> [] /\ strip m = m /\ ~ In NL m
                   /\ clean_head m /\ clean_head (rev m))
         (parse_outline raw).
Proof.
  eapply Forall_impl; [|apply parse_outline_tidy].
  intros m [Hne Htrim Hnl]. repeat split; try assumption.
  - intros ->. discriminate.
  - rewrite <- Htrim. apply strip_clean.
  - rewrite <- Htrim. apply strip_clean.
Qed.

(** X2.  The parser returns no module exactly when the outline is blank
    (empty or made of whitespace only). *)
Theorem no_module_iff_blank (raw : str) :
  parse_outline raw = [] <-> blank raw.
Proof.
  rewrite <- trimmed_lines_nil_iff, parse_outline_refines.
  unfold contract_modules. rewrite existsb_filter.
  destruct (filter numbered (trimmed_nonempty_lines raw)) as [|m ms] eqn:E.
  - reflexivity.
  - split; [discriminate|]. intros H. rewrite H in E. discriminate.
Qed.

(** X3.  The modules are all of one kind: either every module matches
    the numbered pattern, or none does and the modules are all the
    trimmed non-empty lines. *)
Theorem modules_are_of_one_kind (raw : str) :
  Forall (fun m => numbered m = true) (parse_outline raw)
  \/ (Forall (fun m => numbered m = false) (parse_outline raw)
      /\ parse_outline raw = trimmed_nonempty_lines raw).
Proof.
  rewrite parse_outline_refines. unfold contract_modules.
  rewrite existsb_filter.
  destruct (filter numbered (trimmed_nonempty_lines raw)) as [|m ms] eqn:E.
  - right. split; [|reflexivity].
    apply Forall_forall. intros x Hx.
    destruct (numbered x) eqn:Hn; [|reflexivity].
    assert (Hin : In x (filter numbered (trimmed_nonempty_lines raw)))
      by (apply filter_In; split; assumption).
    rewrite E in Hin. contradiction.
  - left. rewrite <- E. apply Forall_forall. intros x Hx.
    apply filter_In in Hx. tauto.
Qed.

End OutlineCoverage.

(** ** More on the two fetchers *)

Module FetchMore.
Import Flow FetchFacts.
Local Open Scope flow_scope.

Lemma titles_of_present (items titles : list pyval) :
  Forall2 has_title items titles ->
  titles_of (lit "title") items = Returned titles.
Proof.
  induction 1 as [|item t items titles (fields & -> & Ht) _ IH]; [reflexivity|].
  cbn [titles_of py_getitem]. rewrite Ht, IH. reflexivity.
Qed.

Lemma titles_of_missing (before after titles : list pyval)
      (fields : list (list N * pyval)) :
  Forall2 has_title before titles ->
  dict_get (lit "title") fields = None ->
  titles_of (lit "title") (before ++ PDict fields :: after)
  = Raised (KeyError (lit "title")).
Proof.
  intros Hb Hf.
  induction Hb as [|item t items ts (fields' & -> & Ht) _ IH]; cbn [app titles_of py_getitem].
  - rewrite Hf. reflexivity.
  - rewrite Ht, IH. reflexivity.
Qed.

Lemma status_is_error (status : N) :
  400 <= status -> status < 600 -> (400 <=? status) && (status <? 600) = true.
Proof.
  intros H1 H2. apply andb_true_iff. split; [apply N.leb_le | apply N.ltb_lt]; assumption.
Qed.

Lemma status_is_fine (status : N) :
  status < 400 \/ 600 <= status -> (400 <=? status) && (status <? 600) = false.
Proof.
  intros [H|H]; apply andb_false_iff; [left; apply N.leb_gt | right; apply N.ltb_ge];
    assumption.
Qed.

Ltac extended s :=
  cbn [fst snd log llm_calls]; do 2 eexists;
  split; [rewrite <- ?(app_assoc (log s)); cbn [app]; reflexivity | reflexivity].

(** The paper fetcher always returns, leaves the completion counter
    alone and only adds to the log. *)
Lemma scholar_extends (w : World) (subject : str) (s : state) :
  exists added papers,
    fetch_semantic_scholar_data w subject s
    = ({| log := log s ++ added; llm_calls := llm_calls s |}, Returned papers)
    /\ requests_of added = [HttpGet SemanticScholar subject].
Proof.
  unfold fetch_semantic_scholar_data, scholar_request, http_get, raise_for_status,
    try_except, bind, emit, lift, ret, raise.
  cbn [fst snd log llm_calls].
  destruct (requests_get w SemanticScholar subject) as [e|resp]; [extended s|].
  destruct ((400 <=? status_code resp) && (status_code resp <? 600));
    [extended s|].
  cbn [fst snd log llm_calls].
  destruct (json_body resp) as [e|data]; [extended s|].
  destruct (extract_titles data (lit "data")) as [e|papers]; extended s.
Qed.

(** The same for the news part of [fetch_external_data]. *)
Lemma news_extends (w : World) (subject : str) (s : state) :
  exists added news,
    try_except (news_request w subject)
      (fun e => emit (StError (lit "Error fetching news data: ") e) ;; ret []) s
    = ({| log := log s ++ added; llm_calls := llm_calls s |}, Returned news)
    /\ requests_of added = [HttpGet NewsApi subject].
Proof.
  unfold news_request, http_get, try_except, bind, emit, lift, ret, raise.
  cbn [fst snd log llm_calls].
  destruct (requests_get w NewsApi subject) as [e|resp]; [extended s|].
  destruct (json_body resp) as [e|data]; [extended s|].
  destruct (extract_titles data (lit "articles")) as [e|titles]; extended s.
Qed.

End FetchMore.

Section FetchCoverage.
Import Flow FetchFacts FetchMore.
Local Open Scope flow_scope.

(** X4.  When the paper search answers with a status from 400 to 599,
    the paper fetcher shows the HTTP error and returns the empty list,
    whatever the body of the response. *)
Theorem paper_error_status_gives_no_titles
        (w : World) (subject : str) (s : state) (resp : response) :
  requests_get w SemanticScholar subject = Returned resp ->
  400 <= status_code resp -> status_code resp < 600 ->
  fetch_semantic_scholar_data w subject s
  = ({| log := (log s ++ [HttpGet SemanticScholar subject])
               ++ [StError (lit "Error fetching Semantic Scholar data: ")
                           (HTTPError (status_code resp))];
        llm_calls := llm_calls s |},
     Returned []).
Proof.
  intros Hget H1 H2.
  unfold fetch_semantic_scholar_data, scholar_request, http_get, raise_for_status,
    try_except, bind, emit, lift, ret, raise.
  cbn [fst snd log llm_calls]. rewrite Hget, (status_is_error _ H1 H2). reflexivity.
Qed.

Lemma paper_error_status_gives_no_titles_witness :
  snd (fetch_semantic_scholar_data unauthorized (lit "Machine Learning") initial)
  = Returned [].
Proof.
  rewrite (paper_error_status_gives_no_titles unauthorized (lit "Machine Learning")
             initial {| status_code := 429;
                        json_body := Returned (PDict [ (lit "message",
                                                        PStr (lit "Too Many Requests")) ]) |}
             eq_refl); [reflexivity | discriminate | reflexivity].
Defined.

(** X5.  The news part of [fetch_external_data] does not look at the
    status of the response: when the body is a JSON object without an
    ["articles"] key (as an error answer is), the news list is empty and
    the fetch is reported as a success, not as an error. *)
Theorem news_without_articles_is_a_success
        (w : World) (subject : str) (s : state) (resp : response)
        (members : list (list N * pyval)) :
  requests_get w NewsApi subject = Returned resp ->
  json_body resp = Returned (PDict members) ->
  dict_get (lit "articles") members = None ->
  exists s' papers later,
    fetch_external_data w subject s = (s', Returned ([], papers))
    /\ log s'
       = log s
         ++ [ StStatus (lit "Fetching news data...");
              HttpGet NewsApi subject;
              StatusUpdate (lit "News data fetched successfully") true;
              StSuccess (lit "News data fetched successfully") ]
         ++ later.
Proof.
  intros Hget Hbody Hkey.
  unfold fetch_external_data. rewrite bind_emit. cbv beta.
  assert (Hnews : forall st,
             try_except (news_request w subject)
               (fun e => emit (StError (lit "Error fetching news data: ") e) ;; ret []) st
             = ({| log := ((log st ++ [HttpGet NewsApi subject])
                           ++ [StatusUpdate (lit "News data fetched successfully") true])
                          ++ [StSuccess (lit "News data fetched successfully")];
                   llm_calls := llm_calls st |}, Returned [])).
  { intros st.
    unfold news_request, http_get, try_except, bind, emit, lift, ret,
      extract_titles, py_get_or_empty.
    cbn [fst snd log llm_calls]. rewrite Hget. cbn [fst snd log llm_calls].
    rewrite Hbody, Hkey. reflexivity. }
  rewrite (bind_returned _ _ _ _ _ (Hnews _)). rewrite bind_emit. cbv beta.
  cbn [log llm_calls].
  match goal with |- context [bind (fetch_semantic_scholar_data w subject) _ ?st] =>
    destruct (scholar_extends w subject st) as (added & papers & Hs & _)
  end.
  rewrite (bind_returned _ _ _ _ _ Hs). unfold ret.
  eexists _, papers, _. split; [reflexivity|].
  cbn [log]. rewrite <- !app_assoc. reflexivity.
Qed.

Lemma news_without_articles_is_a_success_witness :
  exists s' papers,
    fetch_external_data unauthorized (lit "Machine Learning") initial
    = (s', Returned ([], papers))
    /\ In (StSuccess (lit "News data fetched successfully")) (log s').
Proof.
  destruct (news_without_articles_is_a_success
              unauthorized (lit "Machine Learning") initial _ _ eq_refl eq_refl eq_refl)
    as (s' & papers & later & Hf & Hl).
  exists s', papers. split; [exact Hf|].
  rewrite Hl. right. right. right. left. reflexivity.
Defined.

(** X6.  One paper without a ["title"] loses all the titles: the paper
    fetcher shows a [KeyError] and returns the empty list, also when the
    papers before it have titles. *)
Theorem paper_without_title_loses_all
        (w : World) (subject : str) (s : state) (resp : response)
        (members fields : list (list N * pyval))
        (before after titles : list pyval) :
  requests_get w SemanticScholar subject = Returned resp ->
  status_code resp < 400 \/ 600 <= status_code resp ->
  json_body resp = Returned (PDict members) ->
  dict_get (lit "data") members = Some (PList (before ++ PDict fields :: after)) ->
  Forall2 has_title before titles ->
  dict_get (lit "title") fields = None ->
  fetch_semantic_scholar_data w subject s
  = ({| log := (log s ++ [HttpGet SemanticScholar subject])
               ++ [StError (lit "Error fetching Semantic Scholar data: ")
                           (KeyError (lit "title"))];
        llm_calls := llm_calls s |},
     Returned []).
Proof.
  intros Hget Hst Hbody Hdata Hbefore Hfields.
  unfold fetch_semantic_scholar_data, scholar_request, http_get, raise_for_status,
    try_except, bind, emit, lift, ret, raise, extract_titles, py_get_or_empty.
  cbn [fst snd log llm_calls]. rewrite Hget, (status_is_fine _ Hst).
  cbn [fst snd log llm_calls]. rewrite Hbody, Hdata. cbn [py_iter].
  rewrite (titles_of_missing _ _ _ _ Hbefore Hfields). reflexivity.
Qed.

Lemma paper_without_title_loses_all_witness :
  snd (fetch_semantic_scholar_data patchy (lit "Machine Learning") initial)
  = Returned [].
Proof.
  pose (items := [ PDict [ (lit "title", PStr (lit "Attention")) ];
                   PDict [ (lit "year", PInt 2017) ] ]).
  rewrite (paper_without_title_loses_all patchy (lit "Machine Learning") initial
             {| status_code := 200;
                json_body := Returned (PDict [ (lit "data", PList items) ]) |}
             [ (lit "data", PList items) ]
             [ (lit "year", PInt 2017) ]
             [ PDict [ (lit "title", PStr (lit "Attention")) ] ] []
             [ PStr (lit "Attention") ] eq_refl);
    [ reflexivity | left; reflexivity | reflexivity | reflexivity
    | repeat constructor; eexists; split; reflexivity | reflexivity ].
Defined.

(** X7.  When the paper search answers with a status outside 400..599
    and a JSON object whose ["data"] is a list of objects that all have a
    ["title"], the paper fetcher reports success and returns these
    titles, in the order of the list. *)
Theorem paper_titles_in_order
        (w : World) (subject : str) (s : state) (resp : response)
        (members : list (list N * pyval)) (items titles : list pyval) :
  requests_get w SemanticScholar subject = Returned resp ->
  status_code resp < 400 \/ 600 <= status_code resp ->
  json_body resp = Returned (PDict members) ->
  dict_get (lit "data") members = Some (PList items) ->
  Forall2 has_title items titles ->
  fetch_semantic_scholar_data w subject s
  = ({| log := (log s ++ [HttpGet SemanticScholar subject])
               ++ [StSuccess (lit "Semantic Scholar data fetched successfully")];
        llm_calls := llm_calls s |},
     Returned titles).
Proof.
  intros Hget Hst Hbody Hdata Htitles.
  unfold fetch_semantic_scholar_data, scholar_request, http_get, raise_for_status,
    try_except, bind, emit, lift, ret, raise, extract_titles, py_get_or_empty.
  cbn [fst snd log llm_calls]. rewrite Hget, (status_is_fine _ Hst).
  cbn [fst snd log llm_calls]. rewrite Hbody, Hdata. cbn [py_iter].
  rewrite (titles_of_present _ _ Htitles). reflexivity.
Qed.

Lemma paper_titles_in_order_witness :
  snd (fetch_semantic_scholar_data cooperative (lit "Machine Learning") initial)
  = Returned [ PStr (lit "Attention") ].
Proof.
  pose (items := [ PDict [ (lit "title", PStr (lit "Attention")) ] ]).
  rewrite (paper_titles_in_order cooperative (lit "Machine Learning") initial
             {| status_code := 200;
                json_body := Returned (PDict [ (lit "data", PList items) ]) |}
             [ (lit "data", PList items) ] items
             [ PStr (lit "Attention") ] eq_refl);
    [ reflexivity | left; reflexivity | reflexivity | reflexivity
    | repeat constructor; eexists; split; reflexivity ].
Defined.

(** X8.  However the two searches end, [fetch_external_data] sends
    exactly two requests, the news search and then the paper search, both
    for the subject, and makes no chat completion. *)
Theorem fetch_sends_two_requests (w : World) (subject : str) (s : state) :
  requests_of (log (fst (fetch_external_data w subject s)))
  = requests_of (log s)
    ++ [HttpGet NewsApi subject; HttpGet SemanticScholar subject]
  /\ llm_calls (fst (fetch_external_data w subject s)) = llm_calls s.
Proof.
  unfold fetch_external_data. rewrite bind_emit. cbv beta.
  match goal with |- context [bind (try_except _ _) _ ?st] =>
    destruct (news_extends w subject st) as (a1 & news & Hn & Hr1)
  end.
  rewrite (bind_returned _ _ _ _ _ Hn). rewrite bind_emit. cbv beta.
  cbn [log llm_calls].
  match goal with |- context [bind (fetch_semantic_scholar_data w subject) _ ?st] =>
    destruct (scholar_extends w subject st) as (a2 & papers & Hs & Hr2)
  end.
  rewrite (bind_returned _ _ _ _ _ Hs). unfold ret. cbn [fst log llm_calls].
  split; [|reflexivity].
  rewrite !requests_of_app, Hr1, Hr2. cbn [requests_of filter is_request app].
  rewrite <- !app_assoc. cbn [app]. reflexivity.
Qed.

(** X17.  A news answer whose JSON body is not an object (a list, a
    string, a number, null) has no [get] method: the news list is empty
    and the error shown is an [AttributeError]. *)
Theorem news_body_that_is_no_object
        (w : World) (subject : str) (s : state) (resp : response) (body : pyval) :
  requests_get w NewsApi subject = Returned resp ->
  json_body resp = Returned body ->
  (forall members, body <> PDict members) ->
  exists s' papers later,
    fetch_external_data w subject s = (s', Returned ([], papers))
    /\ log s'
       = log s
         ++ [ StStatus (lit "Fetching news data...");
              HttpGet NewsApi subject;
              StError (lit "Error fetching news data: ") AttributeError ]
         ++ later.
Proof.
  intros Hget Hbody Hno.
  unfold fetch_external_data. rewrite bind_emit. cbv beta.
  assert (Hnews : forall st,
             try_except (news_request w subject)
               (fun e => emit (StError (lit "Error fetching news data: ") e) ;; ret []) st
             = ({| log := (log st ++ [HttpGet NewsApi subject])
                          ++ [StError (lit "Error fetching news data: ") AttributeError];
                   llm_calls := llm_calls st |}, Returned [])).
  { intros st.
    unfold news_request, http_get, try_except, bind, emit, lift, ret,
      extract_titles, py_get_or_empty.
    cbn [fst snd log llm_calls]. rewrite Hget. cbn [fst snd log llm_calls].
    rewrite Hbody. destruct body; try reflexivity.
    contradiction (Hno members). reflexivity. }
  rewrite (bind_returned _ _ _ _ _ (Hnews _)). rewrite bind_emit. cbv beta.
  cbn [log llm_calls].
  match goal with |- context [bind (fetch_semantic_scholar_data w subject) _ ?st] =>
    destruct (scholar_extends w subject st) as (added & papers & Hs & _)
  end.
  rewrite (bind_returned _ _ _ _ _ Hs). unfold ret.
  eexists _, papers, _. split; [reflexivity|].
  cbn [log]. rewrite <- !app_assoc. reflexivity.
Qed.

Lemma news_body_that_is_no_object_witness :
  exists s' papers,
    fetch_external_data listing (lit "Machine Learning") initial
    = (s', Returned ([], papers))
    /\ In (StError (lit "Error fetching news data: ") AttributeError) (log s').
Proof.
  destruct (news_body_that_is_no_object
              listing (lit "Machine Learning") initial
              {| status_code := 200;
                 json_body := Returned (PList [ PStr (lit "Chips") ]) |}
              (PList [ PStr (lit "Chips") ]) eq_refl eq_refl)
    as (s' & papers & later & Hf & Hl).
  - intros members. discriminate.
  - exists s', papers. split; [exact Hf|].
    rewrite Hl. right. right. left. reflexivity.
Defined.

End FetchCoverage.

(** ** More on the flow: context, requests, progress, downloads *)

Module FlowMore.
Import Flow StrFacts Outline OutlineFacts FetchFacts FetchMore LlmFacts LoopFacts.
Local Open Scope flow_scope.
Local Open Scope nat_scope.

Lemma state_eta (s : state) : {| log := log s; llm_calls := llm_calls s |} = s.
Proof. destruct s; reflexivity. Qed.

Lemma write_items_log (items : list (nat * pyval)) (s : state) :
  write_items items s
  = ({| log := log s ++ map (fun ix => StWriteItem (fst ix) (snd ix)) items;
        llm_calls := llm_calls s |}, Returned tt).
Proof.
  revert s. induction items as [|[i item] more IH]; intros s.
  - cbn [write_items map]. rewrite app_nil_r, state_eta. reflexivity.
  - cbn [write_items]. rewrite bind_emit, IH. cbn [log llm_calls map fst snd].
    rewrite <- app_assoc. reflexivity.
Qed.

Lemma show_titles_log (label : str) (titles : list pyval) (s : state) :
  show_titles label titles s
  = ({| log := log s ++ expander_events label titles; llm_calls := llm_calls s |},
     Returned tt).
Proof.
  unfold show_titles, expander_events. destruct titles as [|t more].
  - rewrite app_nil_r, state_eta. reflexivity.
  - rewrite bind_emit, write_items_log. cbn [log llm_calls].
    rewrite <- app_assoc. reflexivity.
Qed.

Lemma py_strings_map (l : list str) : py_strings (map PStr l) = Returned l.
Proof.
  induction l as [|x l IH]; [reflexivity|]. cbn [map py_strings]. rewrite IH.
  reflexivity.
Qed.

(** Joining titles fails only on a title that is not a string, and then
    with [TypeError]. *)
Lemma py_strings_cases (items : list pyval) :
  (exists ss, items = map PStr ss /\ py_strings items = Returned ss)
  \/ (py_strings items = Raised TypeError
      /\ exists item, In item items /\ not_a_string item).
Proof.
  induction items as [|item more IH].
  - left. exists []. split; reflexivity.
  - destruct item as [| b | z | f | t | l | d];
      try (right; split; [reflexivity|]; eexists; split; [left; reflexivity|];
           intros t; discriminate).
    cbn [py_strings]. destruct IH as [(ss & -> & E)|(E & item & Hin & Hns)].
    + left. exists (t :: ss). rewrite E. split; reflexivity.
    + right. rewrite E. split; [reflexivity|]. exists item. split; [right|]; assumption.
Qed.

Lemma py_strings_bad (items : list pyval) (item : pyval) :
  In item items -> not_a_string item -> py_strings items = Raised TypeError.
Proof.
  intros Hin Hns. destruct (py_strings_cases items) as [(ss & -> & _)|[E _]];
    [|exact E].
  apply in_map_iff in Hin. destruct Hin as (t & <- & _).
  contradiction (Hns t). reflexivity.
Qed.

Lemma expander_requests (label : str) (titles : list pyval) :
  requests_of (expander_events label titles) = [].
Proof.
  unfold expander_events. destruct titles as [|t more]; [reflexivity|].
  cbn [requests_of filter is_request].
  generalize (Exports.enumerate 1 (t :: more)) as l.
  induction l as [|x l IH]; [reflexivity | exact IH].
Qed.

(** The context stage only adds to the log, sends nothing and leaves
    the completion counter alone. *)
Lemma combine_extends (data : list pyval * list pyval) (s : state) :
  exists added,
    fst (combine_external_context data s)
    = {| log := log s ++ added; llm_calls := llm_calls s |}
    /\ requests_of added = [].
Proof.
  destruct data as [news papers]. unfold combine_external_context.
  rewrite (bind_returned _ _ _ _ _ (show_titles_log _ news s)).
  rewrite (bind_returned _ _ _ _ _ (show_titles_log _ papers _)).
  cbn [log llm_calls].
  exists (expander_events (lit "News Headlines") news
          ++ expander_events (lit "Research Papers") papers).
  split; [|rewrite requests_of_app, !expander_requests; reflexivity].
  unfold bind, lift, ret, py_join.
  destruct (py_strings news); cbn [fst];
    [rewrite <- app_assoc; reflexivity|].
  destruct (py_strings papers); cbn [fst]; rewrite <- app_assoc; reflexivity.
Qed.

Lemma prompts_of_requests (events : list event) :
  prompts_of events = prompts_of (requests_of events).
Proof.
  induction events as [|e events IH]; [reflexivity|].
  destruct e; cbn [prompts_of requests_of filter is_request] in *;
    rewrite ?IH; reflexivity.
Qed.

(** The enrichment stage as a whole. *)
Lemma fetch_extends (w : World) (subject : str) (s : state) :
  exists added news papers,
    fetch_external_data w subject s
    = ({| log := log s ++ added; llm_calls := llm_calls s |},
       Returned (news, papers))
    /\ requests_of added
       = [HttpGet NewsApi subject; HttpGet SemanticScholar subject].
Proof.
  unfold fetch_external_data. rewrite bind_emit. cbv beta.
  match goal with |- context [bind (try_except _ _) _ ?st] =>
    destruct (news_extends w subject st) as (a1 & news & Hn & Hr1)
  end.
  rewrite (bind_returned _ _ _ _ _ Hn). rewrite bind_emit. cbv beta.
  cbn [log llm_calls].
  match goal with |- context [bind (fetch_semantic_scholar_data w subject) _ ?st] =>
    destruct (scholar_extends w subject st) as (a2 & papers & Hs & Hr2)
  end.
  rewrite (bind_returned _ _ _ _ _ Hs). unfold ret. cbn [log llm_calls].
  exists ([StStatus (lit "Fetching news data...")] ++ a1
          ++ [StatusUpdate (lit "Fetching Semantic Scholar data...") false] ++ a2),
    news, papers.
  split; [rewrite <- !app_assoc; reflexivity|].
  rewrite !requests_of_app, Hr1, Hr2. reflexivity.
Qed.

(** The outline stage: one completion, whose text is trimmed. *)
Lemma outline_step (w : World) (subject : str) (count : nat) (context : str)
      (s : state) :
  generate_course_outline w subject count context s
  = match completion w (llm_calls s) (outline_prompt context subject count) with
    | Raised e =>
        ({| log := (log s ++ [StStatus (lit "Generating course outline...")])
                   ++ [LlmCall (llm_calls s) (outline_prompt context subject count)];
            llm_calls := S (llm_calls s) |}, Raised e)
    | Returned content =>
        ({| log := ((log s ++ [StStatus (lit "Generating course outline...")])
                    ++ [LlmCall (llm_calls s) (outline_prompt context subject count)])
                   ++ [StatusUpdate (lit "Course outline generated") true];
            llm_calls := S (llm_calls s) |}, Returned (strip content))
    end.
Proof.
  unfold generate_course_outline. rewrite bind_emit. unfold bind at 1, llm.
  cbn [log llm_calls].
  destruct (completion w (llm_calls s) (outline_prompt context subject count));
    reflexivity.
Qed.

(** The loop, when it returns, logged exactly [loop_events]. *)
Lemma loop_returned_log (w : World) (total : nat) (selected : list str) :
  forall i plans s s' plans',
    lesson_loop w total (Exports.enumerate i selected) plans s
    = (s', Returned plans') ->
    log s' = log s ++ loop_events total (llm_calls s) i selected
    /\ llm_calls s' = llm_calls s + List.length selected.
Proof.
  induction selected as [|module more IH]; intros i plans s s' plans' H.
  - cbn [Exports.enumerate lesson_loop] in H. injection H as <- _.
    cbn [loop_events List.length]. rewrite app_nil_r, Nat.add_0_r. split; reflexivity.
  - cbn [Exports.enumerate] in H. rewrite loop_step in H.
    destruct (completion w (llm_calls s) (lesson_prompt module)) as [e|c];
      [discriminate|].
    apply IH in H. cbn [log llm_calls after_call] in H. destruct H as [Hl Hc].
    split.
    + rewrite Hl. cbn [loop_events]. rewrite <- !app_assoc. reflexivity.
    + rewrite Hc. cbn [List.length]. lia.
Qed.

Lemma loop_events_requests (total : nat) (selected : list str) :
  forall n i, requests_of (loop_events total n i selected) = lesson_calls n selected.
Proof.
  induction selected as [|module more IH]; intros n i; [reflexivity|].
  cbn [loop_events lesson_calls requests_of filter is_request].
  f_equal. apply IH.
Qed.

Lemma loop_events_progress (total : nat) (selected : list str) :
  forall n i,
    progress_of (loop_events total n i selected)
    = map (fun k => (k + 1, total)) (seq i (List.length selected)).
Proof.
  induction selected as [|module more IH]; intros n i; [reflexivity|].
  cbn [loop_events progress_of List.length seq map]. f_equal. apply IH.
Qed.

Lemma progress_of_app (a b : list event) :
  progress_of (a ++ b) = progress_of a ++ progress_of b.
Proof.
  induction a as [|e a IH]; [reflexivity|].
  destruct e; cbn [app progress_of]; rewrite ?IH; reflexivity.
Qed.

(** [generate_lesson_plans], when it returns. *)
Lemma lesson_plans_returned_log (w : World) (outline : str) (s s' : state)
      (plans : dict (list N)) :
  generate_lesson_plans w outline s = (s', Returned plans) ->
  log s'
  = log s
    ++ [StSubheader (lit "Course Outline"); StMarkdown outline; StProgress 0 1]
    ++ loop_events (List.length (multiselect w (parse_outline outline)))
                   (llm_calls s) 0 (multiselect w (parse_outline outline))
    ++ [StText (lit "All lesson plans generated!")]
  /\ llm_calls s'
     = llm_calls s + List.length (multiselect w (parse_outline outline)).
Proof.
  intros H. rewrite generate_lesson_plans_unfold in H. cbv zeta in H.
  match type of H with context [lesson_loop w ?t ?todo ?p ?st] =>
    destruct (lesson_loop w t todo p st) as [s1 [e|plans1]] eqn:El
  end; cbn [fst snd] in H; [discriminate|].
  injection H as <- _. apply loop_returned_log in El.
  cbn [log llm_calls] in *. destruct El as [-> ->].
  split; [rewrite <- !app_assoc; reflexivity | reflexivity].
Qed.

End FlowMore.

Section FlowCoverage.
Import Flow StrFacts Outline OutlineFacts FetchFacts FetchMore LlmFacts LoopFacts
       FlowMore.
Local Open Scope flow_scope.
Local Open Scope nat_scope.

(** X9.  On titles that are all strings the context stage never raises:
    it returns the two clauses with the titles joined by a comma and a
    space, in order, and shows each non-empty list in its own expander,
    numbered from 1; an empty list gets no expander. *)
Theorem context_of_string_titles (news papers : list (list N)) (s : state) :
  combine_external_context (map PStr news, map PStr papers) s
  = ({| log := log s
               ++ expander_events (lit "News Headlines") (map PStr news)
               ++ expander_events (lit "Research Papers") (map PStr papers);
        llm_calls := llm_calls s |},
     Returned (context_of news papers)).
Proof.
  unfold combine_external_context.
  rewrite (bind_returned _ _ _ _ _ (show_titles_log _ _ s)).
  rewrite (bind_returned _ _ _ _ _ (show_titles_log _ _ _)).
  unfold bind, lift, ret, py_join. rewrite !py_strings_map.
  cbn [log llm_calls]. rewrite <- app_assoc. reflexivity.
Qed.

(** X10.  A title that is not a string (a JSON null, a number) in either
    list makes the context stage raise [TypeError]; the flow stops there,
    before any chat completion is made. *)
Theorem non_string_title_stops_the_flow
        (w : World) (subject : str) (count : nat) (s s1 : state)
        (news papers : list pyval) (item : pyval) :
  fetch_external_data w subject s = (s1, Returned (news, papers)) ->
  In item (news ++ papers) ->
  not_a_string item ->
  snd (kickoff w subject count s) = Raised TypeError
  /\ llm_calls (fst (kickoff w subject count s)) = llm_calls s1
  /\ prompts_of (log (fst (kickoff w subject count s))) = prompts_of (log s1).
Proof.
  intros Hf Hin Hns.
  unfold kickoff, get_subject. rewrite (bind_returned _ _ _ _ subject eq_refl).
  rewrite (bind_returned _ _ _ _ _ Hf). unfold after_fetch.
  destruct (combine_extends (news, papers) s1) as (added & Hlog & Hreq).
  assert (Hr : snd (combine_external_context (news, papers) s1) = Raised TypeError).
  { unfold combine_external_context.
    rewrite (bind_returned _ _ _ _ _ (show_titles_log _ news s1)).
    rewrite (bind_returned _ _ _ _ _ (show_titles_log _ papers _)).
    unfold bind, lift, ret, py_join.
    destruct (py_strings_cases news) as [(ns & En & ->)|[-> _]]; [|reflexivity].
    cbn [snd].
    assert (Hp : In item papers).
    { apply in_app_or in Hin. destruct Hin as [Hin|Hin]; [|exact Hin].
      rewrite En in Hin. apply in_map_iff in Hin. destruct Hin as (t & <- & _).
      contradiction (Hns t). reflexivity. }
    rewrite (py_strings_bad papers item Hp Hns). reflexivity. }
  destruct (combine_external_context (news, papers) s1) as [s2 r] eqn:Ec.
  cbn [fst snd] in Hlog, Hr. subst r s2.
  rewrite (bind_raised _ _ _ _ _ Ec). cbn [fst snd log llm_calls].
  repeat split.
  rewrite prompts_of_app, (prompts_of_requests added), Hreq. apply app_nil_r.
Qed.

Lemma non_string_title_stops_the_flow_witness :
  snd (kickoff patchy (lit "Machine Learning") 3 initial) = Raised TypeError
  /\ prompts_of (log (fst (kickoff patchy (lit "Machine Learning") 3 initial))) = [].
Proof.
  destruct (non_string_title_stops_the_flow patchy (lit "Machine Learning") 3 initial
              (fst (fetch_external_data patchy (lit "Machine Learning") initial))
              [PNone; PStr (lit "Chips")] [] PNone eq_refl)
    as (Hr & _ & Hp).
  - left. reflexivity.
  - intros t. discriminate.
  - split; [exact Hr | exact Hp].
Defined.

(** X11.  A run of the flow that returns sent, in this order: the news
    search, the paper search, one completion for the outline, and one
    completion per selected module in the order of the selection, each
    with that module's lesson prompt; the modules offered for selection
    are those parsed from the trimmed text of the first completion. *)
Theorem successful_flow_requests
        (w : World) (subject : str) (count : nat) (s s' : state)
        (plans : dict (list N)) :
  kickoff w subject count s = (s', Returned plans) ->
  exists context content,
    completion w (llm_calls s) (outline_prompt context subject count)
    = Returned content
    /\ requests_of (log s')
       = requests_of (log s)
         ++ [ HttpGet NewsApi subject; HttpGet SemanticScholar subject;
              LlmCall (llm_calls s) (outline_prompt context subject count) ]
         ++ lesson_calls (S (llm_calls s))
                         (multiselect w (parse_outline (strip content)))
    /\ llm_calls s'
       = llm_calls s + 1
         + List.length (multiselect w (parse_outline (strip content))).
Proof.
  intros H. unfold kickoff, get_subject in H.
  rewrite (bind_returned _ _ _ _ subject eq_refl) in H.
  destruct (fetch_extends w subject s) as (a1 & news & papers & Hf & Hr1).
  rewrite (bind_returned _ _ _ _ _ Hf) in H. unfold after_fetch in H.
  match type of H with context [bind (combine_external_context ?d) _ ?st] =>
    destruct (combine_extends d st) as (a2 & Hc & Hr2);
    destruct (combine_external_context d st) as [s2 [e|context]] eqn:Ec
  end; [rewrite (bind_raised _ _ _ _ _ Ec) in H; discriminate|].
  rewrite (bind_returned _ _ _ _ _ Ec) in H. cbn [fst log llm_calls] in Hc.
  subst s2. unfold bind at 1 in H. rewrite outline_step in H.
  cbn [log llm_calls] in H.
  destruct (completion w (llm_calls s) (outline_prompt context subject count))
    as [e|content] eqn:E0; [discriminate|].
  exists context, content. split; [exact E0|].
  apply lesson_plans_returned_log in H. cbn [log llm_calls] in H.
  destruct H as [-> ->]. split; [|lia].
  rewrite !requests_of_app, Hr1, Hr2, loop_events_requests.
  cbn [requests_of filter is_request app]. rewrite <- !app_assoc.
  cbn [app]. rewrite app_nil_r. reflexivity.
Qed.

Lemma successful_flow_requests_witness :
  exists context,
    requests_of (log (fst (kickoff cooperative (lit "ML") 2 initial)))
    = [ HttpGet NewsApi (lit "ML"); HttpGet SemanticScholar (lit "ML");
        LlmCall 0 (outline_prompt context (lit "ML") 2);
        LlmCall 1 (lesson_prompt (lit "1. Basics"));
        LlmCall 2 (lesson_prompt (lit "2. Advanced")) ].
Proof.
  destruct (successful_flow_requests cooperative (lit "ML") 2 initial
              (fst (kickoff cooperative (lit "ML") 2 initial))
              [ (lit "1. Basics", lit "Plan 1"); (lit "2. Advanced", lit "Plan 2") ]
              eq_refl)
    as (context & content & Hc & Hr & _).
  exists context. cbn [completion cooperative llm_calls initial] in Hc.
  injection Hc as <-. exact Hr.
Defined.

(** X12.  When [generate_lesson_plans] returns for n selected modules,
    the progress bar was set to 0 and then to 1/n, 2/n, ..., n/n, in this
    order, once per module. *)
Theorem progress_counts_the_modules
        (w : World) (outline : str) (s s' : state) (plans : dict (list N)) :
  generate_lesson_plans w outline s = (s', Returned plans) ->
  exists added,
    log s' = log s ++ added
    /\ progress_of added
       = (0, 1)
         :: map (fun k => (k + 1, List.length (multiselect w (parse_outline outline))))
                (seq 0 (List.length (multiselect w (parse_outline outline)))).
Proof.
  intros H. apply lesson_plans_returned_log in H. destruct H as [Hl _].
  eexists. split; [exact Hl|].
  rewrite !progress_of_app, loop_events_progress. cbn [progress_of app].
  rewrite app_nil_r. reflexivity.
Qed.

Lemma progress_counts_the_modules_witness :
  exists added,
    log (fst (generate_lesson_plans numbering two_modules initial)) = added
    /\ progress_of added = [(0, 1); (1, 2); (2, 2)].
Proof.
  destruct (progress_counts_the_modules numbering two_modules initial
              (fst (generate_lesson_plans numbering two_modules initial))
              [ (lit "1. Basics", lit "0"); (lit "2. Advanced", lit "1") ] eq_refl)
    as (added & Hl & Hp).
  exists added. split; [exact Hl | exact Hp].
Defined.

End FlowCoverage.

(** ** More on [main] and the export renderers *)

Module ExportMore.
Import Flow Json Exports StrFacts FetchFacts LlmFacts JsonFacts.
Local Open Scope flow_scope.

Lemma ascii_char_iff (c : N) :
  ascii_char c = true <-> c = 10 \/ (32 <= c /\ c <= 126).
Proof.
  unfold ascii_char.
  rewrite orb_true_iff, andb_true_iff, N.eqb_eq, !N.leb_le. reflexivity.
Qed.

Lemma ascii_hex_digit (x : N) : ascii_char (hex_digit (N.land x 15)) = true.
Proof.
  rewrite land_15. pose proof (N.mod_lt x 16 ltac:(discriminate)) as H.
  generalize dependent (x mod 16). intros d H.
  apply ascii_char_iff. right. unfold hex_digit.
  destruct (N.ltb_spec d 10); lia.
Qed.

Lemma ascii_u_escape (u : N) : forallb ascii_char (u_escape u) = true.
Proof.
  unfold u_escape. cbn [forallb]. rewrite !ascii_hex_digit. reflexivity.
Qed.

Lemma ascii_escape_char (c : N) : forallb ascii_char (escape_char c) = true.
Proof.
  unfold escape_char.
  repeat match goal with
         | |- context [if ?x =? ?k then _ else _] =>
             destruct (x =? k); [reflexivity|]
         end.
  destruct ((32 <=? c) && (c <=? 126)) eqn:Hp.
  - cbn [forallb]. unfold ascii_char. rewrite Hp, orb_true_r. reflexivity.
  - destruct (c <? 65536); [apply ascii_u_escape|].
    rewrite forallb_app, !ascii_u_escape. reflexivity.
Qed.

Lemma ascii_escape (s : list N) : forallb ascii_char (escape s) = true.
Proof.
  unfold escape. induction s as [|c s IH]; [reflexivity|].
  cbn [flat_map]. rewrite forallb_app, ascii_escape_char, IH. reflexivity.
Qed.

Lemma ascii_indent (level : nat) : forallb ascii_char (newline_indent level) = true.
Proof.
  unfold newline_indent. cbn [forallb].
  induction (2 * level)%nat as [|n IH]; [reflexivity | exact IH].
Qed.

Ltac ascii_pieces :=
  repeat first
    [ rewrite forallb_app
    | rewrite ascii_escape
    | rewrite ascii_indent
    | progress cbn [forallb andb]
    | progress change (ascii_char 34) with true
    | progress change (ascii_char 58) with true
    | progress change (ascii_char 32) with true
    | progress change (ascii_char 44) with true
    | progress change (ascii_char 123) with true
    | progress change (ascii_char 125) with true
    | progress change (ascii_char 91) with true
    | progress change (ascii_char 93) with true ].

Lemma ascii_item_text (mp : list N * list N) (rest : list N) :
  forallb ascii_char rest = true ->
  forallb ascii_char (item_text mp rest) = true.
Proof. intros H. unfold item_text. ascii_pieces. exact H. Qed.

Lemma ascii_items_text (items : list (list N * list N)) (rest : list N) :
  forallb ascii_char rest = true ->
  forallb ascii_char (items_text items rest) = true.
Proof.
  intros H. induction items as [|mp more IH]; [exact H|].
  cbn [items_text]. destruct more as [|mp' more'].
  - apply ascii_item_text. ascii_pieces. exact H.
  - apply ascii_item_text. ascii_pieces. exact IH.
Qed.

Lemma replace_no_space (s : list N) : ~ In 32 (replace 32 95 s).
Proof.
  unfold replace. intros H. apply in_map_iff in H. destruct H as (c & E & _).
  destruct (N.eqb_spec c 32); [discriminate | congruence].
Qed.

Lemma replace_without_space (s : list N) : ~ In 32 s -> replace 32 95 s = s.
Proof.
  unfold replace. induction s as [|c s IH]; intros H; [reflexivity|].
  cbn [map]. destruct (N.eqb_spec c 32) as [->|_];
    [exfalso; apply H; left; reflexivity|].
  rewrite IH; [reflexivity | intros Hin; apply H; right; exact Hin].
Qed.

Lemma exports_app (s : state) (added : list event) :
  exports {| log := log s ++ added; llm_calls := llm_calls s |}
  = exports s ++ filter is_download added.
Proof. unfold exports. cbn [log]. apply filter_app. Qed.

(** The five calls of the entry at index [i], in a loop numbered from
    [start]. *)
Lemma pdf_block_at (items : list (list N * list N)) :
  forall (start i : nat) (module plan : list N),
    nth_error items i = Some (module, plan) ->
    firstn 5 (skipn (5 * i)
                (flat_map
                   (fun imp =>
                      [ SetFont true 14;
                        Cell 10 (lit "Module " ++ str_of_nat (fst imp) ++ lit ": "
                                 ++ fst (snd imp)) false;
                        SetFont false 12;
                        MultiCell 10 (snd (snd imp));
                        Ln 5 ])
                   (enumerate start items)))
    = [ SetFont true 14;
        Cell 10 (lit "Module " ++ str_of_nat (start + i) ++ lit ": " ++ module)
             false;
        SetFont false 12;
        MultiCell 10 plan;
        Ln 5 ].
Proof.
  induction items as [|mp items IH]; intros start i module plan Hi.
  - destruct i; discriminate.
  - destruct i as [|i]; cbn [nth_error] in Hi.
    + injection Hi as ->. rewrite Nat.add_0_r. reflexivity.
    + replace (5 * S i)%nat with (5 + 5 * i)%nat by lia.
      cbn [enumerate flat_map]. rewrite skipn_app.
      rewrite skipn_all2 by (cbn [List.length]; lia).
      cbn [app List.length]. replace (5 + 5 * i - 5)%nat with (5 * i)%nat by lia.
      rewrite (IH (S start) i module plan Hi).
      replace (S start + i)%nat with (start + S i)%nat by lia. reflexivity.
Qed.

Lemma pdf_blocks_length (items : list (nat * (list N * list N))) :
  List.length
    (flat_map
       (fun imp =>
          [ SetFont true 14;
            Cell 10 (lit "Module " ++ str_of_nat (fst imp) ++ lit ": "
                     ++ fst (snd imp)) false;
            SetFont false 12;
            MultiCell 10 (snd (snd imp));
            Ln 5 ]) items)
  = (5 * List.length items)%nat.
Proof.
  induction items as [|imp items IH]; [reflexivity|].
  cbn [flat_map app List.length]. rewrite IH. lia.
Qed.

Lemma pdf_blocks_pages (items : list (nat * (list N * list N))) :
  add_page_calls
    (flat_map
       (fun imp =>
          [ SetFont true 14;
            Cell 10 (lit "Module " ++ str_of_nat (fst imp) ++ lit ": "
                     ++ fst (snd imp)) false;
            SetFont false 12;
            MultiCell 10 (snd (snd imp));
            Ln 5 ]) items)
  = 0%nat.
Proof.
  induction items as [|imp items IH]; [reflexivity|].
  cbn [flat_map app add_page_calls]. exact IH.
Qed.

End ExportMore.

Section ExportCoverage.
Import Flow Json Exports StrFacts FetchFacts LlmFacts JsonFacts MarkdownFacts ExportMore.
Local Open Scope flow_scope.

(** X13.  What a run of [main] offers for download.  Without a
    submission nothing is offered.  On a submitted form, when the flow
    raises, [main] raises the same exception and offers nothing.  When
    the flow returns a mapping, [main] offers the JSON and the Markdown
    of that mapping, in this order, and only then builds the PDF: when
    [generate_pdf_content] returns the bytes, the PDF is offered third
    and [main] returns; when it raises (the layout library does on text
    it cannot encode), [main] raises that exception with the first two
    downloads already offered and no PDF. *)
Theorem downloads_of_a_run (w : World) (subject : str) (count : nat) :
  match kickoff w subject count (submitted initial) with
  | (_, Returned plans) =>
      match generate_pdf_content w subject plans with
      | Returned pdf_bytes =>
          snd (main w subject count true initial) = Returned tt
          /\ exports (fst (main w subject count true initial))
             = text_downloads subject plans ++ [pdf_download subject pdf_bytes]
      | Raised e =>
          snd (main w subject count true initial) = Raised e
          /\ exports (fst (main w subject count true initial))
             = text_downloads subject plans
      end
  | (_, Raised e) =>
      snd (main w subject count true initial) = Raised e
      /\ exports (fst (main w subject count true initial)) = []
  end
  /\ exports (fst (main w subject count false initial)) = [].
Proof.
  split; [|reflexivity].
  unfold main. repeat (rewrite bind_emit; cbv beta iota).
  change {| log := ((log initial ++ [StTitle (lit "AI Course Development Platform")])
                    ++ [StWrite (lit "Enter a subject to generate a complete course curriculum with lesson plans")])
                   ++ [StSubheader (lit "Course Development Process")];
            llm_calls := llm_calls initial |}
    with (submitted initial).
  assert (Hgo : going w (submitted initial)).
  { split; [|reflexivity]. intros n prompt Hin. cbn [submitted log initial app] in Hin.
    repeat (destruct Hin as [Hin|Hin]; [discriminate|]). contradiction. }
  pose proof (careful_kickoff w subject count _ Hgo) as Hk.
  destruct (kickoff w subject count (submitted initial)) as [s1 [e|plans]] eqn:Ek.
  - rewrite (bind_raised _ _ _ _ _ Ek). cbn [fst snd]. split; [reflexivity|].
    apply Hk.
  - rewrite (bind_returned _ _ _ _ _ Ek). rewrite bind_emit. cbv beta.
    match goal with |- context [bind (show_plans ?items) _ ?st] =>
      assert (Hgo4 : going w st) by (apply going_shown; [shown_event|exact Hk]);
      pose proof (quiet_show_plans w items st Hgo4) as Hq;
      pose proof (show_plans_returns items st) as Hr;
      destruct (show_plans items st) as [s5 [e1|[]]] eqn:Es; cbn [fst snd] in Hq, Hr;
        [discriminate|]
    end.
    rewrite (bind_returned _ _ _ _ _ Es).
    repeat (rewrite bind_emit; cbv beta).
    unfold bind, lift, emit.
    destruct Hq as [_ Hx].
    destruct (generate_pdf_content w subject plans) as [e1|pdf_bytes];
      cbn [fst snd]; (split; [reflexivity|]);
      unfold exports in *; cbn [log]; rewrite !filter_app, Hx; reflexivity.
Qed.

(** X14.  The name of a download is the subject with every space
    replaced by an underscore and every other character kept in its
    place, followed by the suffix; so it has no space, and a subject
    without spaces is used as it is. *)
Theorem download_names_have_no_space (subject : str) (suffix : String.string) :
  ~ In 32 (lit suffix) ->
  (forall i c,
      nth_error subject i = Some c ->
      nth_error (file_name subject suffix) i
      = Some (if c =? 32 then 95 else c))
  /\ skipn (List.length subject) (file_name subject suffix) = lit suffix
  /\ List.length (file_name subject suffix)
     = (List.length subject + List.length (lit suffix))%nat
  /\ ~ In 32 (file_name subject suffix)
  /\ (~ In 32 subject -> file_name subject suffix = subject ++ lit suffix).
Proof.
  intros Hs. unfold file_name.
  assert (Hlen : List.length (replace 32 95 subject) = List.length subject)
    by (unfold replace; apply length_map).
  split; [|split; [|split; [|split]]].
  - intros i c Hi. rewrite nth_error_app1.
    + unfold replace. rewrite nth_error_map, Hi. reflexivity.
    + rewrite Hlen. apply nth_error_Some. congruence.
  - rewrite <- Hlen, skipn_app, skipn_all, Nat.sub_diag. reflexivity.
  - rewrite length_app, Hlen. reflexivity.
  - intros H. apply in_app_or in H. destruct H as [H|H];
      [exact (replace_no_space subject H) | exact (Hs H)].
  - intros H. rewrite (replace_without_space subject H). reflexivity.
Qed.

Lemma download_names_have_no_space_witness :
  file_name (lit "Machine Learning") "_course.json"
  = lit "Machine_Learning_course.json"
  /\ nth_error (file_name (lit "Machine Learning") "_course.json") 7 = Some 95
  /\ ~ In 32 (file_name (lit "Machine Learning") "_course.json").
Proof.
  split; [reflexivity|].
  destruct (download_names_have_no_space (lit "Machine Learning") "_course.json")
    as (Hchar & _ & _ & Hno & _).
  - vm_compute. intuition discriminate.
  - split; [exact (Hchar 7%nat 32 eq_refl) | exact Hno].
Defined.

(** X15.  The JSON export is plain ASCII whatever the subject, the
    titles and the plans contain: each of its characters is a newline or
    a printable ASCII character. *)
Theorem json_export_is_ascii (subject : str) (plans : dict (list N)) :
  forallb ascii_char (json_export subject plans) = true
  /\ Forall (fun c => c = 10 \/ (32 <= c /\ c <= 126)) (json_export subject plans).
Proof.
  assert (H : forallb ascii_char (json_export subject plans) = true).
  { rewrite json_export_text. unfold doc_text, array_text. ascii_pieces.
    destruct plans as [|mp more]; ascii_pieces; [reflexivity|].
    apply ascii_items_text. ascii_pieces. reflexivity. }
  split; [exact H|].
  apply Forall_forall. intros c Hc. apply ascii_char_iff.
  rewrite forallb_forall in H. exact (H c Hc).
Qed.

(** X16.  The layout calls of [generate_pdf_content]: one page is added,
    first of all, and the title of the course is written on it; then
    every entry of the mapping has its own five calls, in the mapping's
    iteration order: the entry at index [i] gets, next to one another,
    the heading cell [Module i+1: title] and the multi-line cell with
    that entry's plan text.  Nothing else is laid out, and the bytes
    returned are the UTF-8 encoding of the string the layout library
    gives for these calls. *)
Theorem pdf_layout_follows_the_mapping
        (w : World) (subject : str) (plans : dict (list N)) :
  firstn 5 (pdf_calls subject plans)
  = [ AddPage; SetFont true 16;
      Cell 10 (subject ++ lit " Course Curriculum") true;
      Ln 10; SetFont false 12 ]
  /\ (forall i module plan,
         nth_error plans i = Some (module, plan) ->
         firstn 5 (skipn (5 + 5 * i) (pdf_calls subject plans))
         = [ SetFont true 14;
             Cell 10 (lit "Module " ++ str_of_nat (i + 1) ++ lit ": " ++ module)
                  false;
             SetFont false 12;
             MultiCell 10 plan;
             Ln 5 ])
  /\ List.length (pdf_calls subject plans) = (5 + 5 * List.length plans)%nat
  /\ add_page_calls (pdf_calls subject plans) = 1%nat
  /\ (forall pdf_bytes,
         generate_pdf_content w subject plans = Returned pdf_bytes ->
         exists output,
           pdf_output w (pdf_calls subject plans) = Returned (PdfStr output)
           /\ encode_utf8 output = Some pdf_bytes).
Proof.
  unfold pdf_calls. split; [reflexivity|]. split; [|split; [|split]].
  - intros i module plan Hi.
    change (5 + 5 * i)%nat with (List.length [AddPage; SetFont true 16;
              Cell 10 (subject ++ lit " Course Curriculum") true;
              Ln 10; SetFont false 12] + 5 * i)%nat.
    rewrite skipn_app, skipn_all2 by (cbn [List.length]; lia).
    cbn [app List.length].
    replace (5 + 5 * i - 5)%nat with (5 * i)%nat by lia.
    replace (i + 1)%nat with (1 + i)%nat by lia.
    apply pdf_block_at, Hi.
  - cbn [app List.length]. rewrite pdf_blocks_length, length_enumerate.
    reflexivity.
  - cbn [app add_page_calls]. rewrite pdf_blocks_pages. reflexivity.
  - intros pdf_bytes. unfold generate_pdf_content, pdf_calls, py_encode.
    match goal with |- context [pdf_output w ?calls] =>
      destruct (pdf_output w calls) as [e|[output|b]]
    end; try discriminate.
    destruct (encode_utf8 output) as [b|] eqn:E; [|discriminate].
    intros [= <-]. exists output. split; [reflexivity | exact E].
Qed.

Lemma pdf_layout_follows_the_mapping_witness :
  firstn 5 (skipn 10 (pdf_calls (lit "ML") plain_plans))
  = [ SetFont true 14;
      Cell 10 (lit "Module 2: 2. Advanced") false;
      SetFont false 12;
      MultiCell 10 (lit "# Notes" ++ [NL] ++ lit "Kernels");
      Ln 5 ].
Proof.
  destruct (pdf_layout_follows_the_mapping numbering (lit "ML") plain_plans)
    as (_ & Hblock & _).
  exact (Hblock 1%nat (lit "2. Advanced") (lit "# Notes" ++ [NL] ++ lit "Kernels")
           eq_refl).
Defined.

End ExportCoverage.
